(** * Twikit HTTP service: a shallow embedding and its properties

    The service is a thin HTTP facade: [app/main.py] validates a publish
    request, writes an audit row through [app/database.py], calls the
    adapter of [app/twitter_client.py] and answers.  The embedding follows
    the Python modules one by one.

    - A Python coroutine becomes a function in a state-and-exception monad
      [M L A]: the state is the object the code mutates ([L]) together with
      everything outside the program ([Ext]: files on disk, the behaviour of
      the libraries, a ghost trace of the effects performed).
    - What the third-party libraries answer (twikit, the file system,
      sqlite3, the clock, pydantic's datetime parser, tenacity's wait
      strategy) is not code of the repository: it is a [Library] record,
      and every theorem holds for every such record.
    - A Python [str] is held as its UTF-8 encoding, a [string] of bytes;
      [Py.len] counts its characters.
    - The modules [database] and [main] give what the SQL statements and
      the handlers do when SQLite runs the statements.  What a connection
      can refuse (a file that does not open, a full key space, a parameter
      out of range) is added in [sqlite] and [db_manager], and [served] is
      the route POST /api/tweet over that store. *)

From Stdlib Require Import ZArith String Ascii List Lia Sorted.
From stdpp Require Import base gmap strings list.

Local Open Scope Z_scope.

(** ** Python strings *)

Module Py.

(** [c.lower()] on one character: only 'A'..'Z' move. *)
Definition lower_char (c : ascii) : ascii :=
  let n := nat_of_ascii c in
  if ((65 <=? n) && (n <=? 90))%nat then ascii_of_nat (n + 32) else c.

(** A byte that continues a character of the UTF-8 encoding: [10xxxxxx]. *)
Definition is_continuation (c : ascii) : bool :=
  let n := nat_of_ascii c in ((128 <=? n) && (n <=? 191))%nat.

(** [len(s)]: the number of characters, that is of the bytes that start
    one. *)
Fixpoint len (s : string) : nat :=
  match s with
  | EmptyString => 0
  | String c s' => if is_continuation c then len s' else S (len s')
  end.

(** [s.lower()].  The bytes of a character outside ASCII stay; the
    keywords this is used with are ASCII. *)
Fixpoint lower (s : string) : string :=
  match s with
  | EmptyString => EmptyString
  | String c s' => String (lower_char c) (lower s')
  end.

(** [sub in s] *)
Fixpoint contains (sub s : string) : bool :=
  String.prefix sub s ||
  match s with
  | EmptyString => false
  | String _ s' => contains sub s'
  end.

(** Truth value of a [str]: empty is false. *)
Definition truthy_str (s : string) : bool :=
  match s with EmptyString => false | _ => true end.

(** Truth value of an [Optional[str]]. *)
Definition truthy_opt_str (o : option string) : bool :=
  match o with Some s => truthy_str s | None => false end.

(** Truth value of a list, and of an [Optional[List]]. *)
Definition truthy_list {A} (l : list A) : bool :=
  match l with [] => false | _ => true end.

Definition truthy_opt_list {A} (o : option (list A)) : bool :=
  match o with Some l => truthy_list l | None => false end.

(** [repr] of a list of strings, as an f-string prints it.  Quotes inside
    the elements are not escaped; the callers only print empty strings. *)
Definition repr_str (s : string) : string := "'" +:+ s +:+ "'".

Fixpoint join (sep : string) (l : list string) : string :=
  match l with
  | [] => ""
  | [x] => x
  | x :: l' => x +:+ sep +:+ join sep l'
  end.

Definition repr_list (l : list string) : string :=
  "[" +:+ join ", " (map repr_str l) +:+ "]".

End Py.

(** ** Exceptions and HTTP error bodies *)

(** The dictionary built by [format_error_response] (app/utils.py). *)
Record error_body := {
  eb_success : bool;
  error_code : string;
  eb_message : string;
  details : option string;
  eb_timestamp : Z
}.

(** The exception classes that flow through the program.  All of them are
    subclasses of [Exception]. *)
Inductive exn :=
| TwitterClientError (msg : string)
| RuntimeError (msg : string)
| ValueError (msg : string)
| ValidationError (msg : string)
| LibraryError (msg : string)
| HTTPException (status_code : Z) (detail : error_body).

(** [str(e)].  Starlette's HTTPException carries no message argument; the
    program never prints one. *)
Definition str (e : exn) : string :=
  match e with
  | TwitterClientError m | RuntimeError m | ValueError m
  | ValidationError m | LibraryError m => m
  | HTTPException _ _ => ""
  end.

Inductive result (A : Type) :=
| Return (a : A)
| Raise (e : exn).
Arguments Return {A} a.
Arguments Raise {A} e.

(** ** The world outside the program *)

(** What a library call does: it returns, or it raises with a message. *)
Inductive outcome (A : Type) :=
| Returns (a : A)
| Throws (msg : string).
Arguments Returns {A} a.
Arguments Throws {A} msg.

(** twikit's [Tweet], the attributes the adapter reads. *)
Module Tweet.
Record t := {
  id : string;
  text : string;
  created_at : string;
  user_id : string;
  user_name : string;
  favorite_count : Z;
  retweet_count : Z
}.
End Tweet.

(** The answers of everything that is not code of the repository.  A call
    takes the answer stored at the current [tick]; the tick then advances.
    [sqlite_outcome] is what happens to one [async with aiosqlite.connect]
    block: the file opens, the statements run and are committed, or sqlite3
    raises. *)
Record Library := {
  load_cookies_outcome : nat -> outcome unit;
  get_user_by_screen_name_outcome : nat -> outcome bool;
  login_outcome : nat -> outcome nat;
  makedirs_outcome : nat -> outcome unit;
  sqlite_outcome : nat -> outcome unit;
  save_cookies_outcome : nat -> outcome unit;
  upload_media_outcome : nat -> outcome string;
  create_tweet_outcome : nat -> outcome Tweet.t;
  get_tweet_by_id_outcome : nat -> outcome Tweet.t;
  clock : nat -> Z;
  parse_datetime : string -> option Z;
  wait_exponential : nat -> nat -> nat -> nat -> nat
}.

(** Effects, in the order they happen. *)
Inductive event :=
| DbInsert (id : Z) (status : string)
| DbUpdate (id : Z) (status : option string)
| CallAuthenticate                 (* [authenticate()] is entered *)
| LoadCookies (path : string)
| GetUserByScreenName (name : string)
| Login (auth_info_1 auth_info_2 password : string)
| MakeDirs
| SaveCookies (path : string)
| UploadMedia (i : nat)
| ClientCreateTweet (text : string) (media_ids : option (list string))
                    (reply_to : option string)
| GetTweetById (tweet_id : string)
| Sleep (seconds : nat)
| HttpResponse (status_code : Z).

Record Ext := {
  files : gmap string nat;
  library : Library;
  tick : nat;
  trace : list event
}.

Record St (L : Type) := { loc : L; ext : Ext }.
Arguments loc {L} s.
Arguments ext {L} s.

(** ** The monad of the embedding *)

Definition M (L A : Type) : Type := St L -> result A * St L.

Definition ret {L A} (a : A) : M L A := fun s => (Return a, s).

Definition raise {L A} (e : exn) : M L A := fun s => (Raise e, s).

Definition bind {L A B} (m : M L A) (k : A -> M L B) : M L B :=
  fun s =>
    match m s with
    | (Return a, s') => k a s'
    | (Raise e, s') => (Raise e, s')
    end.

(** [try: body  except Exception as e: handler e] *)
Definition try_except {L A} (body : M L A) (handler : exn -> M L A) : M L A :=
  fun s =>
    match body s with
    | (Return a, s') => (Return a, s')
    | (Raise e, s') => handler e s'
    end.

Declare Scope py_scope.
Delimit Scope py_scope with py.
Notation "x <- m ;; k" := (bind m (fun x => k))
  (at level 100, m at next level, k at level 200, right associativity) : py_scope.
Notation "m ;; k" := (bind m (fun _ => k))
  (at level 100, k at level 200, right associativity) : py_scope.
Local Open Scope py_scope.

Definition get_loc {L} : M L L := fun s => (Return (loc s), s).

Definition set_loc {L} (l : L) : M L unit :=
  fun s => (Return tt, {| loc := l; ext := ext s |}).

Definition get_files {L} : M L (gmap string nat) :=
  fun s => (Return (files (ext s)), s).

Definition set_files {L} (fs : gmap string nat) : M L unit :=
  fun s => (Return tt,
            {| loc := loc s;
               ext := {| files := fs; library := library (ext s);
                         tick := tick (ext s); trace := trace (ext s) |} |}).

Definition get_library {L} : M L Library :=
  fun s => (Return (library (ext s)), s).

(** Record an effect at the end of the trace. *)
Definition emit {L} (ev : event) : M L unit :=
  fun s => (Return tt,
            {| loc := loc s;
               ext := {| files := files (ext s); library := library (ext s);
                         tick := tick (ext s); trace := trace (ext s) ++ [ev] |} |}).

(** Read the answer for the current tick and advance the tick. *)
Definition ask {L A} (f : Library -> nat -> A) : M L A :=
  fun s => (Return (f (library (ext s)) (tick (ext s))),
            {| loc := loc s;
               ext := {| files := files (ext s); library := library (ext s);
                         tick := S (tick (ext s)); trace := trace (ext s) |} |}).

(** A library call: record it, take its outcome, raise if it throws. *)
Definition call {L A} (ev : event) (f : Library -> nat -> outcome A) : M L A :=
  emit ev ;;
  o <- ask f ;;
  match o with
  | Returns a => ret a
  | Throws msg => raise (LibraryError msg)
  end.

(** [datetime.now()] and SQLite's CURRENT_TIMESTAMP. *)
Definition now {L} : M L Z := ask clock.

(** ** app/config.py *)

Module config.

Record Settings := {
  twitter_username : string;
  twitter_email : string;
  twitter_password : string;
  host : string;
  port : Z;
  database_url : string;
  log_level : string;
  max_retry_attempts : Z;
  retry_delay : Z;
  cookies_file : string;
  log_file : string
}.

(** The loop of [validate_config] over [required_fields]. *)
Fixpoint collect_missing (required_fields missing_fields : list string)
  : list string :=
  match required_fields with
  | [] => missing_fields
  | field :: rest =>
      if negb (Py.truthy_str field)
      then collect_missing rest (missing_fields ++ [field])
      else collect_missing rest missing_fields
  end.

Definition validate_config : M Settings bool :=
  self <- get_loc ;;
  let required_fields :=
    [twitter_username self; twitter_email self; twitter_password self] in
  let missing_fields := collect_missing required_fields [] in
  if Py.truthy_list missing_fields
  then raise (ValueError ("缺少必要配置: " +:+ Py.repr_list missing_fields))
  else ret true.

End config.

(** ** app/database.py *)

Module database.

(** One row of the table [tweet_logs]. *)
Record row := {
  id : Z;
  tweet_id : option string;
  text : string;
  status : string;
  retry_count : Z;
  error_message : option string;
  created_at : Z;
  updated_at : Z
}.

(** The table in rowid order, and the AUTOINCREMENT counter SQLite keeps
    for it in [sqlite_sequence]. *)
Record Database := {
  tweet_logs : list row;
  sqlite_sequence : Z
}.

(** The largest rowid in the table (0 when it is empty). *)
Definition max_rowid (rows : list row) : Z :=
  fold_right (fun r acc => Z.max (id r) acc) 0 rows.

(** AUTOINCREMENT: one more than the largest rowid that ever existed.
    The insert that finds the largest rowid there is already used is
    refused: see [db_manager.log_tweet]. *)
Definition next_rowid (d : Database) : Z :=
  Z.max (sqlite_sequence d) (max_rowid (tweet_logs d)) + 1.

(** [INSERT INTO tweet_logs (tweet_id, text, status, error_message)
    VALUES (?, ?, ?, ?)]: the other columns take their defaults. *)
Definition sql_insert (d : Database) (tweet_id : option string)
    (text status : string) (error_message : option string)
    (current_timestamp : Z) : Z * Database :=
  let lastrowid := next_rowid d in
  (lastrowid,
   {| tweet_logs := tweet_logs d ++
        [{| id := lastrowid; tweet_id := tweet_id; text := text;
            status := status; retry_count := 0;
            error_message := error_message;
            created_at := current_timestamp;
            updated_at := current_timestamp |}];
      sqlite_sequence := lastrowid |}).

(** One [column = ?] of an UPDATE, with its parameter. *)
Inductive assignment :=
| set_tweet_id (v : string)
| set_status (v : string)
| set_retry_count (v : Z)
| set_error_message (v : string)
| set_updated_at_current_timestamp.

Definition assign (current_timestamp : Z) (r : row) (a : assignment) : row :=
  match a with
  | set_tweet_id v =>
      {| id := id r; tweet_id := Some v; text := text r; status := status r;
         retry_count := retry_count r; error_message := error_message r;
         created_at := created_at r; updated_at := updated_at r |}
  | set_status v =>
      {| id := id r; tweet_id := tweet_id r; text := text r; status := v;
         retry_count := retry_count r; error_message := error_message r;
         created_at := created_at r; updated_at := updated_at r |}
  | set_retry_count v =>
      {| id := id r; tweet_id := tweet_id r; text := text r; status := status r;
         retry_count := v; error_message := error_message r;
         created_at := created_at r; updated_at := updated_at r |}
  | set_error_message v =>
      {| id := id r; tweet_id := tweet_id r; text := text r; status := status r;
         retry_count := retry_count r; error_message := Some v;
         created_at := created_at r; updated_at := updated_at r |}
  | set_updated_at_current_timestamp =>
      {| id := id r; tweet_id := tweet_id r; text := text r; status := status r;
         retry_count := retry_count r; error_message := error_message r;
         created_at := created_at r; updated_at := current_timestamp |}
  end.

(** [UPDATE tweet_logs SET updates WHERE id = ?] *)
Definition sql_update (d : Database) (updates : list assignment)
    (log_id : Z) (current_timestamp : Z) : Database :=
  {| tweet_logs :=
       map (fun r => if Z.eqb (id r) log_id
                     then fold_left (assign current_timestamp) updates r
                     else r)
           (tweet_logs d);
     sqlite_sequence := sqlite_sequence d |}.

(** [SELECT * FROM tweet_logs WHERE id = ?] (the key is unique, so the
    first match is the row). *)
Definition select_by_id (d : Database) (log_id : Z) : option row :=
  find (fun r => Z.eqb (id r) log_id) (tweet_logs d).

(** The list [updates] that [update_tweet_log] builds before it appends
    the timestamp and runs the query. *)
Definition build_updates (tweet_id status : option string)
    (retry_count : option Z) (error_message : option string)
  : list assignment :=
  let updates := [] in
  let updates :=
    match tweet_id with Some v => updates ++ [set_tweet_id v] | None => updates end in
  let updates :=
    match status with Some v => updates ++ [set_status v] | None => updates end in
  let updates :=
    match retry_count with Some v => updates ++ [set_retry_count v] | None => updates end in
  let updates :=
    match error_message with Some v => updates ++ [set_error_message v] | None => updates end in
  updates ++ [set_updated_at_current_timestamp].

(** The program state a [DatabaseManager] works on is any state that holds
    the database file: [db] reads it and [with_db] writes it. *)
Section manager.
Context {L : Type} (db : L -> Database) (with_db : Database -> L -> L).

Definition log_tweet (text : string) (tweet_id : option string)
    (status : string) (error_message : option string) : M L Z :=
  app <- get_loc ;;
  ts <- now ;;
  let '(lastrowid, d) :=
    sql_insert (db app) tweet_id text status error_message ts in
  set_loc (with_db d app) ;;
  emit (DbInsert lastrowid status) ;;
  ret lastrowid.

Definition update_tweet_log (log_id : Z) (tweet_id status : option string)
    (retry_count : option Z) (error_message : option string) : M L unit :=
  let updates := build_updates tweet_id status retry_count error_message in
  if Py.truthy_list updates then
    app <- get_loc ;;
    ts <- now ;;
    set_loc (with_db (sql_update (db app) updates log_id ts) app) ;;
    emit (DbUpdate log_id status)
  else ret tt.

End manager.

End database.

(** ** tenacity's [retry] decorator, as [app/twitter_client.py] uses it *)

Module tenacity.
Section retry.
Context {L A : Type}.

(** One round of the retrying loop: run [fn]; when it raises and
    [stop_after_attempt] is not reached, sleep for what the wait
    strategy says and go again; with [reraise=True] the last exception
    goes to the caller as it is. *)
Fixpoint retry_from (retries_left attempt_number : nat)
    (wait : Library -> nat -> nat) (fn : M L A) : M L A :=
  try_except fn
    (fun e =>
       match retries_left with
       | O => raise e
       | S n =>
           lib <- get_library ;;
           emit (Sleep (wait lib attempt_number)) ;;
           retry_from n (S attempt_number) wait fn
       end).

(** [@retry(stop=stop_after_attempt(n), wait=wait, reraise=True)] *)
Definition retry (stop_after_attempt : nat)
    (wait : Library -> nat -> nat) (fn : M L A) : M L A :=
  retry_from (stop_after_attempt - 1) 1 wait fn.

End retry.
End tenacity.

(** ** app/twitter_client.py *)

Module twitter_client.

(** The adapter object.  [client] is the cookie jar the wrapped twikit
    [Client] currently holds. *)
Record TwitterService := {
  username : string;
  email : string;
  password : string;
  cookies_file : string;
  client : nat;
  _authenticated : bool
}.

(** The dictionary [create_tweet] returns. *)
Record tweet_result := {
  tweet_id : string;
  text : string;
  created_at : string;
  user_id : string;
  user_name : string
}.

(** The dictionary [get_tweet_info] returns. *)
Record tweet_info := {
  info_id : string;
  info_text : string;
  info_created_at : string;
  info_user_name : string;
  like_count : Z;
  info_retweet_count : Z
}.

(** The dictionary [health_check] returns. *)
Record health := { status : string; message : string }.

(** [self._authenticated = b] *)
Definition set_authenticated (b : bool) : M TwitterService unit :=
  self <- get_loc ;;
  set_loc {| username := username self; email := email self;
             password := password self; cookies_file := cookies_file self;
             client := client self; _authenticated := b |}.

Definition set_client (jar : nat) : M TwitterService unit :=
  self <- get_loc ;;
  set_loc {| username := username self; email := email self;
             password := password self; cookies_file := cookies_file self;
             client := jar; _authenticated := _authenticated self |}.

(** [os.path.exists(path)] *)
Definition os_path_exists (path : string) : M TwitterService bool :=
  fs <- get_files ;;
  ret (match fs !! path with Some _ => true | None => false end).

(** [self.client.load_cookies(path)] *)
Definition client_load_cookies (path : string) : M TwitterService unit :=
  call (LoadCookies path) load_cookies_outcome ;;
  fs <- get_files ;;
  match fs !! path with
  | Some jar => set_client jar
  | None => raise (LibraryError "No such file or directory")
  end.

(** [await self.client.login(...)] *)
Definition client_login : M TwitterService unit :=
  self <- get_loc ;;
  jar <- call (Login (username self) (email self) (password self))
              login_outcome ;;
  set_client jar.

(** [os.makedirs(os.path.dirname(path), exist_ok=True)] *)
Definition os_makedirs : M TwitterService unit :=
  call MakeDirs makedirs_outcome.

(** [self.client.save_cookies(path)] *)
Definition client_save_cookies (path : string) : M TwitterService unit :=
  call (SaveCookies path) save_cookies_outcome ;;
  self <- get_loc ;;
  fs <- get_files ;;
  set_files (<[path := client self]> fs).

Definition _test_authentication : M TwitterService unit :=
  self <- get_loc ;;
  user <- call (GetUserByScreenName (username self))
               get_user_by_screen_name_outcome ;;
  if negb user then raise (TwitterClientError "认证测试失败") else ret tt.

(** The first half of [authenticate]: the saved cookies.  It answers
    [true] when the function returns from inside the inner [try]. *)
Definition try_saved_cookies : M TwitterService bool :=
  self <- get_loc ;;
  cookies_exist <- os_path_exists (cookies_file self) ;;
  if cookies_exist then
    client_load_cookies (cookies_file self) ;;
    try_except
      (_test_authentication ;;
       set_authenticated true ;;
       ret true)
      (fun e => ret false)
  else ret false.

(** The second half of [authenticate]: the full login. *)
Definition full_login : M TwitterService bool :=
  self <- get_loc ;;
  client_login ;;
  os_makedirs ;;
  client_save_cookies (cookies_file self) ;;
  set_authenticated true ;;
  ret true.

Definition authenticate : M TwitterService bool :=
  emit CallAuthenticate ;;
  try_except
    (returned <- try_saved_cookies ;;
     if returned then ret true else full_login)
    (fun e => raise (TwitterClientError ("认证失败: " +:+ str e))).

(** [if not self._authenticated: await self.authenticate()] *)
Definition ensure_authenticated : M TwitterService unit :=
  self <- get_loc ;;
  if negb (_authenticated self) then authenticate ;; ret tt else ret tt.

(** The loop of [_upload_media] from index [i] on.  Decoding one item,
    writing it to a temporary file, uploading it and removing the file are
    one step of the library. *)
Fixpoint upload_media_from (i : nat) (media_data_list media_ids : list string)
  : M TwitterService (list string) :=
  match media_data_list with
  | [] => ret media_ids
  | media_data :: rest =>
      media_id <-
        try_except
          (call (UploadMedia i) upload_media_outcome)
          (fun e => raise (TwitterClientError ("媒体上传失败: " +:+ str e))) ;;
      upload_media_from (S i) rest (media_ids ++ [media_id])
  end.

Definition _upload_media (media_data_list : list string)
  : M TwitterService (list string) :=
  upload_media_from 0 media_data_list [].

(** The keyword test of the [except] block of [create_tweet]. *)
Definition auth_keywords : list string :=
  ["auth"; "login"; "unauthorized"; "forbidden"].

Definition is_auth_error (msg : string) : bool :=
  existsb (fun keyword => Py.contains keyword (Py.lower msg)) auth_keywords.

(** The [try] block of [create_tweet]. *)
Definition create_tweet_try (text : string) (media_data : option (list string))
    (reply_to : option string) : M TwitterService tweet_result :=
  media_ids <-
    (if Py.truthy_opt_list media_data
     then _upload_media (default [] media_data)
     else ret []) ;;
  tweet <-
    (if Py.truthy_opt_str reply_to
     then call (ClientCreateTweet text
                  (if Py.truthy_list media_ids then Some media_ids else None)
                  reply_to)
               create_tweet_outcome
     else call (ClientCreateTweet text
                  (if Py.truthy_list media_ids then Some media_ids else None)
                  None)
               create_tweet_outcome) ;;
  ret {| tweet_id := Tweet.id tweet; text := Tweet.text tweet;
         created_at := Tweet.created_at tweet;
         user_id := Tweet.user_id tweet;
         user_name := Tweet.user_name tweet |}.

(** The [except] block of [create_tweet]. *)
Definition create_tweet_except (e : exn) : M TwitterService tweet_result :=
  let error_msg := "发布推文失败: " +:+ str e in
  (if is_auth_error (str e) then set_authenticated false else ret tt) ;;
  raise (TwitterClientError error_msg).

(** The body of [create_tweet]: one attempt. *)
Definition create_tweet_attempt (text : string)
    (media_data : option (list string)) (reply_to : option string)
  : M TwitterService tweet_result :=
  ensure_authenticated ;;
  try_except (create_tweet_try text media_data reply_to) create_tweet_except.

(** [create_tweet] as decorated:
    [stop_after_attempt(3)], [wait_exponential(multiplier=1, min=2, max=10)],
    [reraise=True]. *)
Definition create_tweet (text : string) (media_data : option (list string))
    (reply_to : option string) : M TwitterService tweet_result :=
  tenacity.retry 3 (fun lib => wait_exponential lib 1 2 10)
    (create_tweet_attempt text media_data reply_to).

Definition get_tweet_info (tweet_id : string)
  : M TwitterService (option tweet_info) :=
  ensure_authenticated ;;
  try_except
    (tweet <- call (GetTweetById tweet_id) get_tweet_by_id_outcome ;;
     ret (Some {| info_id := Tweet.id tweet; info_text := Tweet.text tweet;
                  info_created_at := Tweet.created_at tweet;
                  info_user_name := Tweet.user_name tweet;
                  like_count := Tweet.favorite_count tweet;
                  info_retweet_count := Tweet.retweet_count tweet |}))
    (fun e => ret None).

Definition health_check : M TwitterService health :=
  try_except
    (ensure_authenticated ;;
     _test_authentication ;;
     ret {| status := "connected"; message := "Twitter API连接正常" |})
    (fun e =>
       ret {| status := "disconnected";
              message := "Twitter API连接异常: " +:+ str e |}).

End twitter_client.

(** ** app/models.py *)

Module models.

Definition newline : string := String (ascii_of_nat 10) EmptyString.

Module TweetRequest.
Record t := {
  text : string;
  media : option (list string);
  reply_to : option string
}.

(** [text: str = Field(..., min_length=1, max_length=280)] *)
Definition text_ok (text : string) : bool :=
  ((1 <=? Py.len text) && (Py.len text <=? 280))%nat.

(** Building the model validates it. *)
Definition new (text : string) (media : option (list string))
    (reply_to : option string) : result t :=
  if text_ok text
  then Return {| text := text; media := media; reply_to := reply_to |}
  else Raise (ValidationError
                ("1 validation error for TweetRequest" +:+ newline +:+ "text")).
End TweetRequest.

Module TweetResponse.
Record t := {
  success : bool;
  tweet_id : option string;
  message : string;
  created_at : option Z
}.

(** The message of the ValidationError for a [created_at] that is no
    datetime. *)
Definition datetime_error : string :=
  "1 validation error for TweetResponse" +:+ newline
  +:+ "created_at" +:+ newline
  +:+ "  invalid datetime format (type=value_error.datetime)".

(** [created_at: Optional[datetime]]: a string is parsed, and a string
    that is no datetime fails the validation. *)
Definition new {L} (success : bool) (tweet_id : option string)
    (message : string) (created_at : option string) : M L t :=
  lib <- get_library ;;
  match created_at with
  | None =>
      ret {| success := success; tweet_id := tweet_id;
             message := message; created_at := None |}
  | Some raw =>
      match parse_datetime lib raw with
      | Some d =>
          ret {| success := success; tweet_id := tweet_id;
                 message := message; created_at := Some d |}
      | None =>
          raise (ValidationError datetime_error)
      end
  end.
End TweetResponse.

Module HealthResponse.
Record t := {
  status : string;
  timestamp : Z;
  twitter_status : string
}.

(** [timestamp] defaults to [datetime.now()]. *)
Definition new {L} (status twitter_status : string) : M L t :=
  ts <- now ;;
  ret {| status := status; timestamp := ts; twitter_status := twitter_status |}.
End HealthResponse.

End models.

(** ** app/utils.py *)

Module utils.

Definition format_error_response {L} (error_code message : string)
    (details : option string) : M L error_body :=
  ts <- now ;;
  ret {| eb_success := false; error_code := error_code;
         eb_message := message; details := details; eb_timestamp := ts |}.

End utils.

(** ** app/main.py *)

Module main.
Import models.

(** The module-level objects the handlers share: [config.settings], the
    SQLite file behind [database.db_manager], and the global
    [twitter_client.twitter_service]. *)
Record App := {
  settings : config.Settings;
  db : database.Database;
  twitter_service : option twitter_client.TwitterService
}.

Definition with_db (d : database.Database) (app : App) : App :=
  {| settings := settings app; db := d;
     twitter_service := twitter_service app |}.

Definition log_tweet := database.log_tweet db with_db.
Definition update_tweet_log := database.update_tweet_log db with_db.

(** [get_twitter_service().method(...)]: the lookup raises while the
    global is [None]; otherwise the method runs on the shared object, and
    what it does to the object stays. *)
Definition get_twitter_service {A} (method : M twitter_client.TwitterService A)
  : M App A :=
  fun s =>
    match twitter_service (loc s) with
    | None => (Raise (RuntimeError "Twitter服务未初始化"), s)
    | Some service =>
        let '(r, s') := method {| loc := service; ext := ext s |} in
        (r, {| loc := {| settings := settings (loc s); db := db (loc s);
                         twitter_service := Some (loc s') |};
               ext := ext s' |})
    end.

(** GET /health *)
Definition health_check : M App HealthResponse.t :=
  try_except
    (twitter_status <- get_twitter_service twitter_client.health_check ;;
     HealthResponse.new "healthy" (twitter_client.status twitter_status))
    (fun e => HealthResponse.new "unhealthy" "error").

Definition process_tweet_async (tweet_data : TweetRequest.t) (log_id : Z)
  : M App twitter_client.tweet_result :=
  try_except
    (result <- get_twitter_service
                 (twitter_client.create_tweet
                    (TweetRequest.text tweet_data)
                    (TweetRequest.media tweet_data)
                    (TweetRequest.reply_to tweet_data)) ;;
     update_tweet_log log_id (Some (twitter_client.tweet_id result))
                      (Some "success") None None ;;
     ret result)
    (fun e =>
       update_tweet_log log_id None (Some "failed") None (Some (str e)) ;;
       raise e).

(** The handler of POST /api/tweet. *)
Definition create_tweet (tweet_data : TweetRequest.t) : M App TweetResponse.t :=
  try_except
    (log_id <- log_tweet (TweetRequest.text tweet_data) None "processing" None ;;
     try_except
       (result <- process_tweet_async tweet_data log_id ;;
        TweetResponse.new true (Some (twitter_client.tweet_id result))
                          "推文发布成功"
                          (Some (twitter_client.created_at result)))
       (fun e =>
          match e with
          | TwitterClientError _ =>
              update_tweet_log log_id None (Some "failed") None (Some (str e)) ;;
              detail <- utils.format_error_response
                          "TWITTER_ERROR" "推文发布失败" (Some (str e)) ;;
              raise (HTTPException 400 detail)
          | _ =>
              update_tweet_log log_id None (Some "failed") None (Some (str e)) ;;
              detail <- utils.format_error_response
                          "INTERNAL_ERROR" "服务器内部错误" (Some (str e)) ;;
              raise (HTTPException 500 detail)
          end))
    (fun e =>
       match e with
       | HTTPException _ _ => raise e
       | _ =>
           detail <- utils.format_error_response
                       "UNEXPECTED_ERROR" "意外错误" (Some (str e)) ;;
           raise (HTTPException 500 detail)
       end).

(** What the HTTP caller receives. *)
Inductive http_body :=
| TweetBody (r : TweetResponse.t)
| Detail (d : error_body)
| Content (d : error_body)
| RequestValidationErrors.

Record http_response := { status_code : Z; body : http_body }.

Definition respond (status_code : Z) (body : http_body) : M App http_response :=
  emit (HttpResponse status_code) ;;
  ret {| status_code := status_code; body := body |}.

(** [@app.exception_handler(TwitterClientError)] *)
Definition twitter_error_handler (exc : exn) : M App http_response :=
  content <- utils.format_error_response
               "TWITTER_ERROR" "Twitter操作失败" (Some (str exc)) ;;
  respond 400 (Content content).

(** [@app.exception_handler(Exception)] *)
Definition general_exception_handler (exc : exn) : M App http_response :=
  content <- utils.format_error_response
               "INTERNAL_ERROR" "内部服务器错误" (Some (str exc)) ;;
  respond 500 (Content content).

(** The route POST /api/tweet as the framework serves it: the body is
    validated into a [TweetRequest] (422 when that fails), the handler
    runs, and what it returns or raises becomes the response. *)
Definition post_api_tweet (text : string) (media : option (list string))
    (reply_to : option string) : M App http_response :=
  match TweetRequest.new text media reply_to with
  | Raise _ => respond 422 RequestValidationErrors
  | Return tweet_data =>
      try_except
        (r <- create_tweet tweet_data ;;
         respond 200 (TweetBody r))
        (fun e =>
           match e with
           | HTTPException status_code detail => respond status_code (Detail detail)
           | TwitterClientError _ => twitter_error_handler e
           | _ => general_exception_handler e
           end)
  end.

End main.

(** * The rest of the code *)

(** ** More of Python's [str] *)

Module PyStr.

(** [s.startswith(p)] *)
Definition startswith (p s : string) : bool := String.prefix p s.

(** [s.split(sep, 1)] for a separator of one character: the text before the
    first [sep] and the text after it, or nothing when [sep] does not occur
    (the list then has one element). *)
Fixpoint split_once (sep : ascii) (s : string) : option (string * string) :=
  match s with
  | EmptyString => None
  | String c s' =>
      if Ascii.eqb c sep then Some (EmptyString, s')
      else match split_once sep s' with
           | Some (before, after) => Some (String c before, after)
           | None => None
           end
  end.

(** [s.split(sep)] for a separator of one character. *)
Fixpoint split (sep : ascii) (s : string) : list string :=
  match s with
  | EmptyString => [EmptyString]
  | String c s' =>
      if Ascii.eqb c sep then EmptyString :: split sep s'
      else match split sep s' with
           | piece :: pieces => String c piece :: pieces
           | [] => [String c EmptyString]
           end
  end.

End PyStr.

(** ** app/twitter_client.py: the data URL of a media item *)

Module media_data.

(** The first lines of the loop body of [_upload_media]: the MIME type and
    the base64 text of one item.  Unpacking a [split] of one element raises
    a ValueError, and an index past the end of a list an IndexError.  In
    [twitter_client.upload_media_from] these lines are part of the one
    library step of an item; here they are by themselves. *)
Definition parse (media_data : string) : result (string * string) :=
  if PyStr.startswith "data:" media_data then
    match PyStr.split_once "," media_data with
    | Some (header, data) =>
        match PyStr.split ";" header with
        | first :: _ =>
            match PyStr.split ":" first with
            | _ :: mime_type :: _ => Return (mime_type, data)
            | _ => Raise (LibraryError "list index out of range")
            end
        | [] => Raise (LibraryError "list index out of range")
        end
    | None =>
        Raise (ValueError "not enough values to unpack (expected 2, got 1)")
    end
  else Return ("image/jpeg", media_data).

End media_data.

(** ** SQLite behind aiosqlite *)

Module sqlite.

(** The largest rowid there is. *)
Definition max_rowid_value : Z := 9223372036854775807.

(** An integer parameter of a statement must fit 64 bits with a sign;
    binding another one raises an OverflowError. *)
Definition int64 (n : Z) : bool :=
  (-9223372036854775808 <=? n) && (n <=? 9223372036854775807).

Definition opt_int64 (o : option Z) : bool :=
  match o with Some n => int64 n | None => true end.

Definition overflow_error : string :=
  "Python int too large to convert to SQLite INTEGER".

(** The message of SQLITE_FULL, which an AUTOINCREMENT insert gives when
    the largest rowid has been used. *)
Definition full_error : string := "database or disk is full".

(** [async with aiosqlite.connect(path) as db: ...; await db.commit()]:
    the block runs and its statements are committed, or sqlite3 raises (the
    file does not open, a table is missing, the file is locked or the disk
    is full) and nothing is written. *)
Definition connect {L A} (statements : M L A) : M L A :=
  o <- ask sqlite_outcome ;;
  match o with
  | Returns _ => statements
  | Throws msg => raise (LibraryError msg)
  end.

End sqlite.

(** ** app/database.py: the queries and the table [app_config] *)

Module database_queries.
Import database.

(** [ORDER BY created_at DESC]: the rows are taken in rowid order and each
    goes behind the rows that are at least as recent.  SQLite promises no
    order among rows of the same second; the properties below do not depend
    on the one chosen here. *)
Fixpoint insert_desc (r : row) (sorted : list row) : list row :=
  match sorted with
  | [] => [r]
  | x :: rest =>
      if created_at r <=? created_at x
      then x :: insert_desc r rest
      else r :: x :: rest
  end.

Definition order_by_created_at_desc (rows : list row) : list row :=
  fold_left (fun sorted r => insert_desc r sorted) rows [].

(** [LIMIT ?]: the parameter is bound first, which raises an OverflowError
    when it does not fit 64 bits; a negative limit is no limit. *)
Definition sql_limit {A} (limit : Z) (l : list A) : result (list A) :=
  if sqlite.int64 limit
  then Return (if limit <? 0 then l else firstn (Z.to_nat limit) l)
  else Raise (LibraryError sqlite.overflow_error).

(** One row of the table [app_config], under its key. *)
Record config_row := { value : string; config_updated_at : Z }.

(** [SELECT * FROM tweet_logs ORDER BY created_at DESC LIMIT ?] *)
Definition select_recent (d : Database) (limit : Z) : result (list row) :=
  sql_limit limit (order_by_created_at_desc (tweet_logs d)).

Section manager.
Context {L : Type}
  (app_config : L -> gmap string config_row)
  (with_app_config : gmap string config_row -> L -> L).

(** [INSERT OR REPLACE INTO app_config (key, value, updated_at)] *)
Definition save_config (key value : string) : M L unit :=
  app <- get_loc ;;
  ts <- now ;;
  set_loc (with_app_config
             (<[key := {| value := value; config_updated_at := ts |}]>
                (app_config app)) app).

(** [row[0] if row else None] *)
Definition get_config (key : string) : M L (option string) :=
  app <- get_loc ;;
  ret (match app_config app !! key with
       | Some row => Some (value row)
       | None => None
       end).

End manager.

End database_queries.

(** ** app/database.py: the methods of [DatabaseManager] as they run *)

Module db_manager.
Import database.

Section manager.
Context {L : Type} (db : L -> Database) (with_db : Database -> L -> L).

(** [os.makedirs] of the data directory, then CREATE TABLE IF NOT EXISTS for
    both tables: a table that is not there yet is an empty table here, so
    the contents stay. *)
Definition init_database : M L unit :=
  call MakeDirs makedirs_outcome ;;
  sqlite.connect (ret tt).

Definition log_tweet (text : string) (tweet_id : option string)
    (status : string) (error_message : option string) : M L Z :=
  sqlite.connect
    (app <- get_loc ;;
     if next_rowid (db app) <=? sqlite.max_rowid_value
     then database.log_tweet db with_db text tweet_id status error_message
     else raise (LibraryError sqlite.full_error)).

Definition update_tweet_log (log_id : Z) (tweet_id status : option string)
    (retry_count : option Z) (error_message : option string) : M L unit :=
  let updates := build_updates tweet_id status retry_count error_message in
  if Py.truthy_list updates then
    sqlite.connect
      (if sqlite.opt_int64 retry_count && sqlite.int64 log_id
       then database.update_tweet_log db with_db log_id tweet_id status
              retry_count error_message
       else raise (LibraryError sqlite.overflow_error))
  else ret tt.

Definition get_recent_logs (limit : Z) : M L (list row) :=
  sqlite.connect
    (app <- get_loc ;;
     match database_queries.select_recent (db app) limit with
     | Return rows => ret rows
     | Raise e => raise e
     end).

End manager.

End db_manager.

(** ** app/main.py: POST /api/tweet over any store *)

(** The handler and its route once more, with the two store operations as
    parameters.  Over [main.log_tweet] and [main.update_tweet_log] they are
    the definitions of [main]; over the operations of [db_manager] they are
    the route with a store that can refuse. *)
Module routes.
Import models.

Section store.
Context
  (log_tweet : string -> option string -> string -> option string
               -> M main.App Z)
  (update_tweet_log : Z -> option string -> option string -> option Z
                      -> option string -> M main.App unit).

Definition process_tweet_async (tweet_data : TweetRequest.t) (log_id : Z)
  : M main.App twitter_client.tweet_result :=
  try_except
    (result <- main.get_twitter_service
                 (twitter_client.create_tweet
                    (TweetRequest.text tweet_data)
                    (TweetRequest.media tweet_data)
                    (TweetRequest.reply_to tweet_data)) ;;
     update_tweet_log log_id (Some (twitter_client.tweet_id result))
                      (Some "success") None None ;;
     ret result)
    (fun e =>
       update_tweet_log log_id None (Some "failed") None (Some (str e)) ;;
       raise e).

(** The inner [try] of the handler, with its two [except] blocks. *)
Definition create_tweet_inner (tweet_data : TweetRequest.t) (log_id : Z)
  : M main.App TweetResponse.t :=
  try_except
    (result <- process_tweet_async tweet_data log_id ;;
     TweetResponse.new true (Some (twitter_client.tweet_id result))
                       "推文发布成功"
                       (Some (twitter_client.created_at result)))
    (fun e =>
       match e with
       | TwitterClientError _ =>
           update_tweet_log log_id None (Some "failed") None (Some (str e)) ;;
           detail <- utils.format_error_response
                       "TWITTER_ERROR" "推文发布失败" (Some (str e)) ;;
           raise (HTTPException 400 detail)
       | _ =>
           update_tweet_log log_id None (Some "failed") None (Some (str e)) ;;
           detail <- utils.format_error_response
                       "INTERNAL_ERROR" "服务器内部错误" (Some (str e)) ;;
           raise (HTTPException 500 detail)
       end).

Definition create_tweet (tweet_data : TweetRequest.t)
  : M main.App TweetResponse.t :=
  try_except
    (log_id <- log_tweet (TweetRequest.text tweet_data) None "processing" None ;;
     create_tweet_inner tweet_data log_id)
    (fun e =>
       match e with
       | HTTPException _ _ => raise e
       | _ =>
           detail <- utils.format_error_response
                       "UNEXPECTED_ERROR" "意外错误" (Some (str e)) ;;
           raise (HTTPException 500 detail)
       end).

Definition post_api_tweet (text : string) (media : option (list string))
    (reply_to : option string) : M main.App main.http_response :=
  match TweetRequest.new text media reply_to with
  | Raise _ => main.respond 422 main.RequestValidationErrors
  | Return tweet_data =>
      try_except
        (r <- create_tweet tweet_data ;;
         main.respond 200 (main.TweetBody r))
        (fun e =>
           match e with
           | HTTPException status_code detail =>
               main.respond status_code (main.Detail detail)
           | TwitterClientError _ => main.twitter_error_handler e
           | _ => main.general_exception_handler e
           end)
  end.

End store.

(** The store operations of the running program. *)
Definition log_tweet := db_manager.log_tweet main.db main.with_db.
Definition update_tweet_log := db_manager.update_tweet_log main.db main.with_db.

End routes.

(** POST /api/tweet of the running program: the route over the store
    behind its connections. *)
Module served.
Definition post_api_tweet :=
  routes.post_api_tweet routes.log_tweet routes.update_tweet_log.
End served.

(** ** app/utils.py: the success body *)

Module utils_success.

(** The dictionary built by [format_success_response], for the data of
    GET /api/logs. *)
Record logs_data := { logs : list database.row; total : Z }.

Record success_body := {
  sb_success : bool;
  sb_message : string;
  sb_data : logs_data;
  sb_timestamp : Z
}.

Definition format_success_response {L} (data : logs_data) (message : string)
  : M L success_body :=
  ts <- now ;;
  ret {| sb_success := true; sb_message := message; sb_data := data;
         sb_timestamp := ts |}.

End utils_success.

(** ** app/main.py: start-up and GET /api/logs *)

Module main_lifecycle.

(** The whole process: the objects of [main.App], the table [app_config] of
    the SQLite file, and the name [twitter_service] of the module main.py
    itself.  [from .twitter_client import twitter_service] gives main.py a
    name of its own, and [global twitter_service] in [startup_event] assigns
    that name; [get_twitter_service] reads the one of twitter_client.py,
    which is [main.twitter_service] of the [App]. *)
Record Process := {
  app : main.App;
  app_config : gmap string database_queries.config_row;
  main_twitter_service : option twitter_client.TwitterService
}.

Definition with_app (a : main.App) (p : Process) : Process :=
  {| app := a; app_config := app_config p;
     main_twitter_service := main_twitter_service p |}.

Definition with_app_config (c : gmap string database_queries.config_row)
    (p : Process) : Process :=
  {| app := app p; app_config := c;
     main_twitter_service := main_twitter_service p |}.

Definition with_main_twitter_service
    (t : option twitter_client.TwitterService) (p : Process) : Process :=
  {| app := app p; app_config := app_config p; main_twitter_service := t |}.

(** Run a computation on a part of the state. *)
Definition zoom {L K A} (get : L -> K) (put : K -> L -> L) (m : M K A) : M L A :=
  fun s =>
    let '(r, s') := m {| loc := get (loc s); ext := ext s |} in
    (r, {| loc := put (loc s') (loc s); ext := ext s' |}).

(** What [main.App] does, inside the process. *)
Definition in_app {A} (m : M main.App A) : M Process A := zoom app with_app m.

(** [settings.validate_config()] *)
Definition validate_settings : M Process bool :=
  in_app (zoom main.settings
               (fun st a => {| main.settings := st; main.db := main.db a;
                               main.twitter_service := main.twitter_service a |})
               config.validate_config).

Definition db_of (p : Process) : database.Database := main.db (app p).

Definition init_database : M Process unit :=
  db_manager.init_database.

Definition get_recent_logs :=
  db_manager.get_recent_logs (L := Process) db_of.

Definition save_config :=
  database_queries.save_config (L := Process) app_config with_app_config.

Definition get_config :=
  database_queries.get_config (L := Process) app_config.

(** [TwitterService(username, email, password, cookies_file)] *)
Definition new_TwitterService (username email password cookies_file : string)
  : twitter_client.TwitterService :=
  {| twitter_client.username := username; twitter_client.email := email;
     twitter_client.password := password;
     twitter_client.cookies_file := cookies_file;
     twitter_client.client := 0%nat;
     twitter_client._authenticated := false |}.

(** [twitter_service.method(...)] inside main.py: the method runs on the
    object that main.py's own name holds. *)
Definition on_main_twitter_service {A}
    (method : M twitter_client.TwitterService A) : M Process A :=
  fun s =>
    match main_twitter_service (loc s) with
    | None =>
        (Raise (LibraryError "'NoneType' object has no attribute"), s)
    | Some service =>
        let '(r, s') := method {| loc := service; ext := ext s |} in
        (r, {| loc := with_main_twitter_service (Some (loc s')) (loc s);
               ext := ext s' |})
    end.

Definition startup_event : M Process unit :=
  try_except
    (validate_settings ;;
     init_database ;;
     p <- get_loc ;;
     set_loc (with_main_twitter_service
                (Some (new_TwitterService
                         (config.twitter_username (main.settings (app p)))
                         (config.twitter_email (main.settings (app p)))
                         (config.twitter_password (main.settings (app p)))
                         (config.cookies_file (main.settings (app p)))))
                p) ;;
     try_except
       (on_main_twitter_service twitter_client.authenticate ;; ret tt)
       (fun e => ret tt))
    (fun e => raise e).

(** GET /api/logs *)
Definition get_logs (limit : Z) : M Process utils_success.success_body :=
  try_except
    (logs <- get_recent_logs limit ;;
     utils_success.format_success_response
       {| utils_success.logs := logs;
          utils_success.total := Z.of_nat (length logs) |}
       "日志获取成功")
    (fun e =>
       detail <- utils.format_error_response
                   "DATABASE_ERROR" "日志获取失败" (Some (str e)) ;;
       raise (HTTPException 500 detail)).

(** The application as a request of the process sees it. *)
Definition app_state (s : St Process) : St main.App :=
  {| loc := app (loc s); ext := ext s |}.

(** The states of the running process.  Importing the modules leaves both
    names [twitter_service] at [None]; then the start-up runs and the
    routes answer requests, over a store that works or over one that may
    refuse. *)
Inductive running : St Process -> Prop :=
| running_imported (s : St Process) :
    main.twitter_service (app (loc s)) = None ->
    main_twitter_service (loc s) = None ->
    running s
| running_startup_event (s : St Process) r s' :
    running s -> startup_event s = (r, s') -> running s'
| running_post_api_tweet (s : St Process) text media reply_to r s' :
    running s ->
    in_app (main.post_api_tweet text media reply_to) s = (r, s') ->
    running s'
| running_served_post_api_tweet (s : St Process) text media reply_to r s' :
    running s ->
    in_app (served.post_api_tweet text media reply_to) s = (r, s') ->
    running s'
| running_health_check (s : St Process) r s' :
    running s -> in_app main.health_check s = (r, s') -> running s'
| running_get_logs (s : St Process) limit r s' :
    running s -> get_logs limit s = (r, s') -> running s'.

End main_lifecycle.

(** ** Concrete worlds, used to run the embedding *)

Module sample.
Import twitter_client.

Definition tweet : Tweet.t :=
  {| Tweet.id := "123456789"; Tweet.text := "hello";
     Tweet.created_at := "2024-01-15T10:30:00Z";
     Tweet.user_id := "user123"; Tweet.user_name := "Test User";
     Tweet.favorite_count := 0; Tweet.retweet_count := 0 |}.

(** A tweet whose [created_at] is in Twitter's own format. *)
Definition tweet_native_date : Tweet.t :=
  {| Tweet.id := "123456789"; Tweet.text := "hello";
     Tweet.created_at := "Wed Oct 10 20:19:24 +0000 2018";
     Tweet.user_id := "user123"; Tweet.user_name := "Test User";
     Tweet.favorite_count := 0; Tweet.retweet_count := 0 |}.

(** A parser that takes the ISO form of the tests and nothing else. *)
Definition parse_iso (s : string) : option Z :=
  if String.eqb s "2024-01-15T10:30:00Z" then Some 1705314600 else None.

(** An exponential wait: [multiplier * 2 ** (attempt_number - 1)], kept
    between [min] and [max]. *)
Definition wait_exp (multiplier min max attempt_number : nat) : nat :=
  Nat.max (Nat.max 0 min)
          (Nat.min (multiplier * 2 ^ (attempt_number - 1)) max).

(** Every library call succeeds; posting returns [tw]. *)
Definition lib_ok (tw : Tweet.t) : Library :=
  {| load_cookies_outcome := fun _ => Returns tt;
     get_user_by_screen_name_outcome := fun _ => Returns true;
     login_outcome := fun n => Returns (S n);
     makedirs_outcome := fun _ => Returns tt;
     sqlite_outcome := fun _ => Returns tt;
     save_cookies_outcome := fun _ => Returns tt;
     upload_media_outcome := fun _ => Returns "media123";
     create_tweet_outcome := fun _ => Returns tw;
     get_tweet_by_id_outcome := fun _ => Returns tw;
     clock := fun n => Z.of_nat n;
     parse_datetime := parse_iso;
     wait_exponential := wait_exp |}.

(** Posting a tweet always raises with [msg]; the rest succeeds. *)
Definition lib_post_fails (msg : string) : Library :=
  {| load_cookies_outcome := fun _ => Returns tt;
     get_user_by_screen_name_outcome := fun _ => Returns true;
     login_outcome := fun n => Returns (S n);
     makedirs_outcome := fun _ => Returns tt;
     sqlite_outcome := fun _ => Returns tt;
     save_cookies_outcome := fun _ => Returns tt;
     upload_media_outcome := fun _ => Returns "media123";
     create_tweet_outcome := fun _ => Throws msg;
     get_tweet_by_id_outcome := fun _ => Throws msg;
     clock := fun n => Z.of_nat n;
     parse_datetime := parse_iso;
     wait_exponential := wait_exp |}.

(** The login raises with [msg]; the rest succeeds. *)
Definition lib_login_fails (msg : string) : Library :=
  {| load_cookies_outcome := fun _ => Returns tt;
     get_user_by_screen_name_outcome := fun _ => Returns true;
     login_outcome := fun _ => Throws msg;
     makedirs_outcome := fun _ => Returns tt;
     sqlite_outcome := fun _ => Returns tt;
     save_cookies_outcome := fun _ => Returns tt;
     upload_media_outcome := fun _ => Returns "media123";
     create_tweet_outcome := fun _ => Returns tweet;
     get_tweet_by_id_outcome := fun _ => Returns tweet;
     clock := fun n => Z.of_nat n;
     parse_datetime := parse_iso;
     wait_exponential := wait_exp |}.

(** A disk whose cookie file holds session 7. *)
Definition saved_cookies : gmap string nat :=
  <["data/cookies.json" := 7%nat]> ∅.

Definition outside (fs : gmap string nat) (lib : Library) : Ext :=
  {| files := fs; library := lib; tick := 0; trace := [] |}.

Definition service (authenticated : bool) : TwitterService :=
  {| username := "test_user"; email := "test@example.com";
     password := "test_password"; cookies_file := "data/cookies.json";
     client := 0; _authenticated := authenticated |}.

Definition settings (max_retry_attempts : Z) : config.Settings :=
  {| config.twitter_username := "test_user";
     config.twitter_email := "test@example.com";
     config.twitter_password := "test_password";
     config.host := "0.0.0.0"; config.port := 8000;
     config.database_url := "sqlite+aiosqlite:///data/app.db";
     config.log_level := "INFO";
     config.max_retry_attempts := max_retry_attempts;
     config.retry_delay := 2;
     config.cookies_file := "data/cookies.json";
     config.log_file := "data/app.log" |}.

Definition empty_db : database.Database :=
  {| database.tweet_logs := []; database.sqlite_sequence := 0 |}.

(** An adapter object in a world. *)
Definition adapter (authenticated : bool) (fs : gmap string nat)
    (lib : Library) : St TwitterService :=
  {| loc := service authenticated; ext := outside fs lib |}.

(** The application with an initialised adapter and an empty log. *)
Definition app (max_retry_attempts : Z) (authenticated : bool)
    (lib : Library) : St main.App :=
  {| loc := {| main.settings := settings max_retry_attempts;
               main.db := empty_db;
               main.twitter_service := Some (service authenticated) |};
     ext := outside ∅ lib |}.

End sample.

(** More worlds: a process right after its modules were imported, and
    libraries that fail at one place. *)
Module sample_process.
Import twitter_client.

(** The session test raises with [msg]; the rest succeeds. *)
Definition lib_session_dead (msg : string) : Library :=
  {| load_cookies_outcome := fun _ => Returns tt;
     get_user_by_screen_name_outcome := fun _ => Throws msg;
     login_outcome := fun n => Returns (S n);
     makedirs_outcome := fun _ => Returns tt;
     sqlite_outcome := fun _ => Returns tt;
     save_cookies_outcome := fun _ => Returns tt;
     upload_media_outcome := fun _ => Returns "media123";
     create_tweet_outcome := fun _ => Returns sample.tweet;
     get_tweet_by_id_outcome := fun _ => Throws msg;
     clock := fun n => Z.of_nat n;
     parse_datetime := sample.parse_iso;
     wait_exponential := sample.wait_exp |}.

(** Posting raises with [post_msg] and the login with [login_msg]. *)
Definition lib_refused (post_msg login_msg : string) : Library :=
  {| load_cookies_outcome := fun _ => Returns tt;
     get_user_by_screen_name_outcome := fun _ => Returns true;
     login_outcome := fun _ => Throws login_msg;
     makedirs_outcome := fun _ => Returns tt;
     sqlite_outcome := fun _ => Returns tt;
     save_cookies_outcome := fun _ => Returns tt;
     upload_media_outcome := fun _ => Returns "media123";
     create_tweet_outcome := fun _ => Throws post_msg;
     get_tweet_by_id_outcome := fun _ => Throws post_msg;
     clock := fun n => Z.of_nat n;
     parse_datetime := sample.parse_iso;
     wait_exponential := sample.wait_exp |}.

(** The second media upload raises with [msg]; the rest succeeds. *)
Definition lib_second_upload_fails (msg : string) : Library :=
  {| load_cookies_outcome := fun _ => Returns tt;
     get_user_by_screen_name_outcome := fun _ => Returns true;
     login_outcome := fun n => Returns (S n);
     makedirs_outcome := fun _ => Returns tt;
     sqlite_outcome := fun _ => Returns tt;
     save_cookies_outcome := fun _ => Returns tt;
     upload_media_outcome :=
       fun n => if Nat.eqb n 1 then Throws msg else Returns "media123";
     create_tweet_outcome := fun _ => Returns sample.tweet;
     get_tweet_by_id_outcome := fun _ => Returns sample.tweet;
     clock := fun n => Z.of_nat n;
     parse_datetime := sample.parse_iso;
     wait_exponential := sample.wait_exp |}.

(** A log with two rows. *)
Definition two_rows : database.Database :=
  {| database.tweet_logs :=
       [{| database.id := 1; database.tweet_id := Some "111";
           database.text := "first"; database.status := "success";
           database.retry_count := 0; database.error_message := None;
           database.created_at := 10; database.updated_at := 12 |};
        {| database.id := 2; database.tweet_id := None;
           database.text := "second"; database.status := "failed";
           database.retry_count := 0;
           database.error_message := Some "timeout";
           database.created_at := 20; database.updated_at := 25 |}];
     database.sqlite_sequence := 2 |}.

(** The application over the log [d]. *)
Definition app_with (d : database.Database)
    (service : option TwitterService) (lib : Library) : St main.App :=
  {| loc := {| main.settings := sample.settings 3; main.db := d;
               main.twitter_service := service |};
     ext := sample.outside ∅ lib |}.

(** The process once its modules are imported: both names
    [twitter_service] are [None]. *)
Definition fresh (st : config.Settings) (d : database.Database)
    (lib : Library) : St main_lifecycle.Process :=
  {| loc := {| main_lifecycle.app :=
                 {| main.settings := st; main.db := d;
                    main.twitter_service := None |};
               main_lifecycle.app_config := ∅;
               main_lifecycle.main_twitter_service := None |};
     ext := sample.outside ∅ lib |}.

(** Settings without a password. *)
Definition settings_no_password : config.Settings :=
  {| config.twitter_username := "test_user";
     config.twitter_email := "test@example.com";
     config.twitter_password := "";
     config.host := "0.0.0.0"; config.port := 8000;
     config.database_url := "sqlite+aiosqlite:///data/app.db";
     config.log_level := "INFO";
     config.max_retry_attempts := 3;
     config.retry_delay := 2;
     config.cookies_file := "data/cookies.json";
     config.log_file := "data/app.log" |}.

End sample_process.

(** * Vocabulary of the properties *)

(** [moves R m]: every run of [m] takes a state to one related to it by [R]. *)
Definition moves {L A} (R : St L -> St L -> Prop) (m : M L A) : Prop :=
  forall s r s', m s = (r, s') -> R s s'.

(** The adapter object is untouched. *)
Definition same_loc {L} (s s' : St L) : Prop := loc s' = loc s.

(** The libraries are the same and the effects added to the trace all
    satisfy [P]. *)
Definition only {L} (P : event -> Prop) (s s' : St L) : Prop :=
  library (ext s') = library (ext s) /\
  exists evs, trace (ext s') = trace (ext s) ++ evs /\ Forall P evs.

(** Effects of the adapter: everything but the log store and the response. *)
Definition adapter_event (ev : event) : Prop :=
  match ev with
  | DbInsert _ _ | DbUpdate _ _ | HttpResponse _ => False
  | _ => True
  end.

(** The trace grew, and [ev] is the first effect added. *)
Definition begins {L} (ev : event) (s s' : St L) : Prop :=
  exists evs, trace (ext s') = trace (ext s) ++ ev :: evs.

(** The row [log_id] of the log store holds this text, status and error
    message. *)
Definition logged (s : St main.App) (log_id : Z) (text status : string)
    (error_message : option string) : Prop :=
  exists row,
    database.select_by_id (main.db (loc s)) log_id = Some row /\
    database.text row = text /\ database.status row = status /\
    database.error_message row = error_message.

(** The number of tweet posts among some effects. *)
Definition is_post (ev : event) : bool :=
  match ev with ClientCreateTweet _ _ _ => true | _ => false end.

Definition count_posts (evs : list event) : nat :=
  length (filter (fun ev => is_post ev) evs).

Definition not_post (ev : event) : Prop := is_post ev = false.

(** At most [n] tweet posts were added to the trace. *)
Definition posts_at_most {L} (n : nat) (s s' : St L) : Prop :=
  exists evs, trace (ext s') = trace (ext s) ++ evs /\ (count_posts evs <= n)%nat.

(** The sleeps among some effects. *)
Definition is_sleep (ev : event) : bool :=
  match ev with Sleep _ => true | _ => false end.

Definition sleeps (evs : list event) : list event :=
  filter (fun ev => is_sleep ev) evs.

Definition not_sleep (ev : event) : Prop := is_sleep ev = false.

(** Every byte of [s] is ASCII. *)
Fixpoint is_ascii (s : string) : bool :=
  match s with
  | EmptyString => true
  | String c s' => (nat_of_ascii c <? 128)%nat && is_ascii s'
  end.

(** [n] copies of [c] in a row. *)
Fixpoint copies (n : nat) (c : string) : string :=
  match n with
  | O => EmptyString
  | S n' => c +:+ copies n' c
  end.

(** What a run of an adapter method shows: its result, the effects it
    added, and afterwards the flag, the session the client holds and the
    files. *)
Definition shows {A} (m : M twitter_client.TwitterService A)
    (s : St twitter_client.TwitterService) (r : result A) (evs : list event)
    (flag : bool) (session : nat) (fs : gmap string nat) : Prop :=
  exists s',
    m s = (r, s') /\
    trace (ext s') = trace (ext s) ++ evs /\
    twitter_client._authenticated (loc s') = flag /\
    twitter_client.client (loc s') = session /\
    files (ext s') = fs.

(** The state after one answer was taken: the tick has advanced. *)
Definition after_ask {L} (s : St L) : St L :=
  {| loc := loc s;
     ext := {| files := files (ext s); library := library (ext s);
               tick := S (tick (ext s)); trace := trace (ext s) |} |}.

(** The character [c] occurs in [s]. *)
Fixpoint occurs (c : ascii) (s : string) : bool :=
  match s with
  | EmptyString => false
  | String c' s' => Ascii.eqb c' c || occurs c s'
  end.

(** A state of the log store in which [I] holds keeps it. *)
Definition keeps {L} (I : L -> Prop) (s s' : St L) : Prop :=
  I (loc s) -> I (loc s').

(** The rows are in descending order of [created_at]. *)
Definition newest_first (rows : list database.row) : Prop :=
  StronglySorted (fun a b => database.created_at b <= database.created_at a) rows.

(** The effects of the twikit client and of the file system. *)
Definition client_event (ev : event) : Prop :=
  match ev with
  | CallAuthenticate | LoadCookies _ | GetUserByScreenName _ | Login _ _ _
  | MakeDirs | SaveCookies _ | UploadMedia _ | ClientCreateTweet _ _ _
  | GetTweetById _ => True
  | _ => False
  end.

(** The text of [s] before the first [sep], all of [s] when there is none. *)
Definition before (sep : ascii) (s : string) : string :=
  hd EmptyString (PyStr.split sep s).

(** No two rows of the log have the same id. *)
Definition unique_ids (d : database.Database) : Prop :=
  NoDup (map database.id (database.tweet_logs d)).

(** Under the assumption [P] on the libraries, a run of [m] leaves the
    libraries as they are and its result satisfies [Q]. *)
Definition answers {L A} (P : Library -> Prop) (Q : result A -> Prop)
    (m : M L A) : Prop :=
  forall s r s', P (library (ext s)) -> m s = (r, s') ->
    library (ext s') = library (ext s) /\ Q r.

(** No connection to the database is ever refused. *)
Definition store_works (lib : Library) : Prop :=
  forall t, sqlite_outcome lib t = Returns tt.

(** A store operation returns, or, where the store may refuse, raises the
    error of sqlite3. *)
Definition stored (refused : Prop) (r : result unit) : Prop :=
  r = Return tt \/ refused /\ exists msg, r = Raise (LibraryError msg).

(** What the inner [try] of the handler gives: a response that reports a
    success, one of the two HTTP errors of its [except] blocks, or, where
    the store may refuse, the error of sqlite3. *)
Definition handled (refused : Prop) (r : result models.TweetResponse.t) : Prop :=
  match r with
  | Return resp => models.TweetResponse.success resp = true
  | Raise (HTTPException code detail) =>
      eb_success detail = false /\
      (code = 400 /\ error_code detail = "TWITTER_ERROR" \/
       code = 500 /\ error_code detail = "INTERNAL_ERROR")
  | Raise (LibraryError _) => refused
  | Raise _ => False
  end.

(** The kinds of answer of POST /api/tweet.  The last one is there only
    where the store may refuse. *)
Definition answer_kind (refused : Prop) (resp : main.http_response) : Prop :=
  (main.status_code resp = 422 /\
   main.body resp = main.RequestValidationErrors)
  \/
  (main.status_code resp = 200 /\
   exists body, main.body resp = main.TweetBody body /\
                models.TweetResponse.success body = true)
  \/
  (main.status_code resp = 400 /\
   exists detail, main.body resp = main.Detail detail /\
                  error_code detail = "TWITTER_ERROR" /\
                  eb_success detail = false)
  \/
  (main.status_code resp = 500 /\
   exists detail, main.body resp = main.Detail detail /\
                  error_code detail = "INTERNAL_ERROR" /\
                  eb_success detail = false)
  \/
  (refused /\ main.status_code resp = 500 /\
   exists detail, main.body resp = main.Detail detail /\
                  error_code detail = "UNEXPECTED_ERROR" /\
                  eb_success detail = false).

(** The global [twitter_service] of twitter_client.py is unset. *)
Definition no_service (a : main.App) : Prop := main.twitter_service a = None.

(** The three credentials of the settings are all there. *)
Definition credentials_present (st : config.Settings) : bool :=
  Py.truthy_str (config.twitter_username st) &&
  Py.truthy_str (config.twitter_email st) &&
  Py.truthy_str (config.twitter_password st).

(** The log is [old] with one row appended for the attempt [log_id], which
    holds the text and the time of the insert and a retry count of 0; the
    counter is at [log_id] and the settings are [st]. *)
Definition appended (old : list database.row) (log_id : Z) (text : string)
    (ts : Z) (st : config.Settings) (a : main.App) : Prop :=
  exists row,
    database.tweet_logs (main.db a) = old ++ [row] /\
    database.id row = log_id /\ database.text row = text /\
    database.created_at row = ts /\ database.retry_count row = 0 /\
    database.sqlite_sequence (main.db a) = log_id /\
    main.settings a = st.

(** * Lemmas *)

(** Unfold the operations of the monad. *)
Ltac unfold_m :=
  unfold call, now in *;
  unfold bind, ret, raise, try_except, get_loc, set_loc, get_files, set_files,
    get_library, emit, ask in *.

#[local] Instance same_loc_preorder {L} : PreOrder (@same_loc L).
Proof.
  split; unfold same_loc; [intros s; reflexivity | intros s1 s2 s3 H1 H2; congruence].
Qed.

#[local] Instance only_preorder {L} (P : event -> Prop) : PreOrder (@only L P).
Proof.
  split; unfold only.
  - intros s; split; [reflexivity|]. exists []. rewrite app_nil_r. auto.
  - intros s1 s2 s3 [Hl1 (e1 & Ht1 & Hf1)] [Hl2 (e2 & Ht2 & Hf2)].
    split; [congruence|]. exists (e1 ++ e2).
    rewrite Ht2, Ht1, app_assoc. split; [reflexivity|].
    apply Forall_app; auto.
Qed.

Section moves_rules.
Context {L : Type} (R : St L -> St L -> Prop) `{!PreOrder R}.

Lemma moves_ret {A} (a : A) : moves R (ret a).
Proof. intros s r s' H; inversion H; reflexivity. Qed.

Lemma moves_raise {A} (e : exn) : moves R (@raise L A e).
Proof. intros s r s' H; inversion H; reflexivity. Qed.

Lemma moves_get_loc : moves R (@get_loc L).
Proof. intros s r s' H; inversion H; reflexivity. Qed.

Lemma moves_get_files : moves R (@get_files L).
Proof. intros s r s' H; inversion H; reflexivity. Qed.

Lemma moves_get_library : moves R (@get_library L).
Proof. intros s r s' H; inversion H; reflexivity. Qed.

Lemma moves_bind {A B} (m : M L A) (k : A -> M L B) :
  moves R m -> (forall a, moves R (k a)) -> moves R (bind m k).
Proof.
  intros Hm Hk s r s' H. unfold bind in H.
  destruct (m s) as [[a|e] s1] eqn:E.
  - transitivity s1; [exact (Hm _ _ _ E) | exact (Hk _ _ _ _ H)].
  - inversion H; subst. exact (Hm _ _ _ E).
Qed.

Lemma moves_try_except {A} (body : M L A) (handler : exn -> M L A) :
  moves R body -> (forall e, moves R (handler e)) ->
  moves R (try_except body handler).
Proof.
  intros Hm Hk s r s' H. unfold try_except in H.
  destruct (body s) as [[a|e] s1] eqn:E.
  - inversion H; subst. exact (Hm _ _ _ E).
  - transitivity s1; [exact (Hm _ _ _ E) | exact (Hk _ _ _ _ H)].
Qed.
End moves_rules.

Lemma same_loc_emit {L} (ev : event) : moves same_loc (@emit L ev).
Proof. intros s r s' H; inversion H; reflexivity. Qed.

Lemma same_loc_ask {L A} (f : Library -> nat -> A) : moves same_loc (@ask L A f).
Proof. intros s r s' H; inversion H; reflexivity. Qed.

Lemma same_loc_call {L A} (ev : event) (f : Library -> nat -> outcome A) :
  moves same_loc (@call L A ev f).
Proof.
  unfold call. apply moves_bind; [typeclasses eauto | apply same_loc_emit |].
  intros _. apply moves_bind; [typeclasses eauto | apply same_loc_ask |].
  intros [a|m]; [apply moves_ret | apply moves_raise]; typeclasses eauto.
Qed.

Lemma only_emit {L} (P : event -> Prop) (ev : event) :
  P ev -> moves (only P) (@emit L ev).
Proof.
  intros HP s r s' H; inversion H; subst; split; simpl; [reflexivity|].
  exists [ev]; auto.
Qed.

Lemma only_ask {L A} (P : event -> Prop) (f : Library -> nat -> A) :
  moves (only P) (@ask L A f).
Proof.
  intros s r s' H; inversion H; subst; split; simpl; [reflexivity|].
  exists []; rewrite app_nil_r; auto.
Qed.

Lemma only_set_loc {L} (P : event -> Prop) (l : L) : moves (only P) (set_loc l).
Proof.
  intros s r s' H; inversion H; subst; split; simpl; [reflexivity|].
  exists []; rewrite app_nil_r; auto.
Qed.

Lemma only_set_files {L} (P : event -> Prop) (fs : gmap string nat) :
  moves (only P) (@set_files L fs).
Proof.
  intros s r s' H; inversion H; subst; split; simpl; [reflexivity|].
  exists []; rewrite app_nil_r; auto.
Qed.

Lemma only_call {L A} (P : event -> Prop) (ev : event)
    (f : Library -> nat -> outcome A) :
  P ev -> moves (only P) (@call L A ev f).
Proof.
  intros HP. unfold call.
  apply moves_bind; [typeclasses eauto | apply only_emit; exact HP |].
  intros _. apply moves_bind; [typeclasses eauto | apply only_ask |].
  intros [a|m]; [apply moves_ret | apply moves_raise]; typeclasses eauto.
Qed.

(** One step of a proof that a computation stays within a relation. *)
Ltac moves_step :=
  lazymatch goal with
  | |- PreOrder _ => typeclasses eauto
  | |- adapter_event _ => exact I
  | |- not_post _ => reflexivity
  | |- moves _ (bind _ _) => apply moves_bind; [| | intros ?]
  | |- moves _ (try_except _ _) => apply moves_try_except; [| | intros ?]
  | |- moves _ (ret _) => apply moves_ret
  | |- moves _ (raise _) => apply moves_raise
  | |- moves _ get_loc => apply moves_get_loc
  | |- moves _ get_files => apply moves_get_files
  | |- moves _ get_library => apply moves_get_library
  | |- moves same_loc (emit _) => apply same_loc_emit
  | |- moves same_loc (ask _) => apply same_loc_ask
  | |- moves same_loc (call _ _) => apply same_loc_call
  | |- moves (only _) (emit _) => apply only_emit
  | |- moves (only _) (ask _) => apply only_ask
  | |- moves (only _) (call _ _) => apply only_call
  | |- moves (only _) (set_loc _) => apply only_set_loc
  | |- moves (only _) (set_files _) => apply only_set_files
  | |- moves _ (if ?b then _ else _) => destruct b
  | |- moves _ (match ?x with _ => _ end) => destruct x
  end.

(** Case analysis on the next library answer a run [H] depends on. *)
Ltac next_answer H :=
  simpl in H;
  match type of H with
  | context [load_cookies_outcome ?l ?t] =>
      let E := fresh "Hload" in destruct (load_cookies_outcome l t) as [[]|?] eqn:E
  | context [get_user_by_screen_name_outcome ?l ?t] =>
      let E := fresh "Htest" in
      destruct (get_user_by_screen_name_outcome l t) as [[|]|?] eqn:E
  | context [login_outcome ?l ?t] =>
      let E := fresh "Hlogin" in destruct (login_outcome l t) as [?|?] eqn:E
  | context [makedirs_outcome ?l ?t] =>
      let E := fresh "Hdirs" in destruct (makedirs_outcome l t) as [[]|?] eqn:E
  | context [save_cookies_outcome ?l ?t] =>
      let E := fresh "Hsave" in destruct (save_cookies_outcome l t) as [[]|?] eqn:E
  end;
  simpl in H.

Lemma begins_then_only {L} (P : event -> Prop) (ev : event) (s s1 s2 : St L) :
  begins ev s s1 -> only P s1 s2 -> begins ev s s2.
Proof.
  intros [evs H1] [_ (evs' & H2 & _)]. exists (evs ++ evs').
  rewrite H2, H1, <- app_assoc. reflexivity.
Qed.

Section retry_properties.
Context {L A : Type} (wait : Library -> nat -> nat) (fn : M L A).

(** What [retry] raises is what its last attempt raised, in the state that
    attempt left. *)
Lemma retry_from_raises (n k : nat) (s s' : St L) (e : exn) :
  tenacity.retry_from n k wait fn s = (Raise e, s') ->
  exists s0, fn s0 = (Raise e, s').
Proof.
  revert k s. induction n as [|n IH]; intros k s H; simpl in H;
    unfold try_except in H; destruct (fn s) as [[a|e0] s1] eqn:E;
    try discriminate.
  - unfold raise in H. inversion H; subst. eauto.
  - unfold_m. simpl in H. apply IH in H. exact H.
Qed.

(** What [retry] returns is what one attempt returned. *)
Lemma retry_from_returns (n k : nat) (s s' : St L) (a : A) :
  tenacity.retry_from n k wait fn s = (Return a, s') ->
  exists s0, fn s0 = (Return a, s').
Proof.
  revert k s. induction n as [|n IH]; intros k s H; simpl in H;
    unfold try_except in H; destruct (fn s) as [[a0|e0] s1] eqn:E.
  - inversion H; subst. eauto.
  - discriminate.
  - inversion H; subst. eauto.
  - unfold_m. simpl in H. apply IH in H. exact H.
Qed.

Lemma retry_from_only (P : event -> Prop) (n k : nat) :
  (forall d, P (Sleep d)) -> moves (only P) fn ->
  moves (only P) (tenacity.retry_from n k wait fn).
Proof.
  intros Hsleep Hfn. revert k. induction n as [|n IH]; intros k; simpl.
  - repeat moves_step; assumption.
  - apply moves_try_except; [typeclasses eauto | assumption |].
    intros e. repeat moves_step; auto.
Qed.

(** The first effect of the first attempt is the first effect of [retry]. *)
Lemma retry_from_begins (P : event -> Prop) (ev : event) (n k : nat)
    (s : St L) (r : result A) (s' : St L) :
  (forall d, P (Sleep d)) -> moves (only P) fn ->
  (forall r1 s1, fn s = (r1, s1) -> begins ev s s1) ->
  tenacity.retry_from n k wait fn s = (r, s') -> begins ev s s'.
Proof.
  intros Hsleep Hfn Hfirst H.
  destruct (fn s) as [r1 s1] eqn:E. specialize (Hfirst _ _ eq_refl).
  destruct n as [|n]; simpl in H; unfold try_except in H; rewrite E in H;
    destruct r1 as [a|e0]; try (inversion H; subst; exact Hfirst).
  eapply begins_then_only; [exact Hfirst|].
  assert (Hrest : moves (only P)
            (lib <- get_library ;;
             emit (Sleep (wait lib k)) ;;
             tenacity.retry_from n (S k) wait fn)).
  { repeat moves_step; auto. apply retry_from_only; auto. }
  exact (Hrest _ _ _ H).
Qed.
End retry_properties.

Section adapter_frames.
Import twitter_client.

Ltac unfold_authenticate :=
  unfold authenticate, try_saved_cookies, full_login, _test_authentication,
    client_save_cookies, os_makedirs, client_login, client_load_cookies,
    os_path_exists, set_client, set_authenticated in *.

Lemma authenticate_only_adapter : moves (only adapter_event) authenticate.
Proof. unfold_authenticate. repeat moves_step. Qed.

Lemma test_authentication_only_adapter :
  moves (only adapter_event) _test_authentication.
Proof. unfold _test_authentication. repeat moves_step. Qed.

Lemma ensure_authenticated_only_adapter :
  moves (only adapter_event) ensure_authenticated.
Proof.
  unfold ensure_authenticated. repeat moves_step.
  apply authenticate_only_adapter.
Qed.

Lemma upload_media_from_only_adapter (l : list string) :
  forall i ids, moves (only adapter_event) (upload_media_from i l ids).
Proof.
  induction l as [|x l IH]; intros i ids; simpl; repeat moves_step. apply IH.
Qed.

Lemma upload_media_from_same_loc (l : list string) :
  forall i ids, moves same_loc (upload_media_from i l ids).
Proof.
  induction l as [|x l IH]; intros i ids; simpl; repeat moves_step. apply IH.
Qed.

Lemma create_tweet_try_only_adapter text media reply_to :
  moves (only adapter_event) (create_tweet_try text media reply_to).
Proof.
  unfold create_tweet_try, _upload_media. repeat moves_step.
  apply upload_media_from_only_adapter.
Qed.

Lemma create_tweet_try_same_loc text media reply_to :
  moves same_loc (create_tweet_try text media reply_to).
Proof.
  unfold create_tweet_try, _upload_media. repeat moves_step.
  apply upload_media_from_same_loc.
Qed.

Lemma create_tweet_attempt_only_adapter text media reply_to :
  moves (only adapter_event) (create_tweet_attempt text media reply_to).
Proof.
  unfold create_tweet_attempt, create_tweet_except, set_authenticated.
  repeat moves_step.
  - apply ensure_authenticated_only_adapter.
  - apply create_tweet_try_only_adapter.
Qed.

Lemma create_tweet_only_adapter text media reply_to :
  moves (only adapter_event) (create_tweet text media reply_to).
Proof.
  unfold create_tweet, tenacity.retry.
  apply retry_from_only; [intros d; exact I|].
  apply create_tweet_attempt_only_adapter.
Qed.

Lemma health_check_only_adapter : moves (only adapter_event) health_check.
Proof.
  unfold health_check. repeat moves_step.
  - apply ensure_authenticated_only_adapter.
  - apply test_authentication_only_adapter.
Qed.

Lemma get_tweet_info_only_adapter tweet_id :
  moves (only adapter_event) (get_tweet_info tweet_id).
Proof.
  unfold get_tweet_info. repeat moves_step.
  apply ensure_authenticated_only_adapter.
Qed.

(** [authenticate] returns [True] with the flag set, or raises a
    TwitterClientError with the flag as it was; its first effect is the
    call itself. *)
Lemma authenticate_outcome (s : St TwitterService) (r : result bool)
    (s' : St TwitterService) :
  authenticate s = (r, s') ->
  begins CallAuthenticate s s' /\
  (r = Return true /\ _authenticated (loc s') = true \/
   (exists msg, r = Raise (TwitterClientError ("认证失败: " +:+ msg))) /\
   _authenticated (loc s') = _authenticated (loc s)).
Proof.
  destruct s as [self x]; destruct self as [u e p path jar0 flag];
    destruct x as [fs lib t tr].
  unfold_authenticate; unfold_m; unfold begins; simpl.
  intros H.
  destruct (fs !! path) as [jar|] eqn:Hfile; simpl in H;
    repeat first [rewrite Hfile in H; simpl in H | next_answer H];
    inversion H; subst; clear H; simpl;
    repeat rewrite <- app_assoc; simpl;
    (split; [eexists; reflexivity|]);
    first [left; split; reflexivity | right; split; [eauto | reflexivity]].
Qed.

Lemma ensure_authenticated_outcome (s : St TwitterService) (r : result unit)
    (s' : St TwitterService) :
  ensure_authenticated s = (r, s') ->
  r = Return tt /\ _authenticated (loc s') = true \/
  (exists msg, r = Raise (TwitterClientError msg)) /\
  _authenticated (loc s) = false /\ _authenticated (loc s') = false.
Proof.
  unfold ensure_authenticated, bind, get_loc, ret. intros H.
  destruct (_authenticated (loc s)) eqn:Hflag; simpl in H.
  - inversion H; subst. left; auto.
  - destruct (authenticate s) as [[b|e] s1] eqn:E;
      destruct (authenticate_outcome _ _ _ E) as [_ [[Hr Hf]|[[m Hr] Hf]]];
      try discriminate; inversion H; subst.
    + left; auto.
    + inversion Hr; subst. right. split; [eauto|].
      split; [reflexivity|]. rewrite Hf. exact Hflag.
Qed.

Lemma ensure_authenticated_begins (s : St TwitterService) (r : result unit)
    (s' : St TwitterService) :
  _authenticated (loc s) = false ->
  ensure_authenticated s = (r, s') -> begins CallAuthenticate s s'.
Proof.
  unfold ensure_authenticated, bind, get_loc, ret. intros Hflag H.
  rewrite Hflag in H; simpl in H.
  destruct (authenticate s) as [[b|e] s1] eqn:E;
    destruct (authenticate_outcome _ _ _ E) as [Hb _];
    inversion H; subst; exact Hb.
Qed.

(** The Chinese prefix of the adapter's messages holds no keyword. *)
Lemma is_auth_error_prefixed (msg : string) :
  is_auth_error ("发布推文失败: " +:+ msg) = is_auth_error msg.
Proof. reflexivity. Qed.

End adapter_frames.

Lemma bind_begins {L A B} (P : event -> Prop) (ev : event) (m : M L A)
    (k : A -> M L B) (s : St L) (r : result B) (s' : St L) :
  (forall r1 s1, m s = (r1, s1) -> begins ev s s1) ->
  (forall a, moves (only P) (k a)) ->
  bind m k s = (r, s') -> begins ev s s'.
Proof.
  intros Hm Hk H. unfold bind in H.
  destruct (m s) as [r1 s1] eqn:E. specialize (Hm _ _ eq_refl).
  destruct r1 as [a|e].
  - eapply begins_then_only; [exact Hm | exact (Hk _ _ _ _ H)].
  - inversion H; subst. exact Hm.
Qed.

Lemma try_except_begins {L A} (P : event -> Prop) (ev : event) (body : M L A)
    (handler : exn -> M L A) (s : St L) (r : result A) (s' : St L) :
  (forall r1 s1, body s = (r1, s1) -> begins ev s s1) ->
  (forall e, moves (only P) (handler e)) ->
  try_except body handler s = (r, s') -> begins ev s s'.
Proof.
  intros Hm Hk H. unfold try_except in H.
  destruct (body s) as [r1 s1] eqn:E. specialize (Hm _ _ eq_refl).
  destruct r1 as [a|e].
  - inversion H; subst. exact Hm.
  - eapply begins_then_only; [exact Hm | exact (Hk _ _ _ _ H)].
Qed.

Section create_tweet_properties.
Import twitter_client.

(** The authentication step of an attempt that starts authenticated does
    nothing. *)
Lemma ensure_authenticated_skips (s : St TwitterService) :
  _authenticated (loc s) = true -> ensure_authenticated s = (Return tt, s).
Proof.
  intros Hflag. unfold ensure_authenticated, bind, get_loc, ret.
  rewrite Hflag. reflexivity.
Qed.

(** One failed attempt: the exception is a TwitterClientError; an
    authentication keyword in its message means the flag is now false; no
    keyword means the failure changed nothing: when the post failed the
    adapter object is as the authentication step left it, and when
    [authenticate] failed the flag is as it was. *)
Lemma create_tweet_attempt_raises text media reply_to
    (s : St TwitterService) (e : exn) (s' : St TwitterService) :
  create_tweet_attempt text media reply_to s = (Raise e, s') ->
  (exists msg, e = TwitterClientError msg) /\
  (is_auth_error (str e) = true -> _authenticated (loc s') = false) /\
  (is_auth_error (str e) = false ->
     match ensure_authenticated s with
     | (Return _, s1) => loc s' = loc s1
     | (Raise _, _) => _authenticated (loc s') = _authenticated (loc s)
     end).
Proof.
  unfold create_tweet_attempt. intros H. unfold bind in H.
  destruct (ensure_authenticated s) as [[[]|e1] s1] eqn:E; simpl.
  - unfold try_except in H.
    destruct (create_tweet_try text media reply_to s1) as [[res|e0] s2] eqn:T;
      [discriminate|].
    pose proof (create_tweet_try_same_loc _ _ _ _ _ _ T) as Hloc.
    unfold same_loc in Hloc.
    unfold create_tweet_except, set_authenticated in H. unfold_m.
    destruct (is_auth_error (str e0)) eqn:K; simpl in H;
      inversion H; subst; clear H; simpl; rewrite is_auth_error_prefixed;
      (split; [eauto|]); split; intros K'; try congruence; reflexivity.
  - inversion H; subst; clear H.
    destruct (ensure_authenticated_outcome _ _ _ E)
      as [[Hr _]|[[m Hr] [Hf0 Hf]]]; [discriminate|].
    inversion Hr; subst. split; [eauto|]. split; intros _; congruence.
Qed.

Lemma create_tweet_attempt_begins text media reply_to
    (s : St TwitterService) r s' :
  _authenticated (loc s) = false ->
  create_tweet_attempt text media reply_to s = (r, s') ->
  begins CallAuthenticate s s'.
Proof.
  intros Hflag. unfold create_tweet_attempt.
  apply (bind_begins adapter_event).
  - intros r1 s1. apply ensure_authenticated_begins. exact Hflag.
  - intros _. unfold create_tweet_except, set_authenticated.
    repeat moves_step. apply create_tweet_try_only_adapter.
Qed.

Lemma create_tweet_begins text media reply_to (s : St TwitterService) r s' :
  _authenticated (loc s) = false ->
  create_tweet text media reply_to s = (r, s') ->
  begins CallAuthenticate s s'.
Proof.
  intros Hflag. unfold create_tweet, tenacity.retry.
  apply (retry_from_begins _ _ adapter_event).
  - intros d; exact I.
  - apply create_tweet_attempt_only_adapter.
  - intros r1 s1. apply create_tweet_attempt_begins. exact Hflag.
Qed.

Lemma health_check_begins (s : St TwitterService) r s' :
  _authenticated (loc s) = false ->
  health_check s = (r, s') -> begins CallAuthenticate s s'.
Proof.
  intros Hflag. unfold health_check.
  apply (try_except_begins adapter_event).
  - intros r1 s1. apply (bind_begins adapter_event).
    + intros r2 s2. apply ensure_authenticated_begins. exact Hflag.
    + intros _. repeat moves_step. apply test_authentication_only_adapter.
  - intros e. repeat moves_step.
Qed.

Lemma get_tweet_info_begins tweet_id (s : St TwitterService) r s' :
  _authenticated (loc s) = false ->
  get_tweet_info tweet_id s = (r, s') -> begins CallAuthenticate s s'.
Proof.
  intros Hflag. unfold get_tweet_info.
  apply (bind_begins adapter_event).
  - intros r1 s1. apply ensure_authenticated_begins. exact Hflag.
  - intros _. repeat moves_step.
Qed.

(** One failed attempt, by where it failed.  In the post (or an upload):
    the adapter had passed the authentication step, and the flag is reset
    exactly when the message holds a keyword.  In [authenticate]: the flag
    was unset and stays unset. *)
Lemma create_tweet_attempt_flag text media reply_to
    (s : St TwitterService) (e : exn) (s' : St TwitterService) :
  create_tweet_attempt text media reply_to s = (Raise e, s') ->
  (exists m, e = TwitterClientError ("发布推文失败: " +:+ m) /\
             _authenticated (loc s') = negb (is_auth_error m)) \/
  (exists m, e = TwitterClientError ("认证失败: " +:+ m) /\
             _authenticated (loc s) = false /\
             _authenticated (loc s') = false).
Proof.
  unfold create_tweet_attempt. intros H. unfold bind in H.
  destruct (ensure_authenticated s) as [[[]|e1] s1] eqn:E; simpl.
  - unfold try_except in H.
    destruct (create_tweet_try text media reply_to s1) as [[res|e0] s2] eqn:T;
      [discriminate|].
    pose proof (create_tweet_try_same_loc _ _ _ _ _ _ T) as Hloc.
    unfold same_loc in Hloc.
    destruct (ensure_authenticated_outcome _ _ _ E)
      as [[_ Hflag]|[[m Hr] _]]; [|discriminate].
    left. exists (str e0).
    unfold create_tweet_except, set_authenticated in H. unfold_m.
    destruct (is_auth_error (str e0)) eqn:K; simpl in H;
      inversion H; subst; clear H; simpl; [auto|].
    rewrite Hloc. auto.
  - inversion H; subst; clear H. right.
    unfold ensure_authenticated, bind, get_loc, ret in E.
    destruct (_authenticated (loc s)) eqn:Hflag; simpl in E; [discriminate|].
    destruct (authenticate s) as [[b|e2] s2] eqn:A; [discriminate|].
    inversion E; subst; clear E.
    destruct (authenticate_outcome _ _ _ A) as [_ [[Hr _]|[[m Hr] Hf]]];
      [discriminate|].
    inversion Hr; subst. exists m. rewrite Hf. auto.
Qed.

(** C4, as the code has it.  When [create_tweet] fails with a message that
    holds 'auth', 'login', 'unauthorized' or 'forbidden' (in any case), the
    cached flag is false afterwards, so the next [create_tweet],
    [health_check] or [get_tweet_info] starts by calling [authenticate].
    When it fails with another message, the handler of the failure does not
    reset the flag, and the flag after the call is decided by where the
    last attempt failed: true when the post (or an upload) failed, for the
    adapter had authenticated; false when [authenticate] itself failed.
    That can differ from the flag before the call. *)
Theorem create_tweet_failure_and_the_flag
    text media reply_to (s : St TwitterService) (e : exn)
    (s' : St TwitterService) :
  create_tweet text media reply_to s = (Raise e, s') ->
  (is_auth_error (str e) = true ->
     _authenticated (loc s') = false /\
     (forall text2 media2 reply2 r s2,
        create_tweet text2 media2 reply2 s' = (r, s2) ->
        begins CallAuthenticate s' s2) /\
     (forall r s2, health_check s' = (r, s2) -> begins CallAuthenticate s' s2) /\
     (forall tweet_id r s2,
        get_tweet_info tweet_id s' = (r, s2) -> begins CallAuthenticate s' s2)) /\
  (is_auth_error (str e) = false ->
     (exists m, e = TwitterClientError ("发布推文失败: " +:+ m)) /\
     _authenticated (loc s') = true
     \/
     (exists m, e = TwitterClientError ("认证失败: " +:+ m)) /\
     _authenticated (loc s') = false).
Proof.
  unfold create_tweet at 1, tenacity.retry. intros H.
  apply retry_from_raises in H. destruct H as [s0 H].
  destruct (create_tweet_attempt_raises _ _ _ _ _ _ H) as (_ & Hauth & _).
  split.
  - intros K. specialize (Hauth K). split; [exact Hauth|].
    split; [|split]; intros.
    + eapply create_tweet_begins; eauto.
    + eapply health_check_begins; eauto.
    + eapply get_tweet_info_begins; eauto.
  - intros K.
    destruct (create_tweet_attempt_flag _ _ _ _ _ _ H)
      as [(m & -> & Hflag)|(m & -> & _ & Hflag)].
    + left. split; [eauto|]. simpl in K.
      rewrite is_auth_error_prefixed in K. rewrite K in Hflag. exact Hflag.
    + right. split; [eauto | exact Hflag].
Qed.

End create_tweet_properties.

Section database_lemmas.
Import database.

Lemma max_rowid_ge (rows : list row) (r : row) :
  In r rows -> id r <= max_rowid rows.
Proof.
  induction rows as [|x rows IH]; simpl; [tauto|].
  intros [->|Hin]; [lia|]. specialize (IH Hin). lia.
Qed.

Lemma find_fresh (rows : list row) (k : Z) :
  max_rowid rows < k -> find (fun r => Z.eqb (id r) k) rows = None.
Proof.
  intros Hk. destruct (find _ rows) as [r|] eqn:F; [|reflexivity].
  apply find_some in F. destruct F as [Hin Heq].
  apply Z.eqb_eq in Heq. apply max_rowid_ge in Hin. lia.
Qed.

Lemma find_app_fresh (rows : list row) (x : row) :
  max_rowid rows < id x ->
  find (fun r => Z.eqb (id r) (id x)) (rows ++ [x]) = Some x.
Proof.
  intros Hk. pose proof (find_fresh rows (id x) Hk) as Hnone.
  induction rows as [|y rows IH]; simpl in *.
  - rewrite Z.eqb_refl. reflexivity.
  - destruct (id y =? id x) eqn:E; [discriminate|].
    apply IH; [lia | exact Hnone].
Qed.

(** The row a fresh INSERT creates is the row its id selects. *)
Lemma select_inserted (d : Database) tweet_id text status error_message ts :
  select_by_id (snd (sql_insert d tweet_id text status error_message ts))
               (fst (sql_insert d tweet_id text status error_message ts)) =
  Some {| id := next_rowid d; database.tweet_id := tweet_id;
          database.text := text; database.status := status;
          retry_count := 0; database.error_message := error_message;
          created_at := ts; updated_at := ts |}.
Proof.
  unfold select_by_id, sql_insert; simpl.
  apply (find_app_fresh (tweet_logs d)
           {| id := next_rowid d; database.tweet_id := tweet_id;
              database.text := text; database.status := status;
              retry_count := 0; database.error_message := error_message;
              created_at := ts; updated_at := ts |}).
  simpl. unfold next_rowid. lia.
Qed.

Lemma assign_id ts (r : row) (a : assignment) : id (assign ts r a) = id r.
Proof. destruct a; reflexivity. Qed.

Lemma assign_text ts (r : row) (a : assignment) : text (assign ts r a) = text r.
Proof. destruct a; reflexivity. Qed.

Lemma fold_assign_id ts (updates : list assignment) :
  forall r, id (fold_left (assign ts) updates r) = id r.
Proof.
  induction updates as [|a l IH]; intros r; simpl; [reflexivity|].
  rewrite IH. apply assign_id.
Qed.

Lemma fold_assign_text ts (updates : list assignment) :
  forall r, text (fold_left (assign ts) updates r) = text r.
Proof.
  induction updates as [|a l IH]; intros r; simpl; [reflexivity|].
  rewrite IH. apply assign_text.
Qed.

(** An UPDATE keeps the keys, so selecting after it is updating the
    selected row. *)
Lemma select_updated (d : Database) (updates : list assignment)
    (log_id ts : Z) :
  select_by_id (sql_update d updates log_id ts) log_id =
  option_map (fold_left (assign ts) updates) (select_by_id d log_id).
Proof.
  unfold select_by_id, sql_update; simpl.
  induction (tweet_logs d) as [|r rows IH]; simpl; [reflexivity|].
  destruct (id r =? log_id) eqn:E.
  - rewrite fold_assign_id, E. reflexivity.
  - rewrite E. exact IH.
Qed.

(** The row after an update that sets a status: the status and the error
    message are the ones passed, the text is the one it had. *)
Lemma updated_row ts (r : row) (new_tweet_id : option string)
    (new_status : string) (new_error_message : option string) :
  let r' := fold_left (assign ts)
              (build_updates new_tweet_id (Some new_status) None
                             new_error_message) r in
  status r' = new_status /\ text r' = text r /\ id r' = id r /\
  error_message r' = match new_error_message with
                     | Some m => Some m
                     | None => error_message r
                     end.
Proof.
  destruct new_tweet_id, new_error_message; simpl; auto.
Qed.

End database_lemmas.

Section main_lemmas.
Import models.

(** The adapter call leaves the settings and the log store alone. *)
Lemma get_twitter_service_frame {A} (m : M twitter_client.TwitterService A)
    (s : St main.App) r s' :
  main.get_twitter_service m s = (r, s') ->
  main.db (loc s') = main.db (loc s) /\
  main.settings (loc s') = main.settings (loc s).
Proof.
  unfold main.get_twitter_service. intros H.
  destruct (main.twitter_service (loc s)) as [svc|].
  - destruct (m _) as [r1 a']. inversion H; subst. simpl. auto.
  - inversion H; subst. auto.
Qed.

Lemma get_twitter_service_only {A} (P : event -> Prop)
    (m : M twitter_client.TwitterService A) :
  moves (only P) m -> moves (only P) (main.get_twitter_service m).
Proof.
  intros Hm s r s' H. unfold main.get_twitter_service in H.
  destruct (main.twitter_service (loc s)) as [svc|].
  - destruct (m _) as [r1 a'] eqn:E. inversion H; subst.
    exact (Hm _ _ _ E).
  - inversion H; subst. reflexivity.
Qed.

(** The adapter raises nothing but TwitterClientError; the lookup of the
    global raises a RuntimeError when the adapter was never set. *)
Lemma adapter_call_raises text media reply_to (s : St main.App) e s' :
  main.get_twitter_service (twitter_client.create_tweet text media reply_to) s
    = (Raise e, s') ->
  match main.twitter_service (loc s) with
  | Some _ => exists msg, e = TwitterClientError msg
  | None => e = RuntimeError "Twitter服务未初始化"
  end.
Proof.
  unfold main.get_twitter_service. intros H.
  destruct (main.twitter_service (loc s)) as [svc|].
  - destruct (twitter_client.create_tweet _ _ _ _) as [r1 a'] eqn:E.
    inversion H; subst.
    unfold twitter_client.create_tweet, tenacity.retry in E.
    apply retry_from_raises in E. destruct E as [s0 E].
    apply create_tweet_attempt_raises in E. tauto.
  - inversion H; subst. reflexivity.
Qed.

(** One run of [update_tweet_log]. *)
Lemma update_tweet_log_run (s : St main.App) log_id new_tweet_id new_status
    new_error_message :
  exists s',
    main.update_tweet_log log_id new_tweet_id (Some new_status) None
      new_error_message s = (Return tt, s') /\
    trace (ext s') = trace (ext s) ++ [DbUpdate log_id (Some new_status)] /\
    library (ext s') = library (ext s) /\
    main.twitter_service (loc s') = main.twitter_service (loc s) /\
    main.settings (loc s') = main.settings (loc s) /\
    forall r, database.select_by_id (main.db (loc s)) log_id = Some r ->
      exists r',
        database.select_by_id (main.db (loc s')) log_id = Some r' /\
        database.status r' = new_status /\
        database.text r' = database.text r /\
        database.error_message r' =
          match new_error_message with
          | Some m => Some m
          | None => database.error_message r
          end.
Proof.
  unfold main.update_tweet_log, database.update_tweet_log.
  replace (Py.truthy_list (database.build_updates new_tweet_id
             (Some new_status) None new_error_message)) with true
    by (destruct new_tweet_id, new_error_message; reflexivity).
  unfold_m; simpl. eexists; split; [reflexivity|]. simpl.
  repeat (split; [reflexivity|]).
  intros r Hr. rewrite select_updated, Hr. simpl.
  eexists; split; [reflexivity|].
  destruct (updated_row (clock (library (ext s)) (tick (ext s))) r
              new_tweet_id new_status new_error_message) as (H1 & H2 & _ & H4).
  auto.
Qed.

(** One run of [log_tweet]. *)
Lemma log_tweet_run (s : St main.App) text status :
  exists log_id s',
    main.log_tweet text None status None s = (Return log_id, s') /\
    trace (ext s') = trace (ext s) ++ [DbInsert log_id status] /\
    library (ext s') = library (ext s) /\
    main.twitter_service (loc s') = main.twitter_service (loc s) /\
    main.settings (loc s') = main.settings (loc s) /\
    exists r,
      database.select_by_id (main.db (loc s')) log_id = Some r /\
      database.status r = status /\ database.text r = text /\
      database.error_message r = None.
Proof.
  unfold main.log_tweet, database.log_tweet. unfold_m; simpl.
  eexists; eexists; split; [reflexivity|]. simpl.
  repeat (split; [reflexivity|]).
  eexists; split.
  - apply (select_inserted (main.db (loc s)) None text status None).
  - simpl. auto.
Qed.

End main_lemmas.

Section handler_run.
Import models.

Lemma format_error_response_run {L} (s : St L) code message dets :
  exists s' d,
    utils.format_error_response code message dets s = (Return d, s') /\
    error_code d = code /\ details d = dets /\
    eb_success d = false /\
    loc s' = loc s /\ trace (ext s') = trace (ext s) /\
    library (ext s') = library (ext s).
Proof.
  unfold utils.format_error_response. unfold_m. simpl.
  eexists; eexists; split; [reflexivity|]. simpl. auto 10.
Qed.

(** Every run of the handler of POST /api/tweet, by what the adapter call
    does. *)
Lemma create_tweet_run (tweet_data : TweetRequest.t) (s : St main.App) :
  exists log_id s1,
    main.log_tweet (TweetRequest.text tweet_data) None "processing" None s
      = (Return log_id, s1) /\
    trace (ext s1) = trace (ext s) ++ [DbInsert log_id "processing"] /\
    forall ra s2,
      main.get_twitter_service
        (twitter_client.create_tweet (TweetRequest.text tweet_data)
           (TweetRequest.media tweet_data) (TweetRequest.reply_to tweet_data))
        s1 = (ra, s2) ->
      exists r s',
        main.create_tweet tweet_data s = (r, s') /\
        match ra with
        | Return result =>
            match parse_datetime (library (ext s))
                    (twitter_client.created_at result) with
            | Some d =>
                r = Return {| TweetResponse.success := true;
                              TweetResponse.tweet_id :=
                                Some (twitter_client.tweet_id result);
                              TweetResponse.message := "推文发布成功";
                              TweetResponse.created_at := Some d |} /\
                trace (ext s') =
                  trace (ext s2) ++ [DbUpdate log_id (Some "success")] /\
                logged s' log_id (TweetRequest.text tweet_data) "success" None
            | None =>
                (exists detail,
                   r = Raise (HTTPException 500 detail) /\
                   error_code detail = "INTERNAL_ERROR" /\
                   details detail = Some TweetResponse.datetime_error /\
                   eb_success detail = false) /\
                trace (ext s') =
                  trace (ext s2) ++ [DbUpdate log_id (Some "success");
                                     DbUpdate log_id (Some "failed")] /\
                logged s' log_id (TweetRequest.text tweet_data) "failed"
                       (Some TweetResponse.datetime_error)
            end
        | Raise e =>
            (exists detail,
               r = Raise (HTTPException
                            (match e with
                             | TwitterClientError _ => 400
                             | _ => 500
                             end) detail) /\
               error_code detail =
                 match e with
                 | TwitterClientError _ => "TWITTER_ERROR"
                 | _ => "INTERNAL_ERROR"
                 end /\
               details detail = Some (str e) /\
               eb_success detail = false) /\
            trace (ext s') =
              trace (ext s2) ++ [DbUpdate log_id (Some "failed");
                                 DbUpdate log_id (Some "failed")] /\
            logged s' log_id (TweetRequest.text tweet_data) "failed"
                   (Some (str e))
        end.
Proof.
  destruct (log_tweet_run s (TweetRequest.text tweet_data) "processing")
    as (log_id & s1 & Hlog & Htr1 & Hlib1 & _ & _ & row1 & Hsel1 & Hst1 & Htx1 & Hem1).
  exists log_id, s1. split; [exact Hlog|]. split; [exact Htr1|].
  intros ra s2 E.
  destruct (get_twitter_service_frame _ _ _ _ E) as [Hdb2 _].
  assert (Hlib2 : library (ext s2) = library (ext s)).
  { pose proof (get_twitter_service_only adapter_event _
                  (create_tweet_only_adapter _ _ _) _ _ _ E) as [Hl _].
    congruence. }
  assert (Hsel2 : database.select_by_id (main.db (loc s2)) log_id = Some row1)
    by (rewrite Hdb2; exact Hsel1).
  unfold main.create_tweet, try_except, bind. rewrite Hlog.
  unfold main.process_tweet_async, try_except, bind. rewrite E.
  destruct ra as [result|e].
  - destruct (update_tweet_log_run s2 log_id
                (Some (twitter_client.tweet_id result)) "success" None)
      as (s3 & Hup3 & Htr3 & Hlib3 & _ & _ & Hrow3).
    rewrite Hup3. unfold ret at 1.
    destruct (Hrow3 _ Hsel2) as (row3 & Hsel3 & Hst3 & Htx3 & Hem3).
    unfold TweetResponse.new, bind, get_library.
    replace (library (ext s3)) with (library (ext s)) by congruence.
    destruct (parse_datetime (library (ext s)) (twitter_client.created_at result))
      as [d|] eqn:Hparse.
    + unfold ret. eexists; eexists; split; [reflexivity|].
      split; [reflexivity|]. split; [exact Htr3|].
      exists row3. repeat split; congruence.
    + unfold raise at 1.
      destruct (update_tweet_log_run s3 log_id None "failed"
                  (Some TweetResponse.datetime_error))
        as (s4 & Hup4 & Htr4 & Hlib4 & _ & _ & Hrow4).
      simpl str. rewrite Hup4.
      destruct (Hrow4 _ Hsel3) as (row4 & Hsel4 & Hst4 & Htx4 & Hem4).
      destruct (format_error_response_run s4 "INTERNAL_ERROR" "服务器内部错误"
                  (Some TweetResponse.datetime_error))
        as (s5 & d & Hf & Hcode & Hdet & Hsucc & Hloc5 & Htr5 & _).
      rewrite Hf. unfold raise.
      eexists; eexists; split; [reflexivity|].
      split; [eauto 10|]. split.
      * rewrite Htr5, Htr4, Htr3, <- app_assoc. reflexivity.
      * exists row4. rewrite Hloc5. repeat split; congruence.
  - destruct (update_tweet_log_run s2 log_id None "failed" (Some (str e)))
      as (s3 & Hup3 & Htr3 & Hlib3 & _ & _ & Hrow3).
    rewrite Hup3. unfold raise at 1.
    destruct (Hrow3 _ Hsel2) as (row3 & Hsel3 & Hst3 & Htx3 & Hem3).
    destruct (update_tweet_log_run s3 log_id None "failed" (Some (str e)))
      as (s4 & Hup4 & Htr4 & Hlib4 & _ & _ & Hrow4).
    destruct (Hrow4 _ Hsel3) as (row4 & Hsel4 & Hst4 & Htx4 & Hem4).
    destruct e as [m|m|m|m|m|c d0].
    all: rewrite Hup4.
    all: match goal with
         | |- context [utils.format_error_response ?c ?m ?d ?st] =>
             destruct (format_error_response_run st c m d)
               as (s5 & d5 & Hf & Hcode & Hdet & Hsucc & Hloc5 & Htr5 & _);
             rewrite Hf
         end.
    all: unfold raise; eexists; eexists; (split; [reflexivity|]).
    all: split; [eauto 10|]; split;
      [rewrite Htr5, Htr4, Htr3, <- app_assoc; reflexivity
      |exists row4; rewrite Hloc5; repeat split; congruence].
Qed.

End handler_run.

Section endpoint_properties.
Import models.

Lemma respond_run (s : St main.App) code body :
  exists s',
    main.respond code body s =
      (Return {| main.status_code := code; main.body := body |}, s') /\
    loc s' = loc s /\
    trace (ext s') = trace (ext s) ++ [HttpResponse code].
Proof.
  unfold main.respond. unfold_m. simpl. eexists; split; [reflexivity|]. auto.
Qed.

(** A request that passes the validation goes to the handler; what the
    handler returns or raises becomes the response. *)
Lemma post_api_tweet_accepted text media reply_to (s : St main.App) r s1 :
  TweetRequest.text_ok text = true ->
  main.create_tweet {| TweetRequest.text := text; TweetRequest.media := media;
                       TweetRequest.reply_to := reply_to |} s = (r, s1) ->
  main.post_api_tweet text media reply_to s =
    match r with
    | Return resp => main.respond 200 (main.TweetBody resp) s1
    | Raise (HTTPException code detail) =>
        main.respond code (main.Detail detail) s1
    | Raise (TwitterClientError m) =>
        main.twitter_error_handler (TwitterClientError m) s1
    | Raise e => main.general_exception_handler e s1
    end.
Proof.
  intros Hok Hrun. unfold main.post_api_tweet, TweetRequest.new.
  rewrite Hok. unfold try_except, bind. rewrite Hrun.
  destruct r as [resp|[m|m|m|m|m|c d]]; reflexivity.
Qed.

(** Every run of the route on a request that passes the validation: the
    insert, the effects of the adapter, the updates, the response. *)
Lemma post_api_tweet_run text media reply_to (s : St main.App) :
  TweetRequest.text_ok text = true ->
  exists log_id adapter_evs updates final resp s',
    main.post_api_tweet text media reply_to s = (Return resp, s') /\
    trace (ext s') =
      trace (ext s) ++ DbInsert log_id "processing" :: adapter_evs ++
      (updates ++ [DbUpdate log_id (Some final)]) ++
      [HttpResponse (main.status_code resp)] /\
    Forall adapter_event adapter_evs /\
    Forall (fun ev => ev = DbUpdate log_id (Some "success") \/
                      ev = DbUpdate log_id (Some "failed")) updates /\
    (final = "success" /\ main.status_code resp = 200 \/
     final = "failed" /\
     (main.status_code resp = 400 \/ main.status_code resp = 500)) /\
    exists error_message, logged s' log_id text final error_message.
Proof.
  intros Hok.
  set (tweet_data := {| TweetRequest.text := text; TweetRequest.media := media;
                        TweetRequest.reply_to := reply_to |}).
  destruct (create_tweet_run tweet_data s) as (log_id & s1 & Hlog & Htr1 & Hrun).
  destruct (main.get_twitter_service
              (twitter_client.create_tweet (TweetRequest.text tweet_data)
                 (TweetRequest.media tweet_data)
                 (TweetRequest.reply_to tweet_data)) s1) as [ra s2] eqn:E.
  destruct (Hrun _ _ eq_refl) as (r & s3 & Hhandler & Hcases).
  pose proof (get_twitter_service_only adapter_event _
                (create_tweet_only_adapter _ _ _) _ _ _ E)
    as [_ (evs & Htr2 & Hevs)].
  rewrite (post_api_tweet_accepted _ _ _ _ _ _ Hok Hhandler).
  exists log_id, evs.
  destruct ra as [result|e];
    [destruct (parse_datetime (library (ext s))
                 (twitter_client.created_at result)) as [d|]|].
  - destruct Hcases as (-> & Htr3 & Hrow).
    destruct (respond_run s3 200
                (main.TweetBody
                   {| TweetResponse.success := true;
                      TweetResponse.tweet_id :=
                        Some (twitter_client.tweet_id result);
                      TweetResponse.message := "推文发布成功";
                      TweetResponse.created_at := Some d |}))
      as (s4 & Hresp & Hloc4 & Htr4).
    exists [], "success". eexists; exists s4. split; [exact Hresp|].
    split; [|split; [exact Hevs|split; [constructor|split; [left; auto|]]]].
    + rewrite Htr4, Htr3, Htr2, Htr1. simpl.
      repeat rewrite <- app_assoc. reflexivity.
    + exists None. unfold logged in *. rewrite Hloc4. exact Hrow.
  - destruct Hcases as ((detail & -> & Hcode & Hdet & Hsucc) & Htr3 & Hrow).
    destruct (respond_run s3 500 (main.Detail detail))
      as (s4 & Hresp & Hloc4 & Htr4).
    exists [DbUpdate log_id (Some "success")], "failed".
    eexists; exists s4. split; [exact Hresp|].
    split; [|split; [exact Hevs|split; [|split; [right; auto|]]]].
    + rewrite Htr4, Htr3, Htr2, Htr1. simpl.
      repeat rewrite <- app_assoc. reflexivity.
    + constructor; [left; reflexivity | constructor].
    + eexists. unfold logged in *. rewrite Hloc4. exact Hrow.
  - destruct Hcases as ((detail & -> & Hcode & Hdet & Hsucc) & Htr3 & Hrow).
    destruct (respond_run s3 (match e with
                              | TwitterClientError _ => 400
                              | _ => 500
                              end) (main.Detail detail))
      as (s4 & Hresp & Hloc4 & Htr4).
    exists [DbUpdate log_id (Some "failed")], "failed".
    eexists; exists s4. split; [exact Hresp|].
    split; [|split; [exact Hevs|split; [|split;
      [right; split; [reflexivity|]; simpl; destruct e; auto|]]]].
    + rewrite Htr4, Htr3, Htr2, Htr1. simpl.
      repeat rewrite <- app_assoc. reflexivity.
    + constructor; [right; reflexivity | constructor].
    + eexists. unfold logged in *. rewrite Hloc4. exact Hrow.
Qed.


(** C2.  When the adapter call of a publish attempt raises [e], the row of
    the attempt ends with status "failed" and [str(e)] as its error
    message, and the caller receives an error response that carries
    [str(e)]: 400 with TWITTER_ERROR when [e] is a TwitterClientError, 500
    otherwise.  What an initialised adapter raises is always a
    TwitterClientError. *)
Theorem adapter_failure_is_logged_and_surfaced text media reply_to
    (s : St main.App) log_id s1 e s2 :
  TweetRequest.text_ok text = true ->
  main.log_tweet text None "processing" None s = (Return log_id, s1) ->
  main.get_twitter_service (twitter_client.create_tweet text media reply_to) s1
    = (Raise e, s2) ->
  exists detail s',
    main.post_api_tweet text media reply_to s =
      (Return {| main.status_code :=
                   match e with TwitterClientError _ => 400 | _ => 500 end;
                 main.body := main.Detail detail |}, s') /\
    eb_success detail = false /\
    error_code detail =
      match e with
      | TwitterClientError _ => "TWITTER_ERROR"
      | _ => "INTERNAL_ERROR"
      end /\
    details detail = Some (str e) /\
    logged s' log_id text "failed" (Some (str e)) /\
    match main.twitter_service (loc s) with
    | Some _ => exists msg, e = TwitterClientError msg
    | None => e = RuntimeError "Twitter服务未初始化"
    end.
Proof.
  intros Hok Hlog E.
  set (tweet_data := {| TweetRequest.text := text; TweetRequest.media := media;
                        TweetRequest.reply_to := reply_to |}).
  destruct (create_tweet_run tweet_data s) as (log_id' & s1' & Hlog' & _ & Hrun).
  simpl in Hlog'. rewrite Hlog in Hlog'. inversion Hlog'; subst log_id' s1'.
  destruct (Hrun _ _ E) as (r & s3 & Hhandler &
                            (detail & -> & Hcode & Hdet & Hsucc) & _ & Hrow).
  rewrite (post_api_tweet_accepted _ _ _ _ _ _ Hok Hhandler).
  destruct (respond_run s3 (match e with
                            | TwitterClientError _ => 400
                            | _ => 500
                            end) (main.Detail detail))
    as (s4 & Hresp & Hloc4 & Htr4).
  exists detail, s4. split; [exact Hresp|].
  split; [exact Hsucc|]. split; [exact Hcode|]. split; [exact Hdet|]. split.
  - unfold logged in *. rewrite Hloc4. exact Hrow.
  - pose proof (adapter_call_raises _ _ _ _ _ _ E) as Hexn.
    destruct (log_tweet_run s text "processing")
      as (l0 & s0 & Hlog0 & _ & _ & Hsvc & _).
    rewrite Hlog in Hlog0. inversion Hlog0; subst.
    rewrite Hsvc in Hexn. exact Hexn.
Qed.

End endpoint_properties.

Section validation_properties.
Import models.

Lemma text_ok_iff (text : string) :
  TweetRequest.text_ok text = true <-> (1 <= Py.len text <= 280)%nat.
Proof.
  unfold TweetRequest.text_ok. rewrite andb_true_iff.
  rewrite Nat.leb_le, Nat.leb_le. tauto.
Qed.

(** [len] adds up over a concatenation and never exceeds the number of
    bytes; on ASCII text it is the number of bytes. *)
Lemma len_app (s1 s2 : string) :
  Py.len (s1 +:+ s2) = (Py.len s1 + Py.len s2)%nat.
Proof.
  induction s1 as [|c s1 IH]; simpl; [reflexivity|].
  destruct (Py.is_continuation c); simpl; rewrite IH; reflexivity.
Qed.

Lemma len_le_length (s : string) : (Py.len s <= String.length s)%nat.
Proof.
  induction s as [|c s IH]; simpl; [lia|].
  destruct (Py.is_continuation c); lia.
Qed.

Lemma len_ascii (s : string) :
  is_ascii s = true -> Py.len s = String.length s.
Proof.
  induction s as [|c s IH]; simpl; [reflexivity|].
  rewrite andb_true_iff. intros [Hc Hs]. rewrite (IH Hs).
  unfold Py.is_continuation.
  apply Nat.ltb_lt in Hc.
  destruct (128 <=? nat_of_ascii c)%nat eqn:E; [|reflexivity].
  apply Nat.leb_le in E. lia.
Qed.

Lemma len_copies (n : nat) (c : string) :
  Py.len (copies n c) = (n * Py.len c)%nat.
Proof.
  induction n as [|n IH]; simpl; [reflexivity|].
  rewrite len_app, IH. reflexivity.
Qed.

(** A text of 280 characters of three bytes each is in range, one of 281
    ASCII characters is not. *)
Lemma text_ok_counts_characters :
  TweetRequest.text_ok (copies 280 "推") = true /\
  String.length (copies 280 "推") = 840%nat /\
  TweetRequest.text_ok (copies 281 "a") = false /\
  TweetRequest.text_ok "" = false.
Proof. vm_compute. auto. Qed.

(** C6.  The route takes a request exactly when its text has 1 to 280
    characters.  Another text is answered 422 by the validation: no row is
    inserted, no adapter call is made, nothing but the response happens.
    A text in range reaches the handler, whose first effect is the insert
    of the log row. *)
Theorem post_api_tweet_validates_first text media reply_to (s : St main.App) :
  ((1 <= Py.len text <= 280)%nat ->
     exists log_id resp s',
       main.post_api_tweet text media reply_to s = (Return resp, s') /\
       main.status_code resp <> 422 /\
       begins (DbInsert log_id "processing") s s') /\
  (~ (1 <= Py.len text <= 280)%nat ->
     exists s',
       main.post_api_tweet text media reply_to s =
         (Return {| main.status_code := 422;
                    main.body := main.RequestValidationErrors |}, s') /\
       loc s' = loc s /\ files (ext s') = files (ext s) /\
       tick (ext s') = tick (ext s) /\
       trace (ext s') = trace (ext s) ++ [HttpResponse 422]).
Proof.
  split.
  - intros Hlen. apply text_ok_iff in Hlen. rename Hlen into Hok.
    destruct (post_api_tweet_run text media reply_to s Hok)
      as (log_id & evs & ups & final & resp & s' & Hrun & Htr & _ & _ & Hcode & _).
    exists log_id, resp, s'. split; [exact Hrun|]. split.
    + destruct Hcode as [[_ ->]|[_ [->| ->]]]; discriminate.
    + eexists. exact Htr.
  - intros Hlen.
    assert (Hbad : TweetRequest.text_ok text = false).
    { destruct (TweetRequest.text_ok text) eqn:E; [|reflexivity].
      apply text_ok_iff in E. contradiction. }
    unfold main.post_api_tweet, TweetRequest.new.
    rewrite Hbad. unfold main.respond. unfold_m. simpl.
    eexists; split; [reflexivity|]. simpl. auto.
Qed.

End validation_properties.

Section health_properties.
Import models.

(** The adapter's [health_check] returns a status dictionary in every
    case. *)
Lemma adapter_health_check_returns (a : St twitter_client.TwitterService) :
  exists h a',
    twitter_client.health_check a = (Return h, a') /\
    (twitter_client.status h = "connected" \/
     twitter_client.status h = "disconnected").
Proof.
  unfold twitter_client.health_check, try_except, bind.
  destruct (twitter_client.ensure_authenticated a) as [[[]|e1] a1].
  - destruct (twitter_client._test_authentication a1) as [[[]|e2] a2].
    + unfold ret. eexists; eexists; split; [reflexivity|]. left; reflexivity.
    + unfold ret. eexists; eexists; split; [reflexivity|]. right; reflexivity.
  - unfold ret. eexists; eexists; split; [reflexivity|]. right; reflexivity.
Qed.

(** C9.  GET /health answers with a HealthResponse whatever happens: when
    the adapter call returns, "healthy" with the status the adapter
    reported, which is "connected" or "disconnected"; when the call
    raises, "unhealthy" with "error".  The adapter's own [health_check]
    never raises. *)
Theorem health_check_never_raises (s : St main.App) :
  (forall a : St twitter_client.TwitterService,
     exists h a',
       twitter_client.health_check a = (Return h, a') /\
       (twitter_client.status h = "connected" \/
        twitter_client.status h = "disconnected")) /\
  exists resp s',
    main.health_check s = (Return resp, s') /\
    match main.get_twitter_service twitter_client.health_check s with
    | (Return h, _) =>
        HealthResponse.status resp = "healthy" /\
        HealthResponse.twitter_status resp = twitter_client.status h /\
        (twitter_client.status h = "connected" \/
         twitter_client.status h = "disconnected")
    | (Raise _, _) =>
        HealthResponse.status resp = "unhealthy" /\
        HealthResponse.twitter_status resp = "error" /\
        main.twitter_service (loc s) = None
    end.
Proof.
  split; [exact adapter_health_check_returns|].
  unfold main.health_check, try_except, bind.
  destruct (main.get_twitter_service twitter_client.health_check s)
    as [[h|e] s1] eqn:E.
  - unfold HealthResponse.new. unfold_m. simpl.
    eexists; eexists; split; [reflexivity|]. simpl.
    split; [reflexivity|]. split; [reflexivity|].
    unfold main.get_twitter_service in E.
    destruct (main.twitter_service (loc s)) as [svc|]; [|discriminate].
    destruct (adapter_health_check_returns {| loc := svc; ext := ext s |})
      as (h0 & a' & Hh & Hst).
    rewrite Hh in E. inversion E; subst. exact Hst.
  - unfold HealthResponse.new. unfold_m. simpl.
    eexists; eexists; split; [reflexivity|]. simpl.
    split; [reflexivity|]. split; [reflexivity|].
    unfold main.get_twitter_service in E.
    destruct (main.twitter_service (loc s)) as [svc|]; [|reflexivity].
    destruct (adapter_health_check_returns {| loc := svc; ext := ext s |})
      as (h0 & a' & Hh & Hst).
    rewrite Hh in E. discriminate.
Qed.

End health_properties.

Section defects.
Import models.

(** A state that no code of the repository builds: the global of
    twitter_client.py is set.  The adapter posts the tweet and
    returns, its [created_at] is in Twitter's own date format, and building
    the response fails on it: the row that was updated to "success" is then
    updated to "failed" and the caller receives 500. *)
Theorem posted_tweet_is_logged_failed :
  fst (main.get_twitter_service
         (twitter_client.create_tweet "hello" None None)
         (snd (main.log_tweet "hello" None "processing" None
                 (sample.app 3 true (sample.lib_ok sample.tweet_native_date)))))
    = Return {| twitter_client.tweet_id := "123456789";
                twitter_client.text := "hello";
                twitter_client.created_at := "Wed Oct 10 20:19:24 +0000 2018";
                twitter_client.user_id := "user123";
                twitter_client.user_name := "Test User" |} /\
  trace (ext (snd (main.post_api_tweet "hello" None None
                     (sample.app 3 true (sample.lib_ok sample.tweet_native_date)))))
    = [DbInsert 1 "processing"; ClientCreateTweet "hello" None None;
       DbUpdate 1 (Some "success"); DbUpdate 1 (Some "failed");
       HttpResponse 500] /\
  option_map database.status
    (database.select_by_id
       (main.db (loc (snd (main.post_api_tweet "hello" None None
          (sample.app 3 true (sample.lib_ok sample.tweet_native_date))))))
       1)
    = Some "failed".
Proof. vm_compute. auto. Qed.

(** C3.  With [max_retry_attempts] configured to 1 and a post that always
    fails, one call of the adapter's [create_tweet] still posts three
    times: the bound is the 3 of the decorator, not the setting. *)
Theorem create_tweet_ignores_max_retry_attempts :
  config.max_retry_attempts
    (main.settings (loc (sample.app 1 true (sample.lib_post_fails "timeout"))))
    = 1 /\
  count_posts
    (trace (ext (snd (main.get_twitter_service
                        (twitter_client.create_tweet "hello" None None)
                        (sample.app 1 true (sample.lib_post_fails "timeout"))))))
    = 3%nat /\
  fst (main.get_twitter_service
         (twitter_client.create_tweet "hello" None None)
         (sample.app 1 true (sample.lib_post_fails "timeout")))
    = Raise (TwitterClientError "发布推文失败: timeout").
Proof. vm_compute. auto. Qed.

End defects.

Section retry_bound.
Import twitter_client.

Lemma count_posts_app (l1 l2 : list event) :
  count_posts (l1 ++ l2) = (count_posts l1 + count_posts l2)%nat.
Proof. unfold count_posts. rewrite filter_app, length_app. reflexivity. Qed.

Lemma count_posts_none (l : list event) :
  Forall not_post l -> count_posts l = 0%nat.
Proof.
  unfold count_posts. induction 1 as [|ev l Hev _ IH]; [reflexivity|].
  rewrite filter_cons. unfold not_post in Hev.
  destruct (decide (is_post ev)) as [Hp|Hp]; [|exact IH].
  rewrite Hev in Hp. destruct Hp.
Qed.

Lemma posts_at_most_trans {L} (a b : nat) (s s1 s2 : St L) :
  posts_at_most a s s1 -> posts_at_most b s1 s2 ->
  posts_at_most (a + b) s s2.
Proof.
  intros (e1 & H1 & Hc1) (e2 & H2 & Hc2). exists (e1 ++ e2).
  rewrite H2, H1, app_assoc, count_posts_app. split; [reflexivity | lia].
Qed.

Lemma posts_at_most_weaken {L} (a b : nat) (s s' : St L) :
  (a <= b)%nat -> posts_at_most a s s' -> posts_at_most b s s'.
Proof. intros Hab (e & H & Hc). exists e. split; [exact H | lia]. Qed.

Lemma only_not_post_no_posts {L} (s s' : St L) :
  only not_post s s' -> posts_at_most 0 s s'.
Proof.
  intros [_ (evs & H & Hf)]. exists evs. split; [exact H|].
  rewrite (count_posts_none _ Hf). lia.
Qed.

Lemma ensure_authenticated_not_post : moves (only not_post) ensure_authenticated.
Proof.
  unfold ensure_authenticated, authenticate, try_saved_cookies, full_login,
    _test_authentication, client_save_cookies, os_makedirs, client_login,
    client_load_cookies, os_path_exists, set_client, set_authenticated.
  repeat moves_step.
Qed.

Lemma upload_media_from_not_post (l : list string) :
  forall i ids, moves (only not_post) (upload_media_from i l ids).
Proof.
  induction l as [|x l IH]; intros i ids; simpl; repeat moves_step. apply IH.
Qed.

(** One attempt posts at most once. *)
Lemma create_tweet_attempt_posts_once text media reply_to :
  moves (posts_at_most 1) (create_tweet_attempt text media reply_to).
Proof.
  intros s r s' H. unfold create_tweet_attempt, bind in H.
  destruct (ensure_authenticated s) as [[[]|e1] s1] eqn:E1;
    pose proof (only_not_post_no_posts _ _
                  (ensure_authenticated_not_post _ _ _ E1)) as H1.
  2:{ inversion H; subst. eapply posts_at_most_weaken; [|exact H1]. lia. }
  apply (posts_at_most_trans 0 1 s s1 s'); [exact H1|]. clear E1 H1.
  unfold try_except, create_tweet_try, bind in H.
  set (up := if Py.truthy_opt_list media
             then _upload_media (default [] media) else ret []) in H.
  assert (Hup : moves (only not_post) up).
  { subst up. unfold _upload_media. repeat moves_step.
    apply upload_media_from_not_post. }
  destruct (up s1) as [[ids|e2] s2] eqn:E2;
    pose proof (only_not_post_no_posts _ _ (Hup _ _ _ E2)) as H2.
  - apply (posts_at_most_trans 0 1 s1 s2 s'); [exact H2|]. clear E2 H2.
    assert (Hpost : forall ro,
               moves (posts_at_most 1)
                 (@call TwitterService _
                    (ClientCreateTweet text
                       (if Py.truthy_list ids then Some ids else None) ro)
                    create_tweet_outcome)).
    { intros ro a r0 a' Hc. unfold call in Hc. unfold_m. simpl in Hc.
      exists [ClientCreateTweet text
                (if Py.truthy_list ids then Some ids else None) ro].
      destruct (create_tweet_outcome _ _); inversion Hc; subst; simpl;
        split; reflexivity || (unfold count_posts; simpl; lia). }
    assert (Hexc : forall e, moves (only not_post) (create_tweet_except e)).
    { intros e. unfold create_tweet_except, set_authenticated.
      repeat moves_step. }
    destruct (Py.truthy_opt_str reply_to).
    all: match type of H with
         | context [call ?ev ?f ?st] =>
             destruct (call ev f st) as [[tw|e3] s3] eqn:E3;
             pose proof (Hpost _ _ _ _ E3) as H3
         end.
    all: try (inversion H; subst; exact H3).
    all: apply (posts_at_most_trans 1 0 s2 s3 s'); [exact H3|];
      apply only_not_post_no_posts; exact (Hexc _ _ _ _ H).
  - apply (posts_at_most_trans 0 1 s1 s2 s'); [exact H2|].
    eapply posts_at_most_weaken; [|apply only_not_post_no_posts].
    + apply Nat.le_0_l.
    + assert (Hexc : moves (only not_post) (create_tweet_except e2)).
      { unfold create_tweet_except, set_authenticated. repeat moves_step. }
      exact (Hexc _ _ _ H).
Qed.

Lemma retry_from_posts {L A} wait (fn : M L A) (n k : nat) :
  moves (posts_at_most 1) fn ->
  moves (posts_at_most (S n)) (tenacity.retry_from n k wait fn).
Proof.
  intros Hfn. revert k. induction n as [|n IH]; intros k s r s' H;
    simpl in H; unfold try_except in H;
    destruct (fn s) as [[a|e] s1] eqn:E; pose proof (Hfn _ _ _ E) as H1.
  - inversion H; subst. exact H1.
  - unfold raise in H. inversion H; subst. exact H1.
  - inversion H; subst. eapply posts_at_most_weaken; [|exact H1]. lia.
  - apply (posts_at_most_trans 1 (S n) s s1 s'); [exact H1|].
    unfold_m. simpl in H. apply IH in H.
    destruct H as (evs & Htr & Hc). simpl in Htr.
    exists (Sleep (wait (library (ext s1)) k) :: evs). split.
    + rewrite Htr, <- app_assoc. reflexivity.
    + exact Hc.
Qed.

(** Whatever the settings say, one call of the adapter's [create_tweet]
    posts at most three times. *)
Lemma create_tweet_posts_at_most_three text media reply_to :
  moves (posts_at_most 3) (create_tweet text media reply_to).
Proof.
  unfold create_tweet, tenacity.retry.
  apply (retry_from_posts _ _ 2 1). apply create_tweet_attempt_posts_once.
Qed.

End retry_bound.

Section config_properties.
Import config.

(** C7.  [validate_config] raises a ValueError exactly when one of the
    three credentials is empty, returns [True] exactly when none is, and
    leaves the settings as they were either way. *)
Theorem validate_config_iff (s : St Settings) :
  snd (validate_config s) = s /\
  ((exists msg, fst (validate_config s) = Raise (ValueError msg)) <->
     (twitter_username (loc s) = "" \/ twitter_email (loc s) = "" \/
      twitter_password (loc s) = "")) /\
  (fst (validate_config s) = Return true <->
     ~ (twitter_username (loc s) = "" \/ twitter_email (loc s) = "" \/
        twitter_password (loc s) = "")).
Proof.
  destruct s as [self x]; destruct self as [u e p h po d l m r c lf].
  unfold validate_config; unfold_m; simpl.
  destruct u, e, p; simpl; (split; [reflexivity|]); split; split;
    try (intros [msg H]); try intros H; try discriminate;
    try (exfalso; apply H; auto; fail);
    try (exfalso; intuition discriminate; fail);
    eauto; try (intuition discriminate).
Qed.
End config_properties.

Section database_properties.
Import database.

End database_properties.

Section authenticate_properties.
Import twitter_client.

Ltac unfold_authenticate :=
  unfold authenticate, try_saved_cookies, full_login, _test_authentication,
    client_save_cookies, os_makedirs, client_login, client_load_cookies,
    os_path_exists, set_client, set_authenticated in *.

(** C8.  [authenticate] starts with the saved cookies and logs in only
    when they do not serve.  The three cases below are all there are.
    - The cookie file exists and does not load: the error is raised as a
      TwitterClientError, without a login.
    - The cookie file exists, loads, and the session passes the test: the
      flag is set and the result is [True]; there is no login and the file
      is untouched.
    - The cookie file is absent, or it loads and the session fails the test
      (the test raises or finds no user): the login is made with the
      username, the email and the password of the adapter.  When the login
      returns, the directory is made and the fresh session is saved to
      the cookie file; then the flag is set and the result is [True].  When
      the login, [os.makedirs] or [save_cookies] raises, a
      TwitterClientError with that message is raised, with the flag and the
      file as they were. *)
Theorem authenticate_cookies_first (s : St TwitterService) :
  (forall saved msg,
     files (ext s) !! cookies_file (loc s) = Some saved ->
     load_cookies_outcome (library (ext s)) (tick (ext s)) = Throws msg ->
     shows authenticate s
       (Raise (TwitterClientError ("认证失败: " +:+ msg)))
       [CallAuthenticate; LoadCookies (cookies_file (loc s))]
       (_authenticated (loc s)) (client (loc s)) (files (ext s))) /\
  (forall saved,
     files (ext s) !! cookies_file (loc s) = Some saved ->
     load_cookies_outcome (library (ext s)) (tick (ext s)) = Returns tt ->
     get_user_by_screen_name_outcome (library (ext s)) (S (tick (ext s)))
       = Returns true ->
     shows authenticate s (Return true)
       [CallAuthenticate; LoadCookies (cookies_file (loc s));
        GetUserByScreenName (username (loc s))]
       true saved (files (ext s))) /\
  (forall pre t0 held,
     (files (ext s) !! cookies_file (loc s) = None /\
      pre = [CallAuthenticate] /\ t0 = tick (ext s) /\ held = client (loc s))
     \/
     (files (ext s) !! cookies_file (loc s) = Some held /\
      load_cookies_outcome (library (ext s)) (tick (ext s)) = Returns tt /\
      get_user_by_screen_name_outcome (library (ext s)) (S (tick (ext s)))
        <> Returns true /\
      pre = [CallAuthenticate; LoadCookies (cookies_file (loc s));
             GetUserByScreenName (username (loc s))] /\
      t0 = S (S (tick (ext s)))) ->
     match login_outcome (library (ext s)) t0 with
     | Throws msg =>
         shows authenticate s
           (Raise (TwitterClientError ("认证失败: " +:+ msg)))
           (pre ++ [Login (username (loc s)) (email (loc s))
                      (password (loc s))])
           (_authenticated (loc s)) held (files (ext s))
     | Returns fresh =>
         match makedirs_outcome (library (ext s)) (S t0) with
         | Throws msg =>
             shows authenticate s
               (Raise (TwitterClientError ("认证失败: " +:+ msg)))
               (pre ++ [Login (username (loc s)) (email (loc s))
                          (password (loc s)); MakeDirs])
               (_authenticated (loc s)) fresh (files (ext s))
         | Returns _ =>
             match save_cookies_outcome (library (ext s)) (S (S t0)) with
             | Throws msg =>
                 shows authenticate s
                   (Raise (TwitterClientError ("认证失败: " +:+ msg)))
                   (pre ++ [Login (username (loc s)) (email (loc s))
                              (password (loc s)); MakeDirs;
                            SaveCookies (cookies_file (loc s))])
                   (_authenticated (loc s)) fresh (files (ext s))
             | Returns _ =>
                 shows authenticate s (Return true)
                   (pre ++ [Login (username (loc s)) (email (loc s))
                              (password (loc s)); MakeDirs;
                            SaveCookies (cookies_file (loc s))])
                   true fresh
                   (<[cookies_file (loc s) := fresh]> (files (ext s)))
             end
         end
     end).
Proof.
  destruct s as [self x]; destruct self as [u e p path jar0 flag];
    destruct x as [fs lib t tr].
  unfold shows. unfold_authenticate; unfold_m; simpl.
  split; [|split].
  - intros saved msg Hfile Hload. rewrite Hfile. simpl. rewrite Hload. simpl.
    eexists. split; [reflexivity|]. simpl.
    rewrite <- !app_assoc. auto.
  - intros saved Hfile Hload Htest. rewrite Hfile. simpl. rewrite Hload.
    simpl. rewrite Hfile. simpl. rewrite Htest. simpl.
    eexists. split; [reflexivity|]. simpl.
    rewrite <- !app_assoc. auto.
  - intros pre t0 held
      [(Hfile & -> & -> & ->)|(Hfile & Hload & Htest & -> & ->)].
    + rewrite Hfile. simpl.
      destruct (login_outcome lib t) as [fresh|msg]; simpl.
      2:{ eexists. split; [reflexivity|]. simpl. rewrite <- !app_assoc. auto. }
      destruct (makedirs_outcome lib (S t)) as [[]|msg]; simpl.
      2:{ eexists. split; [reflexivity|]. simpl. rewrite <- !app_assoc. auto. }
      destruct (save_cookies_outcome lib (S (S t))) as [[]|msg]; simpl.
      2:{ eexists. split; [reflexivity|]. simpl. rewrite <- !app_assoc. auto. }
      eexists. split; [reflexivity|]. simpl. rewrite <- !app_assoc. auto.
    + rewrite Hfile. simpl. rewrite Hload. simpl. rewrite Hfile. simpl.
      destruct (get_user_by_screen_name_outcome lib (S t)) as [[|]|m] eqn:Hu;
        [contradiction Htest; reflexivity | |]; simpl.
      all: destruct (login_outcome lib (S (S t))) as [fresh|msg]; simpl;
        [|eexists; split; [reflexivity|]; simpl; rewrite <- !app_assoc; auto].
      all: destruct (makedirs_outcome lib (S (S (S t)))) as [[]|msg]; simpl;
        [|eexists; split; [reflexivity|]; simpl; rewrite <- !app_assoc; auto].
      all: destruct (save_cookies_outcome lib (S (S (S (S t))))) as [[]|msg];
        simpl;
        eexists; (split; [reflexivity|]); simpl; rewrite <- !app_assoc; auto.
Qed.

End authenticate_properties.

(** * The theorems at concrete inputs *)

Section witnesses.
Import models.

(** C8 at an adapter without a cookie file, in a world where every call
    succeeds: the login is made and its session is saved. *)
Lemma authenticate_cookies_first_witness :
  shows twitter_client.authenticate
    (sample.adapter false ∅ (sample.lib_ok sample.tweet))
    (Return true)
    [CallAuthenticate; Login "test_user" "test@example.com" "test_password";
     MakeDirs; SaveCookies "data/cookies.json"]
    true 1%nat (<["data/cookies.json" := 1%nat]> ∅).
Proof.
  exact (proj2 (proj2 (authenticate_cookies_first
                         (sample.adapter false ∅ (sample.lib_ok sample.tweet))))
           [CallAuthenticate] 0%nat 0%nat
           (or_introl (conj eq_refl (conj eq_refl (conj eq_refl eq_refl))))).
Defined.

(** C4 at an authenticated adapter whose posts are refused with
    "403 Forbidden": the call fails and the flag is false afterwards. *)
Lemma create_tweet_failure_and_the_flag_witness :
  twitter_client.create_tweet "hello" None None
    (sample.adapter true ∅ (sample.lib_post_fails "403 Forbidden"))
  = (Raise (TwitterClientError "发布推文失败: 403 Forbidden"),
     snd (twitter_client.create_tweet "hello" None None
            (sample.adapter true ∅ (sample.lib_post_fails "403 Forbidden")))) /\
  twitter_client.is_auth_error
    (str (TwitterClientError "发布推文失败: 403 Forbidden")) = true /\
  twitter_client._authenticated
    (loc (snd (twitter_client.create_tweet "hello" None None
                 (sample.adapter true ∅
                    (sample.lib_post_fails "403 Forbidden"))))) = false.
Proof.
  assert (Hrun : twitter_client.create_tweet "hello" None None
            (sample.adapter true ∅ (sample.lib_post_fails "403 Forbidden"))
          = (Raise (TwitterClientError "发布推文失败: 403 Forbidden"),
             snd (twitter_client.create_tweet "hello" None None
                    (sample.adapter true ∅
                       (sample.lib_post_fails "403 Forbidden")))))
    by (vm_compute; reflexivity).
  split; [exact Hrun|]. split; [reflexivity|].
  destruct (create_tweet_failure_and_the_flag _ _ _ _ _ _ Hrun)
    as [Hauth _].
  apply Hauth. reflexivity.
Defined.

(** Two failures without a keyword that change the flag.  An adapter that
    is not authenticated logs in and then fails to post with "timeout":
    the flag goes from false to true.  An authenticated adapter is refused
    with "403 Forbidden" at the first attempt and cannot log in again
    ("bad password") at the next two: the call fails with the message of
    the login, and the flag has gone from true to false. *)
Lemma non_auth_failure_changes_the_flag :
  (fst (twitter_client.create_tweet "hello" None None
          (sample.adapter false ∅ (sample.lib_post_fails "timeout")))
     = Raise (TwitterClientError "发布推文失败: timeout") /\
   twitter_client.is_auth_error "发布推文失败: timeout" = false /\
   twitter_client._authenticated
     (loc (sample.adapter false ∅ (sample.lib_post_fails "timeout")))
     = false /\
   twitter_client._authenticated
     (loc (snd (twitter_client.create_tweet "hello" None None
                  (sample.adapter false ∅ (sample.lib_post_fails "timeout")))))
     = true) /\
  (fst (twitter_client.create_tweet "hello" None None
          (sample.adapter true ∅
             (sample_process.lib_refused "403 Forbidden" "bad password")))
     = Raise (TwitterClientError "认证失败: bad password") /\
   twitter_client.is_auth_error "认证失败: bad password" = false /\
   twitter_client._authenticated
     (loc (sample.adapter true ∅
             (sample_process.lib_refused "403 Forbidden" "bad password")))
     = true /\
   twitter_client._authenticated
     (loc (snd (twitter_client.create_tweet "hello" None None
                  (sample.adapter true ∅
                     (sample_process.lib_refused "403 Forbidden"
                        "bad password")))))
     = false).
Proof. vm_compute. auto 10. Qed.


(** C2 at a request whose post times out on every attempt. *)
Lemma adapter_failure_is_logged_and_surfaced_witness :
  TweetRequest.text_ok "hello" = true /\
  exists detail s',
    main.post_api_tweet "hello" None None
      (sample.app 3 true (sample.lib_post_fails "timeout")) =
      (Return {| main.status_code := 400; main.body := main.Detail detail |},
       s') /\
    error_code detail = "TWITTER_ERROR" /\
    details detail = Some "发布推文失败: timeout" /\
    logged s' 1 "hello" "failed" (Some "发布推文失败: timeout").
Proof.
  split; [reflexivity|].
  destruct (adapter_failure_is_logged_and_surfaced "hello" None None
              (sample.app 3 true (sample.lib_post_fails "timeout"))
              1
              (snd (main.log_tweet "hello" None "processing" None
                      (sample.app 3 true (sample.lib_post_fails "timeout"))))
              (TwitterClientError "发布推文失败: timeout")
              (snd (main.get_twitter_service
                      (twitter_client.create_tweet "hello" None None)
                      (snd (main.log_tweet "hello" None "processing" None
                              (sample.app 3 true
                                 (sample.lib_post_fails "timeout")))))))
    as (detail & s' & Hresp & _ & Hcode & Hdet & Hrow & _).
  - reflexivity.
  - vm_compute; reflexivity.
  - vm_compute; reflexivity.
  - exists detail, s'. auto.
Defined.

End witnesses.

(** * Properties of the rest of the code *)

Section retry_schedule.
Context {L A : Type} (wait : Library -> nat -> nat) (fn : M L A).

Lemma sleeps_app (l1 l2 : list event) : sleeps (l1 ++ l2) = sleeps l1 ++ sleeps l2.
Proof. unfold sleeps. apply filter_app. Qed.

Lemma sleeps_none (l : list event) : Forall not_sleep l -> sleeps l = [].
Proof.
  unfold sleeps. induction 1 as [|ev l Hev _ IH]; [reflexivity|].
  rewrite filter_cons. unfold not_sleep in Hev.
  destruct (decide (is_sleep ev)) as [Hp|Hp]; [|exact IH].
  rewrite Hev in Hp. destruct Hp.
Qed.

(** The sleeps of [retry]: one after each failed attempt but the last, for
    the attempt numbers in order; a call that raises used every attempt. *)
Lemma retry_from_sleeps (n k : nat) (s : St L) (r : result A) (s' : St L) :
  moves (only not_sleep) fn ->
  tenacity.retry_from n k wait fn s = (r, s') ->
  exists evs j,
    trace (ext s') = trace (ext s) ++ evs /\ (j <= n)%nat /\
    library (ext s') = library (ext s) /\
    sleeps evs = map (fun i => Sleep (wait (library (ext s)) i)) (seq k j) /\
    (forall e, r = Raise e -> j = n).
Proof.
  intros Hfn. revert k s. induction n as [|n IH]; intros k s H;
    simpl in H; unfold try_except in H;
    destruct (fn s) as [[a|e0] s1] eqn:E;
    destruct (Hfn _ _ _ E) as [Hlib (evs1 & Htr1 & Hq1)].
  1-3: inversion H; subst; exists evs1, 0%nat;
    (split; [exact Htr1|]); (split; [lia|]); (split; [exact Hlib|]);
    (split; [apply sleeps_none; exact Hq1|]);
    intros e He; first [discriminate | reflexivity].
  - unfold_m. simpl in H. apply IH in H.
    destruct H as (evs2 & j & Htr2 & Hj & Hlib2 & Hs2 & Hr). simpl in *.
    exists (evs1 ++ Sleep (wait (library (ext s1)) k) :: evs2), (S j).
    split; [|split; [lia|split; [congruence|split]]].
    + rewrite Htr2, Htr1. repeat rewrite <- app_assoc. reflexivity.
    + rewrite sleeps_app, (sleeps_none _ Hq1). simpl.
      change (Sleep (wait (library (ext s1)) k) :: evs2)
        with ([Sleep (wait (library (ext s1)) k)] ++ evs2).
      rewrite sleeps_app. unfold sleeps at 1. simpl.
      rewrite Hs2, Hlib. reflexivity.
    + intros e He. rewrite (Hr e He). reflexivity.
Qed.

(** The attempt that returned started in a state that [retry] reached. *)
Lemma retry_from_returns_within (P : event -> Prop) (n k : nat) (s : St L)
    (a : A) (s' : St L) :
  (forall d, P (Sleep d)) -> moves (only P) fn ->
  tenacity.retry_from n k wait fn s = (Return a, s') ->
  exists s0, only P s s0 /\ fn s0 = (Return a, s').
Proof.
  intros Hsleep Hfn. revert k s. induction n as [|n IH]; intros k s H;
    simpl in H; unfold try_except in H;
    destruct (fn s) as [[a0|e0] s1] eqn:E.
  - inversion H; subst. exists s. split; [reflexivity | exact E].
  - discriminate.
  - inversion H; subst. exists s. split; [reflexivity | exact E].
  - assert (Hstep : only P s s1) by exact (Hfn _ _ _ E).
    unfold_m. simpl in H. apply IH in H. destruct H as (s0 & Hs0 & Hrun).
    exists s0. split; [|exact Hrun].
    transitivity s1; [exact Hstep|].
    etransitivity; [|exact Hs0].
    split; simpl; [reflexivity|].
    exists [Sleep (wait (library (ext s1)) k)]. split; [reflexivity|].
    constructor; auto.
Qed.
End retry_schedule.

Lemma only_weaken {L} (P Q : event -> Prop) (s s' : St L) :
  (forall ev, P ev -> Q ev) -> only P s s' -> only Q s s'.
Proof.
  intros HPQ [Hlib (evs & Htr & Hf)]. split; [exact Hlib|].
  exists evs. split; [exact Htr|]. eapply Forall_impl; eauto.
Qed.

Lemma client_event_not_sleep (ev : event) : client_event ev -> not_sleep ev.
Proof. destruct ev; simpl; intros H; try reflexivity; destruct H. Qed.

Lemma client_event_adapter (ev : event) : client_event ev -> adapter_event ev.
Proof. destruct ev; simpl; auto. Qed.

Section adapter_calls.
Import twitter_client.

Lemma authenticate_client_events : moves (only client_event) authenticate.
Proof.
  unfold authenticate, try_saved_cookies, full_login, _test_authentication,
    client_save_cookies, os_makedirs, client_login, client_load_cookies,
    os_path_exists, set_client, set_authenticated.
  repeat moves_step; exact I.
Qed.

Lemma ensure_authenticated_client_events :
  moves (only client_event) ensure_authenticated.
Proof.
  unfold ensure_authenticated. repeat moves_step.
  apply authenticate_client_events.
Qed.

Lemma upload_media_from_client_events (l : list string) :
  forall i ids, moves (only client_event) (upload_media_from i l ids).
Proof.
  induction l as [|x l IH]; intros i ids; simpl; repeat moves_step;
    try exact I. apply IH.
Qed.

Lemma create_tweet_attempt_client_events text media reply_to :
  moves (only client_event) (create_tweet_attempt text media reply_to).
Proof.
  unfold create_tweet_attempt, create_tweet_except, set_authenticated,
    create_tweet_try, _upload_media.
  repeat moves_step; try exact I.
  - apply ensure_authenticated_client_events.
  - apply upload_media_from_client_events.
Qed.

(** What one attempt raises carries one of the two prefixes of the
    adapter. *)
Lemma create_tweet_attempt_message text media reply_to
    (s : St TwitterService) (e : exn) (s' : St TwitterService) :
  create_tweet_attempt text media reply_to s = (Raise e, s') ->
  (exists m, e = TwitterClientError ("发布推文失败: " +:+ m)) \/
  (exists m, e = TwitterClientError ("认证失败: " +:+ m)).
Proof.
  unfold create_tweet_attempt, bind. intros H.
  destruct (ensure_authenticated s) as [[[]|e1] s1] eqn:E.
  - unfold try_except in H.
    destruct (create_tweet_try text media reply_to s1) as [[res|e0] s2];
      [discriminate|].
    unfold create_tweet_except, set_authenticated in H. unfold_m.
    destruct (is_auth_error (str e0)); simpl in H; inversion H; eauto.
  - inversion H; subst. right.
    unfold ensure_authenticated, bind, get_loc, ret in E.
    destruct (negb (_authenticated (loc s))); [|discriminate].
    destruct (authenticate s) as [[b|e2] s2] eqn:Ea; [discriminate|].
    inversion E; subst.
    destruct (authenticate_outcome _ _ _ Ea) as [_ [[Hr _]|[[m Hr] _]]];
      [discriminate|]. inversion Hr. eauto.
Qed.

(** The loop of [_upload_media] when it returns: every item was taken, in
    order, one tick each, and the ids are what the uploads answered. *)
Lemma upload_media_from_ids (l : list string) :
  forall i ids (s : St TwitterService) out s',
    upload_media_from i l ids s = (Return out, s') ->
    exists new,
      out = ids ++ new /\ length new = length l /\
      trace (ext s') = trace (ext s) ++ map UploadMedia (seq i (length l)) /\
      tick (ext s') = (tick (ext s) + length l)%nat /\
      forall k mid, new !! k = Some mid ->
        upload_media_outcome (library (ext s)) (tick (ext s) + k)
          = Returns mid.
Proof.
  induction l as [|x l IH]; intros i ids s out s' H; simpl in H.
  - unfold ret in H. inversion H; subst. exists []. simpl.
    rewrite !app_nil_r, Nat.add_0_r. do 4 (split; [reflexivity|]).
    intros k mid Hk. destruct k; discriminate.
  - unfold bind, try_except, call in H. unfold_m. simpl in H.
    destruct (upload_media_outcome (library (ext s)) (tick (ext s)))
      as [mid0|m] eqn:O; simpl in H; [|discriminate].
    apply IH in H. destruct H as (new & -> & Hlen & Htr & Htick & Hids).
    simpl in *. exists (mid0 :: new). split.
    { rewrite <- app_assoc. reflexivity. }
    split; [simpl; lia|]. split.
    { rewrite Htr, <- app_assoc. reflexivity. }
    split; [lia|].
    intros k mid Hk. destruct k as [|k]; simpl in Hk.
    + inversion Hk; subst. rewrite Nat.add_0_r. exact O.
    + replace (tick (ext s) + S k)%nat with (S (tick (ext s)) + k)%nat by lia.
      exact (Hids k mid Hk).
Qed.

(** One attempt that returns: the adapter is authenticated; after the
    authentication step every media item is uploaded, in order, and the
    post is made with the ids the uploads answered (with none when there is
    no media); the post is the last effect, and the result copies the
    tweet that post returned. *)
Lemma create_tweet_attempt_returns text media reply_to
    (s : St TwitterService) (res : tweet_result) (s' : St TwitterService) :
  create_tweet_attempt text media reply_to s = (Return res, s') ->
  _authenticated (loc s') = true /\
  exists pre media_ids tweet t0,
    trace (ext s') =
      trace (ext s) ++ pre ++
      map UploadMedia (seq 0 (length media_ids)) ++
      [ClientCreateTweet text
         (if Py.truthy_list media_ids then Some media_ids else None)
         (if Py.truthy_opt_str reply_to then reply_to else None)] /\
    Forall client_event pre /\ Forall not_post pre /\
    length media_ids = length (default [] media) /\
    tick (ext s') = (t0 + length media_ids + 1)%nat /\
    (forall k mid, media_ids !! k = Some mid ->
       upload_media_outcome (library (ext s)) (t0 + k) = Returns mid) /\
    create_tweet_outcome (library (ext s)) (t0 + length media_ids)
      = Returns tweet /\
    res = {| tweet_id := Tweet.id tweet; text := Tweet.text tweet;
             created_at := Tweet.created_at tweet;
             user_id := Tweet.user_id tweet;
             user_name := Tweet.user_name tweet |}.
Proof.
  unfold create_tweet_attempt, bind. intros H.
  destruct (ensure_authenticated s) as [[[]|e1] s1] eqn:E; [|discriminate].
  destruct (ensure_authenticated_outcome _ _ _ E) as [[_ Hflag]|[[m Hr] _]];
    [|discriminate].
  destruct (ensure_authenticated_client_events _ _ _ E) as [Hlib1 (ev1 & Htr1 & Hc1)].
  pose proof (ensure_authenticated_not_post _ _ _ E) as [_ (ev1' & Htr1' & Hn1)].
  assert (ev1' = ev1) by (rewrite Htr1 in Htr1'; eapply app_inv_head; eauto).
  subst ev1'.
  unfold try_except in H.
  destruct (create_tweet_try text media reply_to s1) as [[r2|e2] s2] eqn:T.
  2:{ unfold create_tweet_except, set_authenticated in H. unfold_m.
      destruct (is_auth_error (str e2)); simpl in H; discriminate. }
  inversion H; subst r2 s2. clear H.
  pose proof (create_tweet_try_same_loc _ _ _ _ _ _ T) as Hloc.
  unfold same_loc in Hloc. split; [rewrite Hloc; exact Hflag|].
  unfold create_tweet_try, bind in T.
  set (up := if Py.truthy_opt_list media
             then _upload_media (default [] media) else ret []) in T.
  destruct (up s1) as [[ids|e3] s3] eqn:U; [|discriminate].
  assert (Hup : length ids = length (default [] media) /\
                trace (ext s3) =
                  trace (ext s1) ++ map UploadMedia (seq 0 (length ids)) /\
                tick (ext s3) = (tick (ext s1) + length ids)%nat /\
                library (ext s3) = library (ext s1) /\
                forall k mid, ids !! k = Some mid ->
                  upload_media_outcome (library (ext s1)) (tick (ext s1) + k)
                    = Returns mid).
  { subst up. destruct (Py.truthy_opt_list media) eqn:Hm.
    - unfold _upload_media in U.
      destruct (upload_media_from_client_events _ _ _ _ _ _ U) as [Hlib _].
      destruct (upload_media_from_ids _ _ _ _ _ _ U)
        as (new & -> & Hlen & Htr & Htick & Hids).
      simpl. rewrite Hlen. auto.
    - unfold ret in U. inversion U; subst. simpl.
      rewrite app_nil_r, Nat.add_0_r.
      assert (Hnil : default [] media = []).
      { destruct media as [[|x l]|]; simpl in *; congruence. }
      rewrite Hnil. do 4 (split; [reflexivity|]).
      intros k mid Hk. destruct k; discriminate. }
  destruct Hup as (Hlen & Htr3 & Htick3 & Hlib3 & Hids).
  exists ev1, ids.
  assert (Hcall : forall ro r4 s4,
    call (ClientCreateTweet text
            (if Py.truthy_list ids then Some ids else None) ro)
         create_tweet_outcome s3 = (r4, s4) ->
    trace (ext s4) = trace (ext s3) ++
      [ClientCreateTweet text (if Py.truthy_list ids then Some ids else None) ro] /\
    tick (ext s4) = S (tick (ext s3)) /\
    match r4 with
    | Return tw =>
        create_tweet_outcome (library (ext s3)) (tick (ext s3)) = Returns tw
    | Raise _ => True
    end).
  { intros ro r4 s4 Hc. unfold call in Hc. unfold_m. simpl in Hc.
    destruct (create_tweet_outcome (library (ext s3)) (tick (ext s3))) eqn:O;
      inversion Hc; subst; simpl; auto. }
  destruct (Py.truthy_opt_str reply_to).
  all: match type of T with
       | context [call ?ev ?f ?st] =>
           destruct (call ev f st) as [[tw|e4] s4] eqn:C; [|discriminate];
           destruct (Hcall _ _ _ C) as (Htr4 & Htick4 & Hout)
       end.
  all: unfold ret in T; inversion T; subst; exists tw, (tick (ext s1)).
  all: split; [rewrite Htr4, Htr3, Htr1; repeat rewrite <- app_assoc; reflexivity|].
  all: split; [exact Hc1|]. all: split; [exact Hn1|].
  all: split; [exact Hlen|].
  all: split; [rewrite Htick4, Htick3; lia|].
  all: split; [intros k mid Hk; rewrite <- Hlib1; exact (Hids k mid Hk)|].
  all: split; [|reflexivity].
  all: rewrite <- Hlib1, <- Hlib3, <- Htick3; exact Hout.
Qed.

(** X1.  Whatever the settings, one call of the adapter's [create_tweet]
    posts at most three times and sleeps at most twice, and its effects are
    those of the client, the file system and the sleeps. *)
Theorem create_tweet_at_most_three_posts text media reply_to
    (s : St TwitterService) (r : result tweet_result) (s' : St TwitterService) :
  create_tweet text media reply_to s = (r, s') ->
  exists evs,
    trace (ext s') = trace (ext s) ++ evs /\
    (count_posts evs <= 3)%nat /\ (length (sleeps evs) <= 2)%nat /\
    Forall adapter_event evs.
Proof.
  intros H.
  destruct (create_tweet_posts_at_most_three _ _ _ _ _ _ H) as (evs & Htr & Hposts).
  exists evs. split; [exact Htr|]. split; [exact Hposts|].
  unfold create_tweet, tenacity.retry in H.
  assert (Hns : moves (only not_sleep) (create_tweet_attempt text media reply_to)).
  { intros a b c Hrun. eapply only_weaken; [apply client_event_not_sleep|].
    exact (create_tweet_attempt_client_events _ _ _ _ _ _ Hrun). }
  destruct (retry_from_sleeps _ _ _ _ _ _ _ Hns H) as (evs2 & j & Htr2 & Hj & _ & Hs & _).
  assert (evs2 = evs) by (rewrite Htr in Htr2; eapply app_inv_head; eauto).
  subst evs2. split.
  - rewrite Hs, length_map, length_seq. exact Hj.
  - fold (tenacity.retry 3 (fun lib => wait_exponential lib 1 2 10)
            (create_tweet_attempt text media reply_to)) in H.
    fold (create_tweet text media reply_to) in H.
    destruct (create_tweet_only_adapter _ _ _ _ _ _ H) as [_ (evs3 & Htr3 & Hf)].
    assert (evs3 = evs) by (rewrite Htr in Htr3; eapply app_inv_head; eauto).
    subst evs3. exact Hf.
Qed.

(** X2.  A call of [create_tweet] that fails never gave up early: it slept
    exactly twice, for the waits of attempts 1 and 2, so it made three
    attempts; what it raises is a TwitterClientError whose message starts
    with the prefix of the post or with the prefix of the authentication. *)
Theorem create_tweet_failure_used_every_attempt text media reply_to
    (s : St TwitterService) (e : exn) (s' : St TwitterService) :
  create_tweet text media reply_to s = (Raise e, s') ->
  (exists evs,
     trace (ext s') = trace (ext s) ++ evs /\
     sleeps evs =
       [Sleep (wait_exponential (library (ext s)) 1 2 10 1);
        Sleep (wait_exponential (library (ext s)) 1 2 10 2)]) /\
  ((exists m, e = TwitterClientError ("发布推文失败: " +:+ m)) \/
   (exists m, e = TwitterClientError ("认证失败: " +:+ m))).
Proof.
  intros H. unfold create_tweet, tenacity.retry in H. split.
  - assert (Hns : moves (only not_sleep) (create_tweet_attempt text media reply_to)).
    { intros a b c Hrun. eapply only_weaken; [apply client_event_not_sleep|].
      exact (create_tweet_attempt_client_events _ _ _ _ _ _ Hrun). }
    destruct (retry_from_sleeps _ _ _ _ _ _ _ Hns H)
      as (evs & j & Htr & _ & _ & Hs & Hall).
    exists evs. split; [exact Htr|].
    rewrite (Hall e eq_refl) in Hs. exact Hs.
  - apply retry_from_raises in H. destruct H as [s0 H].
    exact (create_tweet_attempt_message _ _ _ _ _ _ H).
Qed.

(** X3.  A call of [create_tweet] that returns stopped at its first
    successful post.  In the attempt that returned every media item was
    uploaded, in order, and the post was made with the text, with the ids
    that these uploads answered, in that order ([None] when there is no
    media), and with the reply id ([None] for an empty one).  The post is
    the last effect, the result copies the tweet the post returned, and the
    adapter is authenticated afterwards. *)
Theorem create_tweet_returns_the_posted_tweet text media reply_to
    (s : St TwitterService) (res : tweet_result) (s' : St TwitterService) :
  create_tweet text media reply_to s = (Return res, s') ->
  _authenticated (loc s') = true /\
  exists pre media_ids tweet t0,
    trace (ext s') =
      trace (ext s) ++ pre ++
      map UploadMedia (seq 0 (length media_ids)) ++
      [ClientCreateTweet text
         (if Py.truthy_list media_ids then Some media_ids else None)
         (if Py.truthy_opt_str reply_to then reply_to else None)] /\
    length media_ids = length (default [] media) /\
    tick (ext s') = (t0 + length media_ids + 1)%nat /\
    (forall k mid, media_ids !! k = Some mid ->
       upload_media_outcome (library (ext s)) (t0 + k) = Returns mid) /\
    create_tweet_outcome (library (ext s)) (t0 + length media_ids)
      = Returns tweet /\
    res = {| tweet_id := Tweet.id tweet; text := Tweet.text tweet;
             created_at := Tweet.created_at tweet;
             user_id := Tweet.user_id tweet;
             user_name := Tweet.user_name tweet |}.
Proof.
  intros H. unfold create_tweet, tenacity.retry in H.
  apply (retry_from_returns_within _ _ adapter_event) in H;
    [|intros d; exact I|apply create_tweet_attempt_only_adapter].
  destruct H as (s0 & [Hlib0 (ev0 & Htr0 & _)] & H).
  destruct (create_tweet_attempt_returns _ _ _ _ _ _ H)
    as (Hflag & pre & mids & tw & t0 & Htr & _ & _ & Hlen & Htick & Hids
        & Hout & Hres).
  split; [exact Hflag|]. exists (ev0 ++ pre), mids, tw, t0.
  split; [rewrite Htr, Htr0; repeat rewrite <- app_assoc; reflexivity|].
  split; [exact Hlen|]. split; [exact Htick|].
  split; [intros k mid Hk; rewrite <- Hlib0; exact (Hids k mid Hk)|].
  split; [rewrite <- Hlib0; exact Hout | exact Hres].
Qed.

End adapter_calls.

Section adapter_reads.
Import twitter_client.

Ltac unfold_authenticate :=
  unfold authenticate, try_saved_cookies, full_login, _test_authentication,
    client_save_cookies, os_makedirs, client_login, client_load_cookies,
    os_path_exists, set_client, set_authenticated in *.

(** X4.  [health_check] on an adapter whose flag is set never calls
    [authenticate] and never touches the adapter object: its only effect is
    the session test, it answers "connected" exactly when that test passes,
    and a session that fails the test leaves the flag set. *)
Theorem health_check_keeps_the_flag (s : St TwitterService) :
  _authenticated (loc s) = true ->
  exists h s',
    health_check s = (Return h, s') /\
    loc s' = loc s /\ files (ext s') = files (ext s) /\
    trace (ext s') = trace (ext s) ++ [GetUserByScreenName (username (loc s))] /\
    (status h = "connected" <->
       get_user_by_screen_name_outcome (library (ext s)) (tick (ext s))
         = Returns true) /\
    (status h = "connected" \/ status h = "disconnected").
Proof.
  intros Hflag. unfold health_check, try_except, bind.
  rewrite (ensure_authenticated_skips _ Hflag).
  unfold _test_authentication. unfold_m. simpl.
  destruct (get_user_by_screen_name_outcome (library (ext s)) (tick (ext s)))
    as [[|]|m]; simpl; eexists; eexists; (split; [reflexivity|]); simpl;
    repeat split; auto; try discriminate; intros H; discriminate.
Qed.

(** X5.  [get_tweet_info] raises only when the authentication it starts
    with fails, and then with a TwitterClientError; a fetch that raises
    gives [None] and leaves the flag set; a fetch that returns gives the
    fields of the tweet, with the favourite count as [like_count]. *)
Theorem get_tweet_info_outcomes tweet_id (s : St TwitterService)
    (r : result (option tweet_info)) (s' : St TwitterService) :
  get_tweet_info tweet_id s = (r, s') ->
  match r with
  | Raise e =>
      _authenticated (loc s) = false /\ _authenticated (loc s') = false /\
      exists m, e = TwitterClientError m
  | Return None =>
      _authenticated (loc s') = true /\
      exists m,
        get_tweet_by_id_outcome (library (ext s')) (pred (tick (ext s')))
          = Throws m
  | Return (Some info) =>
      _authenticated (loc s') = true /\
      exists tweet,
        get_tweet_by_id_outcome (library (ext s')) (pred (tick (ext s')))
          = Returns tweet /\
        info = {| info_id := Tweet.id tweet; info_text := Tweet.text tweet;
                  info_created_at := Tweet.created_at tweet;
                  info_user_name := Tweet.user_name tweet;
                  like_count := Tweet.favorite_count tweet;
                  info_retweet_count := Tweet.retweet_count tweet |}
  end.
Proof.
  unfold get_tweet_info, bind. intros H.
  destruct (ensure_authenticated s) as [[[]|e1] s1] eqn:E;
    destruct (ensure_authenticated_outcome _ _ _ E)
      as [[Hr Hflag]|[[m Hr] [Hf0 Hf1]]]; try discriminate.
  - unfold try_except, call in H. unfold_m. simpl in H.
    destruct (get_tweet_by_id_outcome (library (ext s1)) (tick (ext s1)))
      as [tw|m] eqn:O; simpl in H; inversion H; subst; simpl;
      (split; [exact Hflag|]); eauto.
  - inversion H; subst. inversion Hr; subst. eauto.
Qed.

(** X6.  The cookies a login saved are the cookies the next
    [authenticate] loads: after an [authenticate] that found no cookie file
    and returned [True], any adapter object with the same cookie file, once
    the file loads and the session passes the test, ends with the client
    cookies of that login, authenticated, without logging in again. *)
Theorem saved_cookies_are_reused (s s1 : St TwitterService)
    (service : TwitterService) :
  files (ext s) !! cookies_file (loc s) = None ->
  authenticate s = (Return true, s1) ->
  cookies_file service = cookies_file (loc s) ->
  load_cookies_outcome (library (ext s1)) (tick (ext s1)) = Returns tt ->
  get_user_by_screen_name_outcome (library (ext s1)) (S (tick (ext s1)))
    = Returns true ->
  exists s2,
    authenticate {| loc := service; ext := ext s1 |} = (Return true, s2) /\
    client (loc s2) = client (loc s1) /\
    _authenticated (loc s2) = true /\
    files (ext s2) = files (ext s1) /\
    trace (ext s2) =
      trace (ext s1) ++
      [CallAuthenticate; LoadCookies (cookies_file service);
       GetUserByScreenName (username service)].
Proof.
  destruct s as [self x]; destruct self as [u e p path jar0 flag];
    destruct x as [fs lib t tr].
  destruct service as [u2 e2 p2 path2 jar2 flag2].
  simpl. intros Hnone H Hpath. subst path2.
  assert (Hs1 : files (ext s1) !! path = Some (client (loc s1))).
  { revert H. unfold_authenticate; unfold_m; simpl.
    rewrite Hnone; simpl. intros H.
    repeat next_answer H; inversion H; subst; simpl.
    apply lookup_insert_eq. }
  clear H. destruct s1 as [self1 x1]; destruct x1 as [fs1 lib1 t1 tr1].
  simpl in *. intros Hload Htest.
  unfold_authenticate; unfold_m; simpl.
  rewrite Hs1; simpl. rewrite Hload; simpl. rewrite Hs1; simpl.
  rewrite Htest; simpl.
  eexists; split; [reflexivity|]. simpl.
  repeat rewrite <- app_assoc. auto.
Qed.

(** The loop of [_upload_media]: it uploads the items in order and stops at
    the first that fails. *)
Lemma upload_media_from_run (l : list string) :
  forall i ids (s : St TwitterService) r s',
    upload_media_from i l ids s = (r, s') ->
    exists k,
      (k <= length l)%nat /\
      trace (ext s') = trace (ext s) ++ map UploadMedia (seq i k) /\
      tick (ext s') = (tick (ext s) + k)%nat /\
      loc s' = loc s /\ files (ext s') = files (ext s) /\
      library (ext s') = library (ext s) /\
      match r with
      | Return out =>
          k = length l /\ length out = (length ids + length l)%nat
      | Raise e =>
          (1 <= k)%nat /\
          exists m,
            upload_media_outcome (library (ext s)) (tick (ext s) + k - 1)
              = Throws m /\
            e = TwitterClientError ("媒体上传失败: " +:+ m)
      end.
Proof.
  induction l as [|x l IH]; intros i ids s r s' H; simpl in H.
  - unfold ret in H. inversion H; subst. exists 0%nat. simpl.
    rewrite app_nil_r, Nat.add_0_r. split; [lia|]. do 5 (split; [reflexivity|]).
    split; [reflexivity | lia].
  - unfold bind, try_except, call in H. unfold_m. simpl in H.
    destruct (upload_media_outcome (library (ext s)) (tick (ext s)))
      as [mid|m] eqn:O; simpl in H.
    + apply IH in H.
      destruct H as (k & Hk & Htr & Htick & Hloc & Hfiles & Hlib & Hr).
      simpl in *. exists (S k). split; [lia|]. split.
      { rewrite Htr, <- app_assoc. reflexivity. }
      split; [lia|]. split; [exact Hloc|]. split; [exact Hfiles|].
      split; [exact Hlib|].
      destruct r as [out|e].
      * destruct Hr as [-> Hlen]. split; [reflexivity|].
        rewrite Hlen, length_app. simpl. lia.
      * destruct Hr as (Hk1 & m & Hout & He). split; [lia|].
        exists m. split; [|exact He].
        replace (tick (ext s) + S k - 1)%nat
          with (S (tick (ext s)) + k - 1)%nat by lia.
        exact Hout.
    + inversion H; subst. exists 1%nat. simpl.
      split; [lia|]. split; [reflexivity|]. split; [lia|].
      do 3 (split; [reflexivity|]). split; [lia|].
      exists m. split; [|reflexivity].
      replace (tick (ext s) + 1 - 1)%nat with (tick (ext s)) by lia. exact O.
Qed.

(** X7.  [_upload_media] takes the items one by one in their order and
    stops at the first failure: with [k] items started, a success means
    every item was uploaded and gives one id per item; a failure is the
    step of the [k]-th item (decoding, temporary file, upload) raising, it
    is raised as a TwitterClientError with the upload prefix, and no later
    item is tried.  The adapter object and the cookie files are
    untouched. *)
Theorem upload_media_stops_at_first_failure (media_data_list : list string)
    (s : St TwitterService) (r : result (list string)) (s' : St TwitterService) :
  _upload_media media_data_list s = (r, s') ->
  exists k,
    (k <= length media_data_list)%nat /\
    trace (ext s') = trace (ext s) ++ map UploadMedia (seq 0 k) /\
    loc s' = loc s /\ files (ext s') = files (ext s) /\
    match r with
    | Return media_ids =>
        k = length media_data_list /\
        length media_ids = length media_data_list
    | Raise e =>
        (1 <= k)%nat /\
        exists m,
          upload_media_outcome (library (ext s)) (tick (ext s) + k - 1)
            = Throws m /\
          e = TwitterClientError ("媒体上传失败: " +:+ m)
    end.
Proof.
  unfold _upload_media. intros H. apply upload_media_from_run in H.
  destruct H as (k & Hk & Htr & _ & Hloc & Hfiles & _ & Hr).
  exists k. repeat (split; [assumption|]).
  destruct r; [|exact Hr]. destruct Hr as [Hk' Hlen]. split; auto.
Qed.

End adapter_reads.

Section media_data_properties.

Lemma occurs_append (c : ascii) (a b : string) :
  occurs c (a +:+ b) = occurs c a || occurs c b.
Proof.
  induction a as [|x a IH]; simpl; [reflexivity|].
  rewrite IH. apply orb_assoc.
Qed.

Lemma append_assoc (a b c : string) : (a +:+ b) +:+ c = a +:+ b +:+ c.
Proof.
  induction a as [|x a IH]; [reflexivity|]. exact (f_equal (String x) IH).
Qed.

Lemma split_once_none (sep : ascii) (s : string) :
  occurs sep s = false -> PyStr.split_once sep s = None.
Proof.
  induction s as [|c s IH]; simpl; [reflexivity|].
  intros H. apply orb_false_iff in H. destruct H as [Hc Hs].
  rewrite Hc, (IH Hs). reflexivity.
Qed.

Lemma split_once_some (sep : ascii) (s : string) :
  occurs sep s = true ->
  exists a b,
    PyStr.split_once sep s = Some (a, b) /\
    s = a +:+ String sep b /\ occurs sep a = false.
Proof.
  induction s as [|c s IH]; simpl; [discriminate|].
  destruct (Ascii.eqb c sep) eqn:E; simpl.
  - intros _. apply Ascii.eqb_eq in E. subst c.
    exists EmptyString, s. auto.
  - intros H. destruct (IH H) as (a & b & Hs & Heq & Ha).
    rewrite Hs. exists (String c a), b. simpl. rewrite E, Ha, Heq at 1.
    repeat split; reflexivity.
Qed.

Lemma split_once_first (sep : ascii) (a b : string) :
  occurs sep a = false ->
  PyStr.split_once sep (a +:+ String sep b) = Some (a, b).
Proof.
  induction a as [|c a IH]; simpl.
  - intros _. rewrite Ascii.eqb_refl. reflexivity.
  - intros H. apply orb_false_iff in H. destruct H as [Hc Ha].
    rewrite Hc, (IH Ha). reflexivity.
Qed.

Lemma split_not_nil (sep : ascii) (s : string) : PyStr.split sep s <> [].
Proof.
  destruct s as [|c s]; simpl; [discriminate|].
  destruct (Ascii.eqb c sep); [discriminate|].
  destruct (PyStr.split sep s); discriminate.
Qed.

Lemma before_none (sep : ascii) (s : string) :
  occurs sep s = false -> before sep s = s.
Proof.
  unfold before. induction s as [|c s IH]; simpl; [reflexivity|].
  intros H. apply orb_false_iff in H. destruct H as [Hc Hs].
  rewrite Hc. specialize (IH Hs).
  destruct (PyStr.split sep s) as [|p ps] eqn:E; simpl in *;
    [destruct (split_not_nil _ _ E) | rewrite IH; reflexivity].
Qed.

Lemma before_first (sep : ascii) (a b : string) :
  occurs sep a = false -> before sep (a +:+ String sep b) = a.
Proof.
  unfold before. induction a as [|c a IH]; simpl.
  - intros _. rewrite Ascii.eqb_refl. reflexivity.
  - intros H. apply orb_false_iff in H. destruct H as [Hc Ha].
    rewrite Hc. specialize (IH Ha).
    destruct (PyStr.split sep (a +:+ String sep b)) as [|p ps] eqn:E;
      simpl in *; [destruct (split_not_nil _ _ E) | rewrite IH; reflexivity].
Qed.

Lemma startswith_data (m : string) :
  PyStr.startswith "data:" m = true -> exists rest, m = "data:" +:+ rest.
Proof.
  unfold PyStr.startswith. intros H.
  do 5 (destruct m as [|? m]; [discriminate|]; cbn [String.prefix] in H;
        match type of H with
        | context [ascii_dec ?a ?b] =>
            destruct (ascii_dec a b); [subst|discriminate]
        end).
  exists m. reflexivity.
Qed.

(** The parse of an item that starts with "data:". *)
Lemma parse_data_url (rest : string) :
  media_data.parse ("data:" +:+ rest) =
    match PyStr.split_once "," rest with
    | Some (a, data) => Return (before ":" (before ";" a), data)
    | None =>
        Raise (ValueError "not enough values to unpack (expected 2, got 1)")
    end.
Proof.
  change ("data:" +:+ rest)
    with (String "d" (String "a" (String "t" (String "a" (String ":" rest))))).
  unfold media_data.parse, before, PyStr.startswith. simpl.
  replace (String.prefix "" rest) with true by (destruct rest; reflexivity).
  destruct (PyStr.split_once "," rest) as [[a data]|]; [|reflexivity].
  simpl.
  destruct (PyStr.split ";" a) as [|p ps] eqn:E;
    [destruct (split_not_nil _ _ E)|]. simpl.
  destruct (PyStr.split ":" p) as [|q qs] eqn:F;
    [destruct (split_not_nil _ _ F)|]. reflexivity.
Qed.

(** X8.  The data URL of a media item is read back as it was written:
    "data:" followed by a MIME type without ',', ';' or ':', then either
    parameters without ',' behind a ';' or nothing, then ',' and a payload,
    parses to that MIME type and that payload; commas in the payload stay in
    it. *)
Theorem media_data_url_round_trip (mime params payload : string) :
  occurs "," mime = false -> occurs ";" mime = false ->
  occurs ":" mime = false -> occurs "," params = false ->
  media_data.parse ("data:" +:+ mime +:+ ";" +:+ params +:+ "," +:+ payload)
    = Return (mime, payload) /\
  media_data.parse ("data:" +:+ mime +:+ "," +:+ payload)
    = Return (mime, payload).
Proof.
  intros Hc Hs Hk Hp. split; rewrite parse_data_url.
  - replace (mime +:+ ";" +:+ params +:+ "," +:+ payload)
      with ((mime +:+ String ";" params) +:+ String "," payload).
    2:{ rewrite append_assoc. reflexivity. }
    rewrite split_once_first.
    2:{ rewrite occurs_append. simpl. rewrite Hc, Hp. reflexivity. }
    rewrite (before_first ";" mime params Hs), (before_none ":" mime Hk).
    reflexivity.
  - change (mime +:+ "," +:+ payload) with (mime +:+ String "," payload).
    rewrite (split_once_first "," mime payload Hc).
    rewrite (before_none ";" mime Hs), (before_none ":" mime Hk).
    reflexivity.
Qed.

(** X9.  What the parse of a media item does in every case: an item that
    does not start with "data:" is taken whole as base64 text of type
    "image/jpeg"; one that does and holds no ',' raises the ValueError of
    the unpacking; one that does and holds a ',' is cut at the first ',',
    and the MIME type is what stands between "data:" and the first ';' or
    ':' of the header.  The index [1] never fails. *)
Theorem media_data_parse_cases (m : string) :
  (PyStr.startswith "data:" m = false ->
     media_data.parse m = Return ("image/jpeg", m)) /\
  (PyStr.startswith "data:" m = true -> occurs "," m = false ->
     media_data.parse m =
       Raise (ValueError "not enough values to unpack (expected 2, got 1)")) /\
  (PyStr.startswith "data:" m = true -> occurs "," m = true ->
     exists a data,
       m = "data:" +:+ a +:+ "," +:+ data /\ occurs "," a = false /\
       media_data.parse m = Return (before ":" (before ";" a), data)).
Proof.
  split; [|split].
  - intros H. unfold media_data.parse. rewrite H. reflexivity.
  - intros H Hno. destruct (startswith_data _ H) as [rest ->].
    rewrite parse_data_url. rewrite occurs_append in Hno.
    apply orb_false_iff in Hno. destruct Hno as [_ Hrest].
    rewrite (split_once_none _ _ Hrest). reflexivity.
  - intros H Hyes. destruct (startswith_data _ H) as [rest ->].
    rewrite parse_data_url. rewrite occurs_append in Hyes. simpl in Hyes.
    destruct (split_once_some _ _ Hyes) as (a & data & Hsp & Heq & Ha).
    rewrite Hsp. exists a, data. subst rest. auto.
Qed.

End media_data_properties.

Section log_store_properties.
Import database.

Lemma max_rowid_Forall (rows : list row) :
  Forall (fun r => id r <= max_rowid rows) rows.
Proof.
  apply Forall_forall. intros r Hin. apply max_rowid_ge.
  apply list_elem_of_In. exact Hin.
Qed.

Lemma find_app_other (rows : list row) (x : row) (k : Z) :
  k <> id x ->
  find (fun r => Z.eqb (id r) k) (rows ++ [x]) =
  find (fun r => Z.eqb (id r) k) rows.
Proof.
  intros Hk. induction rows as [|y rows IH]; simpl.
  - destruct (id x =? k) eqn:E; [|reflexivity].
    apply Z.eqb_eq in E. congruence.
  - destruct (id y =? k); [reflexivity | exact IH].
Qed.

Lemma bind_get_loc {L A} (k : L -> M L A) (s : St L) :
  (app <- get_loc ;; k app) s = k (loc s) s.
Proof. reflexivity. Qed.

(** One connection: the tick advances and nothing else moves. *)
Lemma connect_run {L A} (statements : M L A) (s : St L) :
  sqlite.connect statements s =
    match sqlite_outcome (library (ext s)) (tick (ext s)) with
    | Returns _ => statements (after_ask s)
    | Throws msg => (Raise (LibraryError msg), after_ask s)
    end.
Proof.
  unfold sqlite.connect, after_ask. unfold_m.
  destruct (sqlite_outcome (library (ext s)) (tick (ext s))); reflexivity.
Qed.

(** The INSERT of [log_tweet], once the connection is open and a rowid is
    left. *)
Lemma log_tweet_appends (s : St main.App) (text : string)
    (tweet_id : option string) (status : string)
    (error_message : option string) :
  exists s',
    main.log_tweet text tweet_id status error_message s
      = (Return (next_rowid (main.db (loc s))), s') /\
    Forall (fun r => id r < next_rowid (main.db (loc s)))
           (tweet_logs (main.db (loc s))) /\
    sqlite_sequence (main.db (loc s)) < next_rowid (main.db (loc s)) /\
    tweet_logs (main.db (loc s')) =
      tweet_logs (main.db (loc s)) ++
      [{| id := next_rowid (main.db (loc s)); database.tweet_id := tweet_id;
          database.text := text; database.status := status;
          retry_count := 0; database.error_message := error_message;
          created_at := clock (library (ext s)) (tick (ext s));
          updated_at := clock (library (ext s)) (tick (ext s)) |}] /\
    sqlite_sequence (main.db (loc s')) = next_rowid (main.db (loc s)) /\
    select_by_id (main.db (loc s')) (next_rowid (main.db (loc s))) =
      Some {| id := next_rowid (main.db (loc s)); database.tweet_id := tweet_id;
              database.text := text; database.status := status;
              retry_count := 0; database.error_message := error_message;
              created_at := clock (library (ext s)) (tick (ext s));
              updated_at := clock (library (ext s)) (tick (ext s)) |} /\
    (forall k, k <> next_rowid (main.db (loc s)) ->
       select_by_id (main.db (loc s')) k = select_by_id (main.db (loc s)) k).
Proof.
  unfold main.log_tweet, log_tweet. unfold_m. simpl.
  eexists. split; [reflexivity|]. simpl.
  split.
  { eapply Forall_impl; [apply max_rowid_Forall|].
    intros r Hr. simpl in Hr. unfold next_rowid. lia. }
  split; [unfold next_rowid; lia|].
  split; [reflexivity|]. split; [reflexivity|]. split.
  - apply (select_inserted (main.db (loc s)) tweet_id text status error_message).
  - intros k Hk. unfold select_by_id. simpl.
    apply find_app_other. simpl. exact Hk.
Qed.

(** X10.  [log_tweet] stores what it is given under a new id, or raises
    and writes nothing.  When the connection is refused it raises the error
    of sqlite3; when the largest rowid has been used it raises "database or
    disk is full"; in both cases the tables and the trace are as they were.
    Otherwise it returns an id that is larger than every id in the table
    and than the AUTOINCREMENT counter; the table is the old one with one
    row appended, which holds the arguments, a retry count of 0 and the
    time of the insert as both timestamps; selecting the new id gives that
    row, and every other id selects what it selected before. *)
Theorem log_tweet_stores_a_fresh_row (s : St main.App) (text : string)
    (tweet_id : option string) (status : string)
    (error_message : option string) :
  match sqlite_outcome (library (ext s)) (tick (ext s)) with
  | Throws msg =>
      routes.log_tweet text tweet_id status error_message s
        = (Raise (LibraryError msg), after_ask s)
  | Returns _ =>
      if next_rowid (main.db (loc s)) <=? sqlite.max_rowid_value then
        exists s',
          routes.log_tweet text tweet_id status error_message s
            = (Return (next_rowid (main.db (loc s))), s') /\
          Forall (fun r => id r < next_rowid (main.db (loc s)))
                 (tweet_logs (main.db (loc s))) /\
          sqlite_sequence (main.db (loc s)) < next_rowid (main.db (loc s)) /\
          tweet_logs (main.db (loc s')) =
            tweet_logs (main.db (loc s)) ++
            [{| id := next_rowid (main.db (loc s));
                database.tweet_id := tweet_id;
                database.text := text; database.status := status;
                retry_count := 0; database.error_message := error_message;
                created_at := clock (library (ext s)) (S (tick (ext s)));
                updated_at := clock (library (ext s)) (S (tick (ext s))) |}] /\
          sqlite_sequence (main.db (loc s')) = next_rowid (main.db (loc s)) /\
          select_by_id (main.db (loc s')) (next_rowid (main.db (loc s))) =
            Some {| id := next_rowid (main.db (loc s));
                    database.tweet_id := tweet_id;
                    database.text := text; database.status := status;
                    retry_count := 0; database.error_message := error_message;
                    created_at := clock (library (ext s)) (S (tick (ext s)));
                    updated_at := clock (library (ext s)) (S (tick (ext s))) |} /\
          (forall k, k <> next_rowid (main.db (loc s)) ->
             select_by_id (main.db (loc s')) k
               = select_by_id (main.db (loc s)) k) /\
          trace (ext s') =
            trace (ext s) ++ [DbInsert (next_rowid (main.db (loc s))) status]
      else
        routes.log_tweet text tweet_id status error_message s
          = (Raise (LibraryError sqlite.full_error), after_ask s)
  end.
Proof.
  unfold routes.log_tweet, db_manager.log_tweet. rewrite connect_run.
  destruct (sqlite_outcome (library (ext s)) (tick (ext s))) as [u|msg];
    [|reflexivity].
  rewrite bind_get_loc. simpl.
  destruct (next_rowid (main.db (loc s)) <=? sqlite.max_rowid_value);
    [|reflexivity].
  destruct (log_tweet_appends (after_ask s) text tweet_id status error_message)
    as (s' & Hrun & Hlt & Hseq & Hrows & Hseq' & Hsel & Hother).
  exists s'. split; [exact Hrun|]. simpl in *.
  do 6 (split; [assumption|]).
  revert Hrun. unfold main.log_tweet, log_tweet. unfold_m. simpl.
  intros Hrun. inversion Hrun; subst. reflexivity.
Qed.

Lemma update_missing_rows (rows : list row) (k : Z) (f : row -> row) :
  find (fun r => Z.eqb (id r) k) rows = None ->
  map (fun r => if Z.eqb (id r) k then f r else r) rows = rows.
Proof.
  induction rows as [|x rows IH]; simpl; [reflexivity|].
  destruct (id x =? k); [discriminate|].
  intros H. rewrite (IH H). reflexivity.
Qed.

Lemma build_updates_truthy a b c d :
  Py.truthy_list (build_updates a b c d) = true.
Proof. destruct a, b, c, d; reflexivity. Qed.


Lemma updated_ids (rows : list row) (f : row -> row) (k : Z) :
  (forall r, id (f r) = id r) ->
  map id (map (fun r => if Z.eqb (id r) k then f r else r) rows) = map id rows.
Proof.
  intros Hf. rewrite map_map. apply map_ext.
  intros r. destruct (id r =? k); [apply Hf | reflexivity].
Qed.

(** X12.  The ids of the log stay unique: if no two rows share an id, the
    same holds after [log_tweet] and after [update_tweet_log], whatever
    their arguments; an update leaves the list of ids and the
    AUTOINCREMENT counter as they are. *)
Theorem log_ids_stay_unique (s : St main.App) (text status : string)
    (tweet_id error_message new_tweet_id new_status new_error_message
       : option string)
    (log_id : Z) (new_retry_count : option Z) :
  unique_ids (main.db (loc s)) ->
  unique_ids (main.db (loc (snd (main.log_tweet text tweet_id status
                                    error_message s)))) /\
  unique_ids (main.db (loc (snd (main.update_tweet_log log_id new_tweet_id
                                    new_status new_retry_count
                                    new_error_message s)))) /\
  map id (tweet_logs (main.db (loc (snd (main.update_tweet_log log_id
            new_tweet_id new_status new_retry_count new_error_message s)))))
    = map id (tweet_logs (main.db (loc s))) /\
  sqlite_sequence (main.db (loc (snd (main.update_tweet_log log_id
            new_tweet_id new_status new_retry_count new_error_message s))))
    = sqlite_sequence (main.db (loc s)).
Proof.
  unfold unique_ids. intros Hnd. split; [|split; [|split]].
  - unfold main.log_tweet, log_tweet. unfold_m. simpl.
    rewrite map_app. simpl. apply NoDup_app. split; [exact Hnd|]. split.
    + intros k Hk Hin. apply list_elem_of_singleton in Hin. subst k.
      apply list_elem_of_In, in_map_iff in Hk. destruct Hk as (r & Hr & Hin).
      apply max_rowid_ge in Hin. unfold next_rowid in Hr. lia.
    + apply NoDup_singleton.
  - unfold main.update_tweet_log, update_tweet_log.
    rewrite build_updates_truthy. unfold_m. simpl.
    rewrite updated_ids by (intros r; apply fold_assign_id). exact Hnd.
  - unfold main.update_tweet_log, update_tweet_log.
    rewrite build_updates_truthy. unfold_m. simpl.
    apply updated_ids. intros r; apply fold_assign_id.
  - unfold main.update_tweet_log, update_tweet_log.
    rewrite build_updates_truthy. unfold_m. simpl. reflexivity.
Qed.

(** X13.  Ids are never handed out twice: of two [log_tweet] calls with an
    [update_tweet_log] in between, the second returns the larger id. *)
Theorem log_ids_increase (s : St main.App) (text1 text2 status1 status2 : string)
    (log_id : Z) (new_tweet_id new_status new_error_message : option string)
    (new_retry_count : option Z) (id1 id2 : Z) :
  fst (main.log_tweet text1 None status1 None s) = Return id1 ->
  fst (main.log_tweet text2 None status2 None
         (snd (main.update_tweet_log log_id new_tweet_id new_status
                 new_retry_count new_error_message
                 (snd (main.log_tweet text1 None status1 None s)))))
    = Return id2 ->
  id1 < id2.
Proof.
  unfold main.update_tweet_log, update_tweet_log.
  rewrite build_updates_truthy.
  unfold main.log_tweet, log_tweet. unfold_m. simpl.
  intros H1 H2. inversion H1; subst id1. inversion H2; subst id2.
  unfold next_rowid at 2. simpl. lia.
Qed.

End log_store_properties.

Section app_config_properties.
Import main_lifecycle.

(** X14.  The configuration table is read back as it was written:
    [save_config] returns normally and touches nothing but the table
    [app_config]; [get_config] of the key just saved gives the value, of
    another key what it gave before, of a key never saved [None]; a second
    [save_config] of the same key replaces the value; [get_config] changes
    nothing. *)
Theorem save_config_get_config_round_trip (s : St Process)
    (key value value2 : string) :
  fst (save_config key value s) = Return tt /\
  app (loc (snd (save_config key value s))) = app (loc s) /\
  main_twitter_service (loc (snd (save_config key value s)))
    = main_twitter_service (loc s) /\
  fst (get_config key (snd (save_config key value s))) = Return (Some value) /\
  (forall other, other <> key ->
     fst (get_config other (snd (save_config key value s)))
       = fst (get_config other s)) /\
  (app_config (loc s) !! key = None -> fst (get_config key s) = Return None) /\
  fst (get_config key
         (snd (save_config key value2 (snd (save_config key value s)))))
    = Return (Some value2) /\
  snd (get_config key s) = s.
Proof.
  unfold save_config, get_config, database_queries.save_config,
    database_queries.get_config. unfold_m. simpl.
  split; [reflexivity|]. split; [reflexivity|]. split; [reflexivity|].
  split; [rewrite lookup_insert_eq; reflexivity|].
  split.
  { intros other Hne. rewrite lookup_insert_ne by congruence. reflexivity. }
  split; [intros ->; reflexivity|].
  split; [rewrite lookup_insert_eq; reflexivity|reflexivity].
Qed.

End app_config_properties.

Section recent_logs_properties.
Import database database_queries.

Lemma insert_desc_perm (r : row) (l : list row) :
  Permutation (insert_desc r l) (r :: l).
Proof.
  induction l as [|x l IH]; simpl; [reflexivity|].
  destruct (created_at r <=? created_at x); [|reflexivity].
  rewrite IH. apply perm_swap.
Qed.

Lemma insert_desc_sorted (r : row) (l : list row) :
  newest_first l -> newest_first (insert_desc r l).
Proof.
  unfold newest_first. induction 1 as [|x l Hs IH Hx]; simpl.
  - constructor; constructor.
  - destruct (created_at r <=? created_at x) eqn:E.
    + constructor; [exact IH|].
      apply Z.leb_le in E.
      rewrite (insert_desc_perm r l). constructor; assumption.
    + apply Z.leb_gt in E. constructor; [constructor; assumption|].
      constructor; [lia|].
      eapply Forall_impl; [exact Hx|]. simpl. intros a Ha. lia.
Qed.

Lemma order_by_from (rows acc : list row) :
  newest_first acc ->
  newest_first (fold_left (fun sorted r => insert_desc r sorted) rows acc) /\
  Permutation (fold_left (fun sorted r => insert_desc r sorted) rows acc)
              (acc ++ rows).
Proof.
  revert acc. induction rows as [|r rows IH]; intros acc Hacc; simpl.
  - rewrite app_nil_r. split; [exact Hacc | reflexivity].
  - destruct (IH (insert_desc r acc) (insert_desc_sorted r acc Hacc)) as [Hs Hp].
    split; [exact Hs|]. rewrite Hp, (insert_desc_perm r acc).
    rewrite <- Permutation_middle. reflexivity.
Qed.

Lemma order_by_sorted_perm (rows : list row) :
  newest_first (order_by_created_at_desc rows) /\
  Permutation (order_by_created_at_desc rows) rows.
Proof.
  unfold order_by_created_at_desc.
  destruct (order_by_from rows []) as [Hs Hp]; [constructor|].
  split; [exact Hs | exact Hp].
Qed.

Lemma in_firstn {A} (n : nat) (l : list A) (x : A) :
  In x (firstn n l) -> In x l.
Proof.
  revert n. induction l as [|y l IH]; intros n; destruct n; simpl; try tauto.
  intros [->|H]; [left; reflexivity | right; eapply IH; eauto].
Qed.

Lemma newest_first_firstn (n : nat) (l : list row) :
  newest_first l -> newest_first (firstn n l).
Proof.
  unfold newest_first. revert n.
  induction l as [|x l IH]; intros n Hs; destruct n; simpl;
    try constructor.
  - apply IH. inversion Hs; assumption.
  - inversion Hs as [|? ? _ Hx]; subst.
    apply Forall_forall. intros a Ha.
    apply list_elem_of_In in Ha. apply in_firstn in Ha.
    rewrite Forall_forall in Hx. apply Hx. apply list_elem_of_In. exact Ha.
Qed.

Lemma sorted_app_cross {A} (R : A -> A -> Prop) (l1 l2 : list A) :
  StronglySorted R (l1 ++ l2) ->
  forall a b, In a l1 -> In b l2 -> R a b.
Proof.
  induction l1 as [|x l1 IH]; simpl; intros Hs a b Ha Hb; [destruct Ha|].
  inversion Hs as [|? ? Hs' Hx]; subst.
  destruct Ha as [->|Ha]; [|exact (IH Hs' a b Ha Hb)].
  rewrite Forall_forall in Hx. apply Hx, list_elem_of_In, in_or_app.
  right; exact Hb.
Qed.

(** The SELECT of [get_recent_logs] with a limit that fits 64 bits: the
    rows it gives are in descending order of [created_at], and with the
    rows it leaves out they are the table; no row left out is newer than a
    row given.  With another limit it raises. *)
Lemma select_recent_newest (d : Database) (limit : Z) :
  if sqlite.int64 limit then
    exists logs rest,
      select_recent d limit = Return logs /\
      newest_first logs /\
      Permutation (logs ++ rest) (tweet_logs d) /\
      (forall r r', In r logs -> In r' rest ->
         created_at r' <= created_at r) /\
      length logs =
        (if limit <? 0 then length (tweet_logs d)
         else Nat.min (Z.to_nat limit) (length (tweet_logs d)))
  else select_recent d limit = Raise (LibraryError sqlite.overflow_error).
Proof.
  unfold select_recent, sql_limit.
  destruct (sqlite.int64 limit); [|reflexivity].
  destruct (order_by_sorted_perm (tweet_logs d)) as [Hs Hp].
  destruct (limit <? 0).
  - eexists; exists []. split; [reflexivity|].
    rewrite app_nil_r. split; [exact Hs|]. split; [exact Hp|].
    split; [intros r r' _ []|]. apply Permutation_length; exact Hp.
  - eexists;
      exists (skipn (Z.to_nat limit) (order_by_created_at_desc (tweet_logs d))).
    split; [reflexivity|].
    rewrite firstn_skipn.
    split; [apply newest_first_firstn; exact Hs|]. split; [exact Hp|].
    split.
    + intros r r' Hr Hr'. unfold newest_first in Hs.
      rewrite <- (firstn_skipn (Z.to_nat limit)) in Hs.
      exact (sorted_app_cross _ _ _ Hs r r' Hr Hr').
    + rewrite length_firstn, (Permutation_length Hp). reflexivity.
Qed.

Lemma get_recent_logs_run (limit : Z) (s : St main_lifecycle.Process) :
  main_lifecycle.get_recent_logs limit s =
    (match sqlite_outcome (library (ext s)) (tick (ext s)) with
     | Returns _ =>
         select_recent (main.db (main_lifecycle.app (loc s))) limit
     | Throws msg => Raise (LibraryError msg)
     end, after_ask s).
Proof.
  unfold main_lifecycle.get_recent_logs, db_manager.get_recent_logs.
  rewrite connect_run.
  destruct (sqlite_outcome (library (ext s)) (tick (ext s))); [|reflexivity].
  rewrite bind_get_loc. unfold main_lifecycle.db_of. simpl.
  destruct (select_recent (main.db (main_lifecycle.app (loc s))) limit);
    reflexivity.
Qed.

(** X15.  [get_recent_logs] changes neither the tables nor the trace.  It
    raises when the connection is refused, with the error of sqlite3, and
    when [limit] does not fit 64 bits, with the OverflowError of the
    binding.  Otherwise it gives the newest rows, newest first: the rows
    given and the rows left out are the table, and no row left out is
    newer than a row given; with a limit of 0 or more there are
    min(limit, number of rows) of them, with a negative limit all. *)
Theorem get_recent_logs_newest_first (limit : Z) (s : St main_lifecycle.Process) :
  loc (snd (main_lifecycle.get_recent_logs limit s)) = loc s /\
  trace (ext (snd (main_lifecycle.get_recent_logs limit s))) = trace (ext s) /\
  match sqlite_outcome (library (ext s)) (tick (ext s)) with
  | Throws msg =>
      fst (main_lifecycle.get_recent_logs limit s) = Raise (LibraryError msg)
  | Returns _ =>
      if sqlite.int64 limit then
        exists logs rest,
          fst (main_lifecycle.get_recent_logs limit s) = Return logs /\
          newest_first logs /\
          Permutation (logs ++ rest)
            (tweet_logs (main.db (main_lifecycle.app (loc s)))) /\
          (forall r r', In r logs -> In r' rest ->
             created_at r' <= created_at r) /\
          length logs =
            (if limit <? 0
             then length (tweet_logs (main.db (main_lifecycle.app (loc s))))
             else Nat.min (Z.to_nat limit)
                    (length (tweet_logs
                               (main.db (main_lifecycle.app (loc s))))))
      else
        fst (main_lifecycle.get_recent_logs limit s)
          = Raise (LibraryError sqlite.overflow_error)
  end.
Proof.
  rewrite get_recent_logs_run. simpl.
  split; [reflexivity|]. split; [reflexivity|].
  destruct (sqlite_outcome (library (ext s)) (tick (ext s))); [|reflexivity].
  pose proof (select_recent_newest
                (main.db (main_lifecycle.app (loc s))) limit) as Hsel.
  destruct (sqlite.int64 limit); [|exact Hsel].
  destruct Hsel as (logs & rest & Hrun & Hs & Hp & Hnew & Hlen).
  exists logs, rest. split; [exact Hrun|]. auto.
Qed.

Lemma get_logs_frame (limit : Z) (s : St main_lifecycle.Process) :
  loc (snd (main_lifecycle.get_logs limit s)) = loc s /\
  trace (ext (snd (main_lifecycle.get_logs limit s))) = trace (ext s).
Proof.
  unfold main_lifecycle.get_logs, try_except, bind.
  rewrite get_recent_logs_run.
  destruct (sqlite_outcome (library (ext s)) (tick (ext s))) as [u|msg];
    [destruct (select_recent _ limit)|];
    unfold utils_success.format_success_response,
      utils.format_error_response; unfold_m; simpl; auto.
Qed.

(** X16.  GET /api/logs changes neither the process nor the trace.  When
    [get_recent_logs] returns, the answer is a success body that carries
    those rows and whose [total] is their number: at most [limit] for a
    limit of 0 or more, every row of the log for a negative one.  When it
    raises, the answer is the HTTPException 500 with the detail
    DATABASE_ERROR and the message of the error; that happens exactly when
    the connection is refused or [limit] does not fit 64 bits. *)
Theorem get_logs_total (limit : Z) (s : St main_lifecycle.Process) :
  loc (snd (main_lifecycle.get_logs limit s)) = loc s /\
  trace (ext (snd (main_lifecycle.get_logs limit s))) = trace (ext s) /\
  match fst (main_lifecycle.get_recent_logs limit s) with
  | Return logs =>
      exists body,
        fst (main_lifecycle.get_logs limit s) = Return body /\
        utils_success.sb_success body = true /\
        utils_success.logs (utils_success.sb_data body) = logs /\
        utils_success.total (utils_success.sb_data body)
          = Z.of_nat (length logs) /\
        (0 <= limit ->
         utils_success.total (utils_success.sb_data body) <= limit) /\
        (limit < 0 ->
         utils_success.total (utils_success.sb_data body)
           = Z.of_nat (length (tweet_logs
                                 (main.db (main_lifecycle.app (loc s))))))
  | Raise e =>
      exists detail,
        fst (main_lifecycle.get_logs limit s)
          = Raise (HTTPException 500 detail) /\
        error_code detail = "DATABASE_ERROR" /\
        details detail = Some (str e) /\
        eb_success detail = false
  end /\
  ((exists e, fst (main_lifecycle.get_recent_logs limit s) = Raise e) <->
   (exists msg,
      sqlite_outcome (library (ext s)) (tick (ext s)) = Throws msg) \/
   sqlite.int64 limit = false).
Proof.
  unfold main_lifecycle.get_logs, try_except, bind.
  rewrite get_recent_logs_run.
  pose proof (select_recent_newest
                (main.db (main_lifecycle.app (loc s))) limit) as Hsel.
  destruct (sqlite_outcome (library (ext s)) (tick (ext s))) as [u|msg];
    [destruct (sqlite.int64 limit) eqn:Hint|];
    [destruct Hsel as (logs & rest & -> & _ & _ & _ & Hlen)
    |rewrite Hsel|];
    unfold utils_success.format_success_response,
      utils.format_error_response; unfold_m; simpl.
  - split; [reflexivity|]. split; [reflexivity|]. split.
    + eexists. split; [reflexivity|]. simpl.
      do 3 (split; [reflexivity|]). split.
      * intros Hpos. rewrite Hlen.
        destruct (limit <? 0) eqn:E; [apply Z.ltb_lt in E; lia|]. lia.
      * intros Hneg. rewrite Hlen.
        apply Z.ltb_lt in Hneg. rewrite Hneg. reflexivity.
    + split; [intros [e He]; discriminate|].
      intros [[msg Hm]|Hf]; discriminate.
  - split; [reflexivity|]. split; [reflexivity|]. split.
    + eexists. split; [reflexivity|]. simpl. auto.
    + split; [intros _; right; reflexivity | intros _; eauto].
  - split; [reflexivity|]. split; [reflexivity|]. split.
    + eexists. split; [reflexivity|]. simpl. auto.
    + split; [intros _; left; eauto | intros _; eauto].
Qed.

End recent_logs_properties.

#[local] Instance keeps_preorder {L} (I : L -> Prop) : PreOrder (@keeps L I).
Proof. split; unfold keeps; [intros s H; exact H | intros a b c H1 H2 H; auto]. Qed.

Lemma moves_of_same_loc {L A} (R : St L -> St L -> Prop) (m : M L A) :
  (forall s s', same_loc s s' -> R s s') -> moves same_loc m -> moves R m.
Proof. intros HR Hm s r s' H. apply HR. exact (Hm _ _ _ H). Qed.

Lemma same_loc_keeps {L} (I : L -> Prop) (s s' : St L) :
  same_loc s s' -> keeps I s s'.
Proof. unfold same_loc, keeps. intros ->. auto. Qed.

Lemma same_loc_format_error_response {L} code message dets :
  moves same_loc (@utils.format_error_response L code message dets).
Proof.
  unfold utils.format_error_response, now. repeat moves_step.
Qed.

Lemma same_loc_TweetResponse_new {L} ok tid msg created :
  moves same_loc (@models.TweetResponse.new L ok tid msg created).
Proof. unfold models.TweetResponse.new. repeat moves_step. Qed.

Section publish_frame.
Import models.
Context (old : list database.row) (log_id : Z) (text : string) (ts : Z)
  (st : config.Settings).
Hypothesis Hfresh : database.max_rowid old < log_id.

Lemma update_tweet_log_keeps_appended new_tweet_id new_status
    new_error_message :
  moves (keeps (appended old log_id text ts st))
    (main.update_tweet_log log_id new_tweet_id (Some new_status) None
       new_error_message).
Proof.
  intros s r s' H (row & Hrows & Hid & Htext & Hts & Hrc & Hseq & Hst).
  revert H. unfold main.update_tweet_log, database.update_tweet_log.
  rewrite build_updates_truthy. unfold_m. simpl. intros H.
  inversion H; subst; clear H.
  set (f := fold_left
              (database.assign (clock (library (ext s)) (tick (ext s))))
              (database.build_updates new_tweet_id (Some new_status) None
                 new_error_message)).
  assert (Hf : database.id (f row) = database.id row /\
               database.text (f row) = database.text row /\
               database.created_at (f row) = database.created_at row /\
               database.retry_count (f row) = database.retry_count row).
  { subst f. destruct new_tweet_id, new_error_message; simpl; auto. }
  destruct Hf as (Hf1 & Hf2 & Hf3 & Hf4).
  exists (f row). unfold main.with_db, database.sql_update. simpl.
  rewrite Hrows, map_app. simpl. rewrite Z.eqb_refl.
  rewrite (update_missing_rows old (database.id row) _
             (find_fresh old (database.id row) Hfresh)).
  fold f. rewrite Hf4. auto 10.
Qed.

Lemma get_twitter_service_keeps_appended {A}
    (m : M twitter_client.TwitterService A) :
  moves (keeps (appended old log_id text ts st)) (main.get_twitter_service m).
Proof.
  intros s r s' H (row & Hrows & Hrest).
  destruct (get_twitter_service_frame _ _ _ _ H) as [Hdb Hset].
  exists row. rewrite Hdb, Hset. auto.
Qed.

(** The handler of POST /api/tweet after its insert: the appended row stays
    the last row, and the rows before it stay as they are. *)
Lemma after_insert_keeps_appended (tweet_data : TweetRequest.t) :
  TweetRequest.text tweet_data = text ->
  moves (keeps (appended old log_id text ts st))
    (try_except
       (result <- main.process_tweet_async tweet_data log_id ;;
        TweetResponse.new true (Some (twitter_client.tweet_id result))
          "推文发布成功" (Some (twitter_client.created_at result)))
       (fun e =>
          match e with
          | TwitterClientError _ =>
              main.update_tweet_log log_id None (Some "failed") None
                (Some (str e)) ;;
              detail <- utils.format_error_response
                          "TWITTER_ERROR" "推文发布失败" (Some (str e)) ;;
              raise (HTTPException 400 detail)
          | _ =>
              main.update_tweet_log log_id None (Some "failed") None
                (Some (str e)) ;;
              detail <- utils.format_error_response
                          "INTERNAL_ERROR" "服务器内部错误" (Some (str e)) ;;
              raise (HTTPException 500 detail)
          end)).
Proof.
  intros Htext. unfold main.process_tweet_async.
  repeat first
    [ apply update_tweet_log_keeps_appended
    | apply get_twitter_service_keeps_appended
    | apply (moves_of_same_loc _ _ (same_loc_keeps _)),
        same_loc_format_error_response
    | apply (moves_of_same_loc _ _ (same_loc_keeps _)),
        same_loc_TweetResponse_new
    | moves_step ].
Qed.

End publish_frame.

Section publish_properties.
Import models.

(** X17.  A request that passes the validation adds exactly one row to the
    log and leaves every row that was there as it is: the new row is the
    last one, under the next id, with the request's text and the time of
    the insert; its retry count is 0 however often the adapter retried; the
    counter is at its id and the settings are untouched. *)
Theorem post_api_tweet_appends_one_row text media reply_to (s : St main.App) :
  TweetRequest.text_ok text = true ->
  exists resp s' row,
    main.post_api_tweet text media reply_to s = (Return resp, s') /\
    database.tweet_logs (main.db (loc s')) =
      database.tweet_logs (main.db (loc s)) ++ [row] /\
    database.id row = database.next_rowid (main.db (loc s)) /\
    database.text row = text /\
    database.created_at row = clock (library (ext s)) (tick (ext s)) /\
    database.retry_count row = 0 /\
    database.sqlite_sequence (main.db (loc s')) = database.id row /\
    main.settings (loc s') = main.settings (loc s).
Proof.
  intros Hok.
  set (tweet_data := {| TweetRequest.text := text; TweetRequest.media := media;
                        TweetRequest.reply_to := reply_to |}).
  set (I := appended (database.tweet_logs (main.db (loc s)))
              (database.next_rowid (main.db (loc s))) text
              (clock (library (ext s)) (tick (ext s)))
              (main.settings (loc s))).
  assert (Hfresh : database.max_rowid (database.tweet_logs (main.db (loc s)))
                   < database.next_rowid (main.db (loc s)))
    by (unfold database.next_rowid; lia).
  destruct (main.create_tweet tweet_data s) as [r s2] eqn:Hrun.
  assert (HI : I (loc s2)).
  { revert Hrun. unfold main.create_tweet, try_except at 1, bind at 1.
    destruct (main.log_tweet (TweetRequest.text tweet_data) None "processing"
                None s) as [rl s1] eqn:Hlog.
    assert (Hs1 : rl = Return (database.next_rowid (main.db (loc s))) /\
                  I (loc s1)).
    { revert Hlog. unfold main.log_tweet, database.log_tweet. unfold_m. simpl.
      intros Hlog. inversion Hlog; subst. split; [reflexivity|].
      eexists. simpl. split; [reflexivity|]. auto 10. }
    destruct Hs1 as [-> HI1].
    match goal with
    | |- (let (_, _) := ?inner s1 in _) = _ -> _ =>
        destruct (inner s1) as [r1 s1'] eqn:Hinner;
        assert (HI2 : I (loc s1'))
    end.
    { exact (after_insert_keeps_appended _ _ text _ _ Hfresh tweet_data
               eq_refl _ _ _ Hinner HI1). }
    destruct r1 as [resp|e].
    - intros H; inversion H; subst. exact HI2.
    - destruct e; intros H.
      1-5: revert H; unfold utils.format_error_response; unfold_m; simpl;
        intros H; inversion H; subst; exact HI2.
      inversion H; subst. exact HI2. }
  rewrite (post_api_tweet_accepted _ _ _ _ _ _ Hok Hrun).
  assert (Hresp : exists resp s',
    match r with
    | Return resp => main.respond 200 (main.TweetBody resp) s2
    | Raise (HTTPException code detail) =>
        main.respond code (main.Detail detail) s2
    | Raise (TwitterClientError m) =>
        main.twitter_error_handler (TwitterClientError m) s2
    | Raise e => main.general_exception_handler e s2
    end = (Return resp, s') /\ loc s' = loc s2).
  { unfold main.twitter_error_handler, main.general_exception_handler,
      main.respond, utils.format_error_response.
    destruct r as [resp|[]]; unfold_m; simpl; eauto. }
  destruct Hresp as (resp & s' & Hr & Hloc).
  destruct HI as (row & Hrows & Hid & Htext & Hts & Hrc & Hseq & Hst).
  exists resp, s', row. rewrite Hr, Hloc. split; [reflexivity|].
  rewrite Hseq, Hid. auto 10.
Qed.

(** X18.  When the adapter call returns and the tweet's [created_at] is a
    datetime, the caller receives 200 with the id and the creation time of
    the posted tweet, and the row of the attempt ends "success" with no
    error message. *)
Theorem publish_success text media reply_to (s : St main.App) log_id s1
    result s2 d :
  TweetRequest.text_ok text = true ->
  main.log_tweet text None "processing" None s = (Return log_id, s1) ->
  main.get_twitter_service (twitter_client.create_tweet text media reply_to) s1
    = (Return result, s2) ->
  parse_datetime (library (ext s)) (twitter_client.created_at result) = Some d ->
  exists s',
    main.post_api_tweet text media reply_to s =
      (Return {| main.status_code := 200;
                 main.body :=
                   main.TweetBody
                     {| TweetResponse.success := true;
                        TweetResponse.tweet_id :=
                          Some (twitter_client.tweet_id result);
                        TweetResponse.message := "推文发布成功";
                        TweetResponse.created_at := Some d |} |}, s') /\
    trace (ext s') =
      trace (ext s2) ++ [DbUpdate log_id (Some "success"); HttpResponse 200] /\
    logged s' log_id text "success" None.
Proof.
  intros Hok Hlog E Hparse.
  set (tweet_data := {| TweetRequest.text := text; TweetRequest.media := media;
                        TweetRequest.reply_to := reply_to |}).
  destruct (create_tweet_run tweet_data s) as (log_id' & s1' & Hlog' & _ & Hrun).
  simpl in Hlog'. rewrite Hlog in Hlog'. inversion Hlog'; subst log_id' s1'.
  destruct (Hrun _ _ E) as (r & s3 & Hhandler & Hcases).
  rewrite Hparse in Hcases. destruct Hcases as (-> & Htr3 & Hrow).
  rewrite (post_api_tweet_accepted _ _ _ _ _ _ Hok Hhandler).
  match goal with
  | |- context [main.respond ?c ?b s3] =>
      destruct (respond_run s3 c b) as (s4 & Hresp & Hloc4 & Htr4)
  end.
  exists s4. split; [exact Hresp|]. split.
  - rewrite Htr4, Htr3, <- app_assoc. reflexivity.
  - unfold logged in *. rewrite Hloc4. exact Hrow.
Qed.

End publish_properties.

(** The route over [main.log_tweet] and [main.update_tweet_log] is the
    route of [main]. *)
Lemma routes_over_main :
  routes.post_api_tweet main.log_tweet main.update_tweet_log
    = main.post_api_tweet.
Proof. reflexivity. Qed.

Section answers_rules.
Context {L : Type} (P : Library -> Prop).

Lemma answers_weaken {A} (Q Q' : result A -> Prop) (m : M L A) :
  (forall r, Q r -> Q' r) -> answers P Q m -> answers P Q' m.
Proof.
  intros HQ Hm s r s' HP H. destruct (Hm _ _ _ HP H). auto.
Qed.

Lemma answers_ret {A} (Q : result A -> Prop) (a : A) :
  Q (Return a) -> answers P Q (@ret L A a).
Proof. intros HQ s r s' _ H. inversion H; subst. auto. Qed.

Lemma answers_raise {A} (Q : result A -> Prop) (e : exn) :
  Q (Raise e) -> answers P Q (@raise L A e).
Proof. intros HQ s r s' _ H. inversion H; subst. auto. Qed.

Lemma answers_bind {A B} (Q1 : result A -> Prop) (Q : result B -> Prop)
    (m : M L A) (k : A -> M L B) :
  answers P Q1 m ->
  (forall a, Q1 (Return a) -> answers P Q (k a)) ->
  (forall e, Q1 (Raise e) -> Q (Raise e)) ->
  answers P Q (bind m k).
Proof.
  intros Hm Hk He s r s' HP H. unfold bind in H.
  destruct (m s) as [[a|e] s1] eqn:E; destruct (Hm _ _ _ HP E) as [Hlib H1].
  - rewrite <- Hlib in HP. destruct (Hk a H1 _ _ _ HP H) as [Hlib' HQ].
    split; [congruence | exact HQ].
  - inversion H; subst. auto.
Qed.

Lemma answers_try_except {A} (Q1 Q : result A -> Prop)
    (body : M L A) (handler : exn -> M L A) :
  answers P Q1 body ->
  (forall a, Q1 (Return a) -> Q (Return a)) ->
  (forall e, Q1 (Raise e) -> answers P Q (handler e)) ->
  answers P Q (try_except body handler).
Proof.
  intros Hb Ha Hh s r s' HP H. unfold try_except in H.
  destruct (body s) as [[a|e] s1] eqn:E; destruct (Hb _ _ _ HP E) as [Hlib H1].
  - inversion H; subst. auto.
  - rewrite <- Hlib in HP. destruct (Hh e H1 _ _ _ HP H) as [Hlib' HQ].
    split; [congruence | exact HQ].
Qed.

Lemma answers_format_error_response (code message : string)
    (dets : option string) :
  answers P
    (fun r => exists d, r = Return d /\ error_code d = code /\
                        details d = dets /\ eb_success d = false)
    (@utils.format_error_response L code message dets).
Proof.
  intros s r s' _ H. revert H. unfold utils.format_error_response.
  unfold_m. simpl. intros H. inversion H; subst. simpl. eauto 10.
Qed.

Lemma answers_TweetResponse_new tweet_id message created :
  answers P
    (fun r => match r with
              | Return resp => models.TweetResponse.success resp = true
              | Raise (ValidationError _) => True
              | Raise _ => False
              end)
    (@models.TweetResponse.new L true tweet_id message created).
Proof.
  intros s r s' _ H. revert H. unfold models.TweetResponse.new.
  unfold_m. simpl.
  destruct created as [raw|]; [destruct (parse_datetime _ raw)|];
    intros H; inversion H; subst; simpl; auto.
Qed.

End answers_rules.

Lemma answers_get_twitter_service (P : Library -> Prop) text media reply_to :
  answers P (fun _ => True)
    (main.get_twitter_service
       (twitter_client.create_tweet text media reply_to)).
Proof.
  intros s r s' _ H.
  destruct (get_twitter_service_only adapter_event _
              (create_tweet_only_adapter text media reply_to) _ _ _ H)
    as [Hlib _].
  auto.
Qed.

Lemma answers_respond (P : Library -> Prop) code body :
  answers P
    (fun r => r = Return {| main.status_code := code; main.body := body |})
    (main.respond code body).
Proof.
  intros s r s' _ H. revert H. unfold main.respond. unfold_m. simpl.
  intros H. inversion H; subst. auto.
Qed.

(** The two store operations of the route, over the connection. *)
Lemma db_update_tweet_log_run (s : St main.App) log_id tweet_id status
    error_message r s' :
  routes.update_tweet_log log_id tweet_id (Some status) None error_message s
    = (r, s') ->
  library (ext s') = library (ext s) /\
  match sqlite_outcome (library (ext s)) (tick (ext s)) with
  | Throws msg => r = Raise (LibraryError msg)
  | Returns _ =>
      if sqlite.int64 log_id then r = Return tt
      else r = Raise (LibraryError sqlite.overflow_error)
  end.
Proof.
  unfold routes.update_tweet_log, db_manager.update_tweet_log.
  rewrite build_updates_truthy, connect_run. simpl.
  destruct (sqlite_outcome (library (ext s)) (tick (ext s))) as [u|msg].
  - destruct (sqlite.int64 log_id).
    + intros H.
      destruct (update_tweet_log_run (after_ask s) log_id tweet_id status
                  error_message) as (s1 & Hrun & _ & Hlib & _).
      unfold main.update_tweet_log in Hrun. rewrite Hrun in H.
      inversion H; subst. auto.
    + intros H. inversion H; subst. auto.
  - intros H. inversion H; subst. auto.
Qed.

Lemma db_log_tweet_run (s : St main.App) text status r s' :
  routes.log_tweet text None status None s = (r, s') ->
  library (ext s') = library (ext s) /\
  match sqlite_outcome (library (ext s)) (tick (ext s)) with
  | Throws msg => r = Raise (LibraryError msg)
  | Returns _ =>
      if database.next_rowid (main.db (loc s)) <=? sqlite.max_rowid_value
      then r = Return (database.next_rowid (main.db (loc s)))
      else r = Raise (LibraryError sqlite.full_error)
  end.
Proof.
  unfold routes.log_tweet, db_manager.log_tweet.
  rewrite connect_run.
  destruct (sqlite_outcome (library (ext s)) (tick (ext s))) as [u|msg].
  - rewrite bind_get_loc. simpl.
    destruct (database.next_rowid (main.db (loc s)) <=? sqlite.max_rowid_value).
    + intros H. revert H. unfold database.log_tweet. unfold_m. simpl.
      intros H. inversion H; subst. auto.
    + intros H. inversion H; subst. auto.
  - intros H. inversion H; subst. auto.
Qed.

Lemma next_rowid_positive (d : database.Database) :
  1 <= database.next_rowid d.
Proof.
  unfold database.next_rowid.
  assert (0 <= database.max_rowid (database.tweet_logs d)).
  { induction (database.tweet_logs d) as [|x l IH]; simpl; lia. }
  lia.
Qed.

Section after_insert.
Import models.
Context (P : Library -> Prop) (refused : Prop)
  (update_tweet_log : Z -> option string -> option string -> option Z
                      -> option string -> M main.App unit)
  (log_id : Z).
Hypothesis Hupdate : forall tweet_id status error_message,
  answers P (stored refused)
    (update_tweet_log log_id tweet_id (Some status) None error_message).

Lemma process_tweet_async_answers (tweet_data : TweetRequest.t) :
  answers P (fun _ => True)
    (routes.process_tweet_async update_tweet_log tweet_data log_id).
Proof.
  unfold routes.process_tweet_async.
  apply (answers_try_except P (fun _ => True)); [|auto|].
  - apply (answers_bind P (fun _ => True));
      [apply answers_get_twitter_service | | auto].
    intros result _.
    apply (answers_bind P (stored refused)); [apply Hupdate | | auto].
    intros [] _. apply answers_ret. exact I.
  - intros e _.
    apply (answers_bind P (stored refused)); [apply Hupdate | | auto].
    intros [] _. apply answers_raise. exact I.
Qed.

(** After the insert: the handler gives a response that reports a success
    or one of its two HTTP errors; the error of a refused [update] in an
    [except] block is the only other thing that leaves it. *)
Lemma create_tweet_inner_answers (tweet_data : TweetRequest.t) :
  answers P (handled refused)
    (routes.create_tweet_inner update_tweet_log tweet_data log_id).
Proof.
  unfold routes.create_tweet_inner.
  apply (answers_try_except P
           (fun r => match r with
                     | Return resp => TweetResponse.success resp = true
                     | Raise _ => True
                     end)).
  - apply (answers_bind P (fun _ => True));
      [apply process_tweet_async_answers | | auto].
    intros result _.
    eapply answers_weaken; [|apply answers_TweetResponse_new].
    intros [resp|e]; auto.
  - intros resp Hs. exact Hs.
  - intros e _.
    assert (Hblock : forall code err message,
      (code = 400 /\ err = "TWITTER_ERROR" \/
       code = 500 /\ err = "INTERNAL_ERROR") ->
      answers P (handled refused)
        (update_tweet_log log_id None (Some "failed") None (Some (str e)) ;;
         detail <- utils.format_error_response err message (Some (str e)) ;;
         raise (HTTPException code detail))).
    { intros code err message Hcode.
      apply (answers_bind P (stored refused)); [apply Hupdate | |].
      - intros [] _.
        eapply answers_bind; [apply answers_format_error_response | |].
        + intros d (d' & Hd & Herr & _ & Hsucc). inversion Hd; subst d'.
          apply answers_raise. simpl. split; [exact Hsucc|].
          destruct Hcode as [[-> ->]|[-> ->]]; auto.
        + intros e0 (d' & Hd & _). discriminate.
      - intros e0 [Hr|[Href (msg & Hr)]]; [discriminate|].
        inversion Hr; subst. exact Href. }
    destruct e; apply Hblock; auto.
Qed.

End after_insert.

Section served_answers.
Import models.

Lemma served_update_answers (log_id : Z) tweet_id status error_message :
  answers (fun _ => True) (stored True)
    (routes.update_tweet_log log_id tweet_id (Some status) None error_message).
Proof.
  intros s r s' _ H.
  destruct (db_update_tweet_log_run _ _ _ _ _ _ _ H) as [Hlib Hr].
  split; [exact Hlib|]. unfold stored.
  destruct (sqlite_outcome (library (ext s)) (tick (ext s)));
    [destruct (sqlite.int64 log_id)|]; subst; eauto.
Qed.

Lemma served_update_returns (log_id : Z) tweet_id status error_message :
  sqlite.int64 log_id = true ->
  answers store_works (stored False)
    (routes.update_tweet_log log_id tweet_id (Some status) None error_message).
Proof.
  intros Hid s r s' Hworks H.
  destruct (db_update_tweet_log_run _ _ _ _ _ _ _ H) as [Hlib Hr].
  split; [exact Hlib|]. unfold stored.
  rewrite (Hworks (tick (ext s))), Hid in Hr. auto.
Qed.

(** The handler over the store: what it returns or raises, by what the
    insert did. *)
Lemma served_create_tweet_run (P : Library -> Prop) (refused : Prop)
    (tweet_data : TweetRequest.t) (s : St main.App) r s' :
  P (library (ext s)) ->
  (forall log_id s1,
     routes.log_tweet (TweetRequest.text tweet_data) None "processing" None s
       = (Return log_id, s1) ->
     forall tweet_id status error_message,
       answers P (stored refused)
         (routes.update_tweet_log log_id tweet_id (Some status) None
            error_message)) ->
  (forall msg s1,
     routes.log_tweet (TweetRequest.text tweet_data) None "processing" None s
       = (Raise (LibraryError msg), s1) -> refused) ->
  routes.create_tweet routes.log_tweet routes.update_tweet_log tweet_data s
    = (r, s') ->
  match r with
  | Return resp => TweetResponse.success resp = true
  | Raise (HTTPException code detail) =>
      eb_success detail = false /\
      (code = 400 /\ error_code detail = "TWITTER_ERROR" \/
       code = 500 /\ error_code detail = "INTERNAL_ERROR" \/
       refused /\ code = 500 /\ error_code detail = "UNEXPECTED_ERROR")
  | Raise _ => False
  end.
Proof.
  intros HP Hupd Hlog. unfold routes.create_tweet.
  unfold try_except at 1. unfold bind at 1.
  destruct (routes.log_tweet (TweetRequest.text tweet_data) None "processing"
              None s) as [[log_id|e] s1] eqn:E.
  - destruct (db_log_tweet_run _ _ _ _ _ E) as [Hlib1 _].
    destruct (routes.create_tweet_inner routes.update_tweet_log tweet_data
                log_id s1) as [r1 s2] eqn:I.
    assert (HP1 : P (library (ext s1))) by (rewrite Hlib1; exact HP).
    destruct (create_tweet_inner_answers P refused routes.update_tweet_log
                log_id (Hupd log_id s1 eq_refl) tweet_data _ _ _ HP1 I)
      as [_ Hh].
    destruct r1 as [resp|e].
    + intros H. inversion H; subst. exact Hh.
    + destruct e; simpl in Hh; try contradiction.
      * unfold utils.format_error_response. unfold_m. simpl.
        intros H. inversion H; subst. simpl. auto 10.
      * intros H. inversion H; subst. simpl.
        destruct Hh as [Hs [Hc|Hc]]; auto.
  - destruct (db_log_tweet_run _ _ _ _ _ E) as [_ Hr].
    assert (He : exists msg, e = LibraryError msg).
    { destruct (sqlite_outcome (library (ext s)) (tick (ext s)));
        [destruct (_ <=? _)|]; inversion Hr; eauto. }
    destruct He as [msg ->].
    unfold utils.format_error_response. unfold_m. simpl.
    intros H. inversion H; subst. simpl.
    split; [reflexivity|]. right; right.
    split; [exact (Hlog msg s1 eq_refl) | auto].
Qed.

(** X19.  POST /api/tweet always answers, and with an answer of one of
    five kinds: 422 for a text out of range; 200 with a tweet body that
    reports a success; 400 with the detail TWITTER_ERROR; 500 with the
    detail INTERNAL_ERROR; 500 with the detail UNEXPECTED_ERROR.  The
    bodies of the application-wide exception handlers never come out of
    this route.  The last kind needs the store to refuse: in a world where
    no connection is refused, and with a rowid left for the insert, the
    answer is of one of the first four kinds. *)
Theorem post_api_tweet_answers text media reply_to (s : St main.App) :
  exists resp s',
    served.post_api_tweet text media reply_to s = (Return resp, s') /\
    answer_kind True resp /\
    (store_works (library (ext s)) ->
     database.next_rowid (main.db (loc s)) <= sqlite.max_rowid_value ->
     answer_kind False resp) /\
    (main.status_code resp = 422 <-> TweetRequest.text_ok text = false).
Proof.
  unfold served.post_api_tweet, routes.post_api_tweet, TweetRequest.new.
  destruct (TweetRequest.text_ok text) eqn:Hok.
  2:{ unfold main.respond. unfold_m. simpl.
      eexists; eexists. split; [reflexivity|]. simpl.
      split; [left; auto|]. split; [intros _ _; left; auto|]. tauto. }
  set (tweet_data := {| TweetRequest.text := text; TweetRequest.media := media;
                        TweetRequest.reply_to := reply_to |}).
  unfold try_except, bind.
  destruct (routes.create_tweet routes.log_tweet routes.update_tweet_log
              tweet_data s) as [r s1] eqn:E.
  assert (Hall := served_create_tweet_run (fun _ => True) True tweet_data
                    s r s1 I
                    (fun log_id _ _ => served_update_answers log_id)
                    (fun _ _ _ => I) E).
  assert (Hworks : store_works (library (ext s)) ->
                   database.next_rowid (main.db (loc s))
                     <= sqlite.max_rowid_value ->
                   match r with
                   | Return resp => TweetResponse.success resp = true
                   | Raise (HTTPException code detail) =>
                       eb_success detail = false /\
                       (code = 400 /\ error_code detail = "TWITTER_ERROR" \/
                        code = 500 /\ error_code detail = "INTERNAL_ERROR" \/
                        False /\ code = 500 /\
                        error_code detail = "UNEXPECTED_ERROR")
                   | Raise _ => False
                   end).
  { intros Hw Hkey.
    apply (served_create_tweet_run store_works False tweet_data s r s1 Hw);
      [| |exact E].
    - intros log_id s2 Hlog.
      destruct (db_log_tweet_run _ _ _ _ _ Hlog) as [_ Hr].
      rewrite (Hw (tick (ext s))) in Hr.
      apply Z.leb_le in Hkey. rewrite Hkey in Hr. inversion Hr; subst log_id.
      intros tweet_id status error_message.
      apply served_update_returns. unfold sqlite.int64.
      apply Z.leb_le in Hkey.
      pose proof (next_rowid_positive (main.db (loc s))).
      unfold sqlite.max_rowid_value in Hkey.
      apply andb_true_iff. split; apply Z.leb_le; lia.
    - intros msg s2 Hlog.
      destruct (db_log_tweet_run _ _ _ _ _ Hlog) as [_ Hr].
      rewrite (Hw (tick (ext s))) in Hr.
      apply Z.leb_le in Hkey. rewrite Hkey in Hr. discriminate. }
  unfold main.respond. unfold_m.
  destruct r as [resp|e].
  - simpl. eexists; eexists. split; [reflexivity|]. simpl.
    split; [right; left; eauto|].
    split; [intros Hw Hk; right; left; eauto|].
    split; [discriminate | discriminate].
  - destruct e as [m|m|m|m|m|code detail]; try contradiction.
    simpl. eexists; eexists. split; [reflexivity|]. simpl.
    destruct Hall as [Hs Hc]. split.
    { destruct Hc as [[-> Hc]|[[-> Hc]|(_ & -> & Hc)]].
      - right; right; left. eauto.
      - right; right; right; left. eauto.
      - right; right; right; right. eauto 10. }
    split.
    { intros Hw Hk. destruct (Hworks Hw Hk) as [_ Hc'].
      destruct Hc' as [[-> Hc']|[[-> Hc']|([] & _)]].
      - right; right; left. eauto.
      - right; right; right; left. eauto. }
    split; [|discriminate].
    intros ->. destruct Hc as [[Hc _]|[[Hc _]|(_ & Hc & _)]]; discriminate.
Qed.

End served_answers.

Section startup_properties.
Import twitter_client main_lifecycle.

(** [authenticate] assigns [client] and [_authenticated] and nothing else of
    the adapter object. *)
Lemma authenticate_same_account (s : St TwitterService) (r : result bool)
    (s' : St TwitterService) :
  authenticate s = (r, s') ->
  username (loc s') = username (loc s) /\ email (loc s') = email (loc s) /\
  password (loc s') = password (loc s) /\
  cookies_file (loc s') = cookies_file (loc s).
Proof.
  destruct s as [self x]; destruct self as [u e p path jar0 flag];
    destruct x as [fs lib t tr].
  unfold authenticate, try_saved_cookies, full_login, _test_authentication,
    client_save_cookies, os_makedirs, client_login, client_load_cookies,
    os_path_exists, set_client, set_authenticated.
  unfold_m; simpl. intros H.
  destruct (fs !! path) as [jar|] eqn:Hfile; simpl in H;
    repeat first [rewrite Hfile in H; simpl in H | next_answer H];
    inversion H; subst; clear H; simpl; auto.
Qed.

(** [validate_config] on the settings of the process. *)
Lemma validate_settings_run (s : St Process) :
  if credentials_present (main.settings (app (loc s)))
  then validate_settings s = (Return true, s)
  else exists msg, validate_settings s = (Raise (ValueError msg), s).
Proof.
  destruct s as [[[st d svc] cfg own] x].
  destruct st as [u e p h po du l m rd c lf].
  unfold validate_settings, in_app, zoom, config.validate_config,
    credentials_present, with_app.
  unfold_m. simpl.
  destruct u, e, p; simpl; eauto.
Qed.

(** The warm-up: whatever [authenticate] does, the step returns, and only
    main.py's own name is assigned. *)
Lemma warm_up_run (s : St Process) svc :
  main_twitter_service (loc s) = Some svc ->
  exists s' svc',
    try_except (on_main_twitter_service authenticate ;; ret tt)
      (fun e => ret tt) s = (Return tt, s') /\
    loc s' = with_main_twitter_service (Some svc') (loc s) /\
    username svc' = username svc /\ email svc' = email svc /\
    password svc' = password svc /\ cookies_file svc' = cookies_file svc /\
    only client_event s s'.
Proof.
  intros Hsvc. unfold try_except, bind, on_main_twitter_service, ret.
  rewrite Hsvc.
  destruct (authenticate {| loc := svc; ext := ext s |}) as [r s1] eqn:E.
  destruct (authenticate_same_account _ _ _ E) as (H1 & H2 & H3 & H4).
  pose proof (authenticate_client_events _ _ _ E) as Honly. simpl in *.
  exists {| loc := with_main_twitter_service (Some (loc s1)) (loc s);
            ext := ext s1 |}, (loc s1).
  split; [destruct r; reflexivity|]. simpl. auto 10.
Qed.

(** [init_database]: the directory, then the connection that creates the
    tables. *)
Lemma init_database_run (s : St Process) (r : result unit) (s' : St Process) :
  init_database s = (r, s') ->
  loc s' = loc s /\ library (ext s') = library (ext s) /\
  trace (ext s') = trace (ext s) ++ [MakeDirs] /\
  match r with
  | Return _ =>
      makedirs_outcome (library (ext s)) (tick (ext s)) = Returns tt /\
      sqlite_outcome (library (ext s)) (S (tick (ext s))) = Returns tt
  | Raise e =>
      exists msg, e = LibraryError msg /\
        (makedirs_outcome (library (ext s)) (tick (ext s)) = Throws msg \/
         makedirs_outcome (library (ext s)) (tick (ext s)) = Returns tt /\
         sqlite_outcome (library (ext s)) (S (tick (ext s))) = Throws msg)
  end.
Proof.
  unfold init_database, db_manager.init_database, sqlite.connect, call.
  unfold_m. simpl.
  destruct (makedirs_outcome (library (ext s)) (tick (ext s))) as [[]|msg];
    simpl.
  - destruct (sqlite_outcome (library (ext s)) (S (tick (ext s))))
      as [[]|msg]; simpl; intros H; inversion H; subst; simpl; eauto 10.
  - intros H; inversion H; subst; simpl; eauto 10.
Qed.

(** Every run of [startup_event]. *)
Lemma startup_event_run (s : St Process) (r : result unit) (s' : St Process) :
  startup_event s = (r, s') ->
  app (loc s') = app (loc s) /\ app_config (loc s') = app_config (loc s) /\
  library (ext s') = library (ext s) /\
  match r with
  | Return _ =>
      credentials_present (main.settings (app (loc s))) = true /\
      makedirs_outcome (library (ext s)) (tick (ext s)) = Returns tt /\
      sqlite_outcome (library (ext s)) (S (tick (ext s))) = Returns tt /\
      exists svc,
        main_twitter_service (loc s') = Some svc /\
        username svc = config.twitter_username (main.settings (app (loc s))) /\
        email svc = config.twitter_email (main.settings (app (loc s))) /\
        password svc = config.twitter_password (main.settings (app (loc s))) /\
        cookies_file svc = config.cookies_file (main.settings (app (loc s)))
  | Raise (ValueError _) =>
      credentials_present (main.settings (app (loc s))) = false /\ s' = s
  | Raise (LibraryError msg) =>
      credentials_present (main.settings (app (loc s))) = true /\
      (makedirs_outcome (library (ext s)) (tick (ext s)) = Throws msg \/
       makedirs_outcome (library (ext s)) (tick (ext s)) = Returns tt /\
       sqlite_outcome (library (ext s)) (S (tick (ext s))) = Throws msg) /\
      loc s' = loc s /\ trace (ext s') = trace (ext s) ++ [MakeDirs]
  | Raise _ => False
  end.
Proof.
  unfold startup_event. unfold try_except at 1. unfold bind at 1.
  pose proof (validate_settings_run s) as Hv.
  destruct (credentials_present (main.settings (app (loc s)))) eqn:Hc.
  - rewrite Hv. unfold bind at 1.
    destruct (init_database s) as [rd s1] eqn:Hd.
    destruct (init_database_run _ _ _ Hd) as (Hloc1 & Hlib1 & Htr1 & Hrd).
    destruct rd as [[]|e].
    + unfold bind at 1, get_loc at 1. unfold bind at 1, set_loc at 1.
      match goal with
      | |- (let (_, _) := try_except _ _ ?st in _) = _ -> _ =>
          destruct (warm_up_run st _ eq_refl)
            as (s2 & svc' & Hw & Hloc2 & Hu & He & Hp & Hcf & Hlib2 & _);
          rewrite Hw
      end.
      simpl in *. intros H; inversion H; subst r s'; clear H.
      rewrite Hloc1 in *. rewrite Hloc2, Hlib2, Hlib1. simpl.
      do 3 (split; [reflexivity|]). split; [reflexivity|].
      destruct Hrd as [Hdirs Hsql].
      split; [exact Hdirs|]. split; [exact Hsql|]. exists svc'. auto 10.
    + destruct Hrd as (msg & -> & Hrd). unfold raise.
      intros H; inversion H; subst r s'; clear H.
      rewrite Hloc1. auto 10.
  - destruct Hv as [msg Hv]. rewrite Hv. unfold raise.
    intros H; inversion H; subst. auto.
Qed.

(** X20.  The start-up, by what the world answers.  With a credential
    missing it raises a ValueError and nothing is done.  Otherwise it makes
    the data directory and opens the database: when [os.makedirs] raises,
    or the connection that creates the tables, that error is raised and the
    process is as it was.  When both return, the start-up returns, also
    when the warm-up authentication fails, and main.py's name
    [twitter_service] then holds an adapter for the account and the cookie
    file of the settings. *)
Theorem startup_event_outcomes (s : St Process) :
  if credentials_present (main.settings (app (loc s))) then
    match makedirs_outcome (library (ext s)) (tick (ext s)) with
    | Throws msg =>
        fst (startup_event s) = Raise (LibraryError msg) /\
        loc (snd (startup_event s)) = loc s /\
        trace (ext (snd (startup_event s))) = trace (ext s) ++ [MakeDirs]
    | Returns _ =>
        match sqlite_outcome (library (ext s)) (S (tick (ext s))) with
        | Throws msg =>
            fst (startup_event s) = Raise (LibraryError msg) /\
            loc (snd (startup_event s)) = loc s /\
            trace (ext (snd (startup_event s))) = trace (ext s) ++ [MakeDirs]
        | Returns _ =>
            fst (startup_event s) = Return tt /\
            app (loc (snd (startup_event s))) = app (loc s) /\
            exists svc,
              main_twitter_service (loc (snd (startup_event s))) = Some svc /\
              username svc
                = config.twitter_username (main.settings (app (loc s))) /\
              email svc
                = config.twitter_email (main.settings (app (loc s))) /\
              password svc
                = config.twitter_password (main.settings (app (loc s))) /\
              cookies_file svc
                = config.cookies_file (main.settings (app (loc s)))
        end
    end
  else
    (exists msg, fst (startup_event s) = Raise (ValueError msg)) /\
    snd (startup_event s) = s.
Proof.
  destruct (startup_event s) as [r s'] eqn:E. simpl.
  destruct (startup_event_run _ _ _ E) as (Happ & _ & _ & Hr).
  destruct (credentials_present (main.settings (app (loc s)))) eqn:Hc.
  - destruct (makedirs_outcome (library (ext s)) (tick (ext s)))
      as [[]|msg] eqn:Hdirs;
      [destruct (sqlite_outcome (library (ext s)) (S (tick (ext s))))
         as [[]|msg] eqn:Hsql|].
    + destruct r as [[]|[]]; try contradiction.
      * destruct Hr as (_ & _ & _ & Hsvc). auto.
      * destruct Hr as [Hr _]; discriminate.
      * destruct Hr as (_ & [Hr|[_ Hr]] & _); discriminate.
    + destruct r as [[]|[]]; try contradiction.
      * destruct Hr as (_ & _ & Hr & _); discriminate.
      * destruct Hr as [Hr _]; discriminate.
      * destruct Hr as (_ & [Hr|[_ Hr]] & Hloc & Htr); [discriminate|].
        inversion Hr; subst. auto.
    + destruct r as [[]|[]]; try contradiction.
      * destruct Hr as (_ & Hr & _); discriminate.
      * destruct Hr as [Hr _]; discriminate.
      * destruct Hr as (_ & [Hr|[Hr _]] & Hloc & Htr); [|discriminate].
        inversion Hr; subst. auto.
  - destruct r as [[]|[]]; try contradiction;
      try (destruct Hr as [Hr _]; discriminate).
    destruct Hr as [_ ->]. eauto.
Qed.

(** A computation of the application, run inside the process. *)
Lemma in_app_run {A} (m : M main.App A) (s : St Process) r a' x' :
  m {| loc := app (loc s); ext := ext s |} = (r, {| loc := a'; ext := x' |}) ->
  in_app m s = (r, {| loc := with_app a' (loc s); ext := x' |}).
Proof. intros H. unfold in_app, zoom. rewrite H. reflexivity. Qed.

(** X21.  The start-up assigns main.py's own name [twitter_service]; the
    name that [get_twitter_service] reads, in twitter_client.py, is assigned
    nowhere.  So in a process that went through the start-up every accepted
    POST /api/tweet is answered 500 INTERNAL_ERROR with the message of the
    missing service: a row is inserted and marked "failed", and no effect of
    the twikit client happens; and GET /health answers "unhealthy". *)
Theorem no_service_after_startup (s : St Process) (r : result unit)
    (s1 : St Process) text media reply_to :
  main.twitter_service (app (loc s)) = None ->
  startup_event s = (r, s1) ->
  models.TweetRequest.text_ok text = true ->
  (exists detail log_id s2,
     in_app (main.post_api_tweet text media reply_to) s1 =
       (Return {| main.status_code := 500; main.body := main.Detail detail |},
        s2) /\
     error_code detail = "INTERNAL_ERROR" /\
     details detail = Some "Twitter服务未初始化" /\
     trace (ext s2) =
       trace (ext s1) ++
       [DbInsert log_id "processing"; DbUpdate log_id (Some "failed");
        DbUpdate log_id (Some "failed"); HttpResponse 500]) /\
  (exists h s2,
     in_app main.health_check s1 = (Return h, s2) /\
     models.HealthResponse.status h = "unhealthy" /\
     models.HealthResponse.twitter_status h = "error" /\
     trace (ext s2) = trace (ext s1)).
Proof.
  intros Hnone Hstart Hok.
  destruct (startup_event_run _ _ _ Hstart) as (Happ & _ & _ & _).
  assert (Hnone1 : main.twitter_service (app (loc s1)) = None)
    by (rewrite Happ; exact Hnone).
  clear Hstart Happ Hnone. split.
  - set (a := {| loc := app (loc s1); ext := ext s1 |}).
    set (tweet_data := {| models.TweetRequest.text := text;
                          models.TweetRequest.media := media;
                          models.TweetRequest.reply_to := reply_to |}).
    destruct (create_tweet_run tweet_data a)
      as (log_id & a1 & Hlog & Htr1 & Hrun).
    destruct (log_tweet_run a text "processing")
      as (log_id' & a1' & Hlog' & _ & _ & Hsvc1 & _).
    simpl in Hlog. rewrite Hlog in Hlog'. inversion Hlog'; subst log_id' a1'.
    assert (E : main.get_twitter_service
                  (create_tweet (models.TweetRequest.text tweet_data)
                     (models.TweetRequest.media tweet_data)
                     (models.TweetRequest.reply_to tweet_data)) a1
                = (Raise (RuntimeError "Twitter服务未初始化"), a1)).
    { unfold main.get_twitter_service. rewrite Hsvc1. simpl. rewrite Hnone1.
      reflexivity. }
    destruct (Hrun _ _ E) as (r0 & a2 & Hhandler & (detail & -> & Hcode & Hdet & _)
                              & Htr2 & _).
    pose proof (post_api_tweet_accepted _ _ _ _ _ _ Hok Hhandler) as Hpost.
    simpl in Hpost.
    destruct (respond_run a2 500 (main.Detail detail)) as (a3 & Hresp & _ & Htr3).
    rewrite Hresp in Hpost. destruct a3 as [l3 x3].
    exists detail, log_id. eexists. split; [exact (in_app_run _ _ _ _ _ Hpost)|].
    split; [exact Hcode|]. split; [exact Hdet|].
    simpl in *. rewrite Htr3, Htr2, Htr1, <- !app_assoc. reflexivity.
  - unfold in_app, zoom, main.health_check, try_except, bind,
      main.get_twitter_service. simpl. rewrite Hnone1.
    unfold models.HealthResponse.new. unfold_m. simpl.
    eexists; eexists. split; [reflexivity|]. simpl. auto.
Qed.

End startup_properties.

Section running_properties.
Import models main_lifecycle.

Lemma get_twitter_service_keeps_no_service {A}
    (m : M twitter_client.TwitterService A) :
  moves (keeps no_service) (main.get_twitter_service m).
Proof.
  intros s r s' H Hnone. unfold no_service in *.
  unfold main.get_twitter_service in H. rewrite Hnone in H.
  inversion H; subst. exact Hnone.
Qed.

Lemma main_log_tweet_keeps_no_service text tweet_id status error_message :
  moves (keeps no_service) (main.log_tweet text tweet_id status error_message).
Proof.
  intros s r s' H Hnone. revert H. unfold main.log_tweet, database.log_tweet.
  unfold_m. simpl. intros H. inversion H; subst. exact Hnone.
Qed.

Lemma main_update_tweet_log_keeps_no_service log_id tweet_id status
    retry_count error_message :
  moves (keeps no_service)
    (main.update_tweet_log log_id tweet_id status retry_count error_message).
Proof.
  intros s r s' H Hnone. revert H.
  unfold main.update_tweet_log, database.update_tweet_log.
  rewrite build_updates_truthy. unfold_m. simpl.
  intros H. inversion H; subst. exact Hnone.
Qed.

Lemma connect_keeps {L A} (I : L -> Prop) (statements : M L A) :
  moves (keeps I) statements -> moves (keeps I) (sqlite.connect statements).
Proof.
  intros Hm s r s' H HI. rewrite connect_run in H.
  destruct (sqlite_outcome (library (ext s)) (tick (ext s))).
  - exact (Hm _ _ _ H HI).
  - inversion H; subst. exact HI.
Qed.

Lemma db_log_tweet_keeps_no_service text tweet_id status error_message :
  moves (keeps no_service)
    (routes.log_tweet text tweet_id status error_message).
Proof.
  unfold routes.log_tweet, db_manager.log_tweet. apply connect_keeps.
  repeat moves_step.
  apply main_log_tweet_keeps_no_service.
Qed.

Lemma db_update_tweet_log_keeps_no_service log_id tweet_id status
    retry_count error_message :
  moves (keeps no_service)
    (routes.update_tweet_log log_id tweet_id status retry_count error_message).
Proof.
  unfold routes.update_tweet_log, db_manager.update_tweet_log.
  rewrite build_updates_truthy. apply connect_keeps.
  repeat moves_step.
  apply main_update_tweet_log_keeps_no_service.
Qed.

Section any_store.
Context
  (log_tweet : string -> option string -> string -> option string
               -> M main.App Z)
  (update_tweet_log : Z -> option string -> option string -> option Z
                      -> option string -> M main.App unit).
Hypothesis Hlog : forall text tweet_id status error_message,
  moves (keeps no_service) (log_tweet text tweet_id status error_message).
Hypothesis Hupdate : forall log_id tweet_id status retry_count error_message,
  moves (keeps no_service)
    (update_tweet_log log_id tweet_id status retry_count error_message).

(** No route assigns the global of twitter_client.py. *)
Lemma post_api_tweet_keeps_no_service text media reply_to :
  moves (keeps no_service)
    (routes.post_api_tweet log_tweet update_tweet_log text media reply_to).
Proof.
  unfold routes.post_api_tweet, routes.create_tweet, routes.create_tweet_inner,
    routes.process_tweet_async, main.twitter_error_handler,
    main.general_exception_handler, main.respond.
  repeat first
    [ apply Hlog
    | apply Hupdate
    | apply get_twitter_service_keeps_no_service
    | apply (moves_of_same_loc _ _ (same_loc_keeps _)),
        same_loc_format_error_response
    | apply (moves_of_same_loc _ _ (same_loc_keeps _)),
        same_loc_TweetResponse_new
    | apply (moves_of_same_loc _ _ (same_loc_keeps _)), same_loc_emit
    | moves_step ].
Qed.

End any_store.

Lemma health_check_keeps_no_service :
  moves (keeps no_service) main.health_check.
Proof.
  unfold main.health_check, HealthResponse.new, now.
  repeat first
    [ apply get_twitter_service_keeps_no_service
    | apply (moves_of_same_loc _ _ (same_loc_keeps _)), same_loc_ask
    | moves_step ].
Qed.

Lemma in_app_keeps {A} (m : M main.App A) (s : St Process) r s' :
  moves (keeps no_service) m ->
  in_app m s = (r, s') ->
  no_service (app (loc s)) -> no_service (app (loc s')).
Proof.
  intros Hm H Hnone. unfold in_app, zoom in H.
  destruct (m {| loc := app (loc s); ext := ext s |}) as [r1 a1] eqn:E.
  inversion H; subst. simpl. exact (Hm _ _ _ E Hnone).
Qed.

Lemma get_logs_same_loc (limit : Z) : moves same_loc (get_logs limit).
Proof.
  intros s r s' H. unfold same_loc.
  destruct (get_logs_frame limit s) as [Hloc _].
  rewrite H in Hloc. exact Hloc.
Qed.

(** In every state of the running process the global that
    [get_twitter_service] reads is unset. *)
Lemma running_no_service (s : St Process) :
  running s -> no_service (app (loc s)).
Proof.
  induction 1 as [s Hnone _ | s r s' _ IH H | s text media reply_to r s' _ IH H
                  | s text media reply_to r s' _ IH H | s r s' _ IH H
                  | s limit r s' _ IH H].
  - exact Hnone.
  - destruct (startup_event_run _ _ _ H) as (Happ & _). rewrite Happ. exact IH.
  - refine (in_app_keeps _ _ _ _ _ H IH). rewrite <- routes_over_main.
    apply post_api_tweet_keeps_no_service.
    + apply main_log_tweet_keeps_no_service.
    + apply main_update_tweet_log_keeps_no_service.
  - refine (in_app_keeps _ _ _ _ _ H IH).
    apply post_api_tweet_keeps_no_service.
    + apply db_log_tweet_keeps_no_service.
    + apply db_update_tweet_log_keeps_no_service.
  - exact (in_app_keeps _ _ _ _ health_check_keeps_no_service H IH).
  - rewrite (get_logs_same_loc _ _ _ _ H). exact IH.
Qed.


End running_properties.

(** * The properties at concrete worlds *)


(** X1 at an adapter whose posts are refused with "timeout". *)
Lemma create_tweet_at_most_three_posts_witness :
  twitter_client.create_tweet "hello" None None
    (sample.adapter true ∅ (sample.lib_post_fails "timeout"))
  = (Raise (TwitterClientError "发布推文失败: timeout"),
     snd (twitter_client.create_tweet "hello" None None
            (sample.adapter true ∅ (sample.lib_post_fails "timeout")))) /\
  exists evs,
    trace (ext (snd (twitter_client.create_tweet "hello" None None
                       (sample.adapter true ∅
                          (sample.lib_post_fails "timeout")))))
      = [] ++ evs /\
    (count_posts evs <= 3)%nat.
Proof.
  assert (Hrun : twitter_client.create_tweet "hello" None None
            (sample.adapter true ∅ (sample.lib_post_fails "timeout"))
          = (Raise (TwitterClientError "发布推文失败: timeout"),
             snd (twitter_client.create_tweet "hello" None None
                    (sample.adapter true ∅
                       (sample.lib_post_fails "timeout")))))
    by (vm_compute; reflexivity).
  split; [exact Hrun|].
  destruct (create_tweet_at_most_three_posts _ _ _ _ _ _ Hrun)
    as (evs & Htr & Hposts & _).
  exists evs. split; [exact Htr | exact Hposts].
Defined.

(** X2 at an adapter whose login is refused: every attempt fails in the
    authentication, and the call sleeps twice. *)
Lemma create_tweet_failure_used_every_attempt_witness :
  twitter_client.create_tweet "hello" None None
    (sample.adapter false ∅ (sample.lib_login_fails "bad password"))
  = (Raise (TwitterClientError "认证失败: bad password"),
     snd (twitter_client.create_tweet "hello" None None
            (sample.adapter false ∅ (sample.lib_login_fails "bad password"))))
  /\
  exists evs,
    trace (ext (snd (twitter_client.create_tweet "hello" None None
                       (sample.adapter false ∅
                          (sample.lib_login_fails "bad password")))))
      = [] ++ evs /\
    length (sleeps evs) = 2%nat.
Proof.
  assert (Hrun : twitter_client.create_tweet "hello" None None
            (sample.adapter false ∅ (sample.lib_login_fails "bad password"))
          = (Raise (TwitterClientError "认证失败: bad password"),
             snd (twitter_client.create_tweet "hello" None None
                    (sample.adapter false ∅
                       (sample.lib_login_fails "bad password")))))
    by (vm_compute; reflexivity).
  split; [exact Hrun|].
  destruct (create_tweet_failure_used_every_attempt _ _ _ _ _ _ Hrun)
    as [(evs & Htr & Hsleeps) _].
  exists evs. split; [exact Htr|]. rewrite Hsleeps. reflexivity.
Defined.

(** X3 at an adapter that has to log in first, uploads one item and
    posts. *)
Lemma create_tweet_returns_the_posted_tweet_witness :
  twitter_client.create_tweet "hello" (Some ["aGVsbG8="]) (Some "42")
    (sample.adapter false ∅ (sample.lib_ok sample.tweet))
  = (Return {| twitter_client.tweet_id := "123456789";
               twitter_client.text := "hello";
               twitter_client.created_at := "2024-01-15T10:30:00Z";
               twitter_client.user_id := "user123";
               twitter_client.user_name := "Test User" |},
     snd (twitter_client.create_tweet "hello" (Some ["aGVsbG8="]) (Some "42")
            (sample.adapter false ∅ (sample.lib_ok sample.tweet)))) /\
  twitter_client._authenticated
    (loc (snd (twitter_client.create_tweet "hello" (Some ["aGVsbG8="]) (Some "42")
                 (sample.adapter false ∅ (sample.lib_ok sample.tweet)))))
  = true.
Proof.
  assert (Hrun : twitter_client.create_tweet "hello" (Some ["aGVsbG8="]) (Some "42")
            (sample.adapter false ∅ (sample.lib_ok sample.tweet))
          = (Return {| twitter_client.tweet_id := "123456789";
                       twitter_client.text := "hello";
                       twitter_client.created_at := "2024-01-15T10:30:00Z";
                       twitter_client.user_id := "user123";
                       twitter_client.user_name := "Test User" |},
             snd (twitter_client.create_tweet "hello" (Some ["aGVsbG8="]) (Some "42")
                    (sample.adapter false ∅ (sample.lib_ok sample.tweet)))))
    by (vm_compute; reflexivity).
  split; [exact Hrun|].
  exact (proj1 (create_tweet_returns_the_posted_tweet _ _ _ _ _ _ Hrun)).
Defined.

(** X4 at an authenticated adapter whose session is dead. *)
Lemma health_check_keeps_the_flag_witness :
  twitter_client._authenticated
    (loc (sample.adapter true ∅ (sample_process.lib_session_dead "expired")))
  = true /\
  exists h s',
    twitter_client.health_check
      (sample.adapter true ∅ (sample_process.lib_session_dead "expired"))
    = (Return h, s') /\
    loc s' =
      loc (sample.adapter true ∅ (sample_process.lib_session_dead "expired")).
Proof.
  split; [reflexivity|].
  destruct (health_check_keeps_the_flag
              (sample.adapter true ∅ (sample_process.lib_session_dead "expired"))
              eq_refl) as (h & s' & Hrun & Hloc & _).
  exists h, s'. split; [exact Hrun | exact Hloc].
Defined.

(** X5 at an authenticated adapter whose lookup raises. *)
Lemma get_tweet_info_outcomes_witness :
  twitter_client.get_tweet_info "123456789"
    (sample.adapter true ∅ (sample_process.lib_session_dead "not found"))
  = (Return None,
     snd (twitter_client.get_tweet_info "123456789"
            (sample.adapter true ∅
               (sample_process.lib_session_dead "not found")))) /\
  twitter_client._authenticated
    (loc (snd (twitter_client.get_tweet_info "123456789"
                 (sample.adapter true ∅
                    (sample_process.lib_session_dead "not found")))))
  = true.
Proof.
  assert (Hrun : twitter_client.get_tweet_info "123456789"
            (sample.adapter true ∅
               (sample_process.lib_session_dead "not found"))
          = (Return None,
             snd (twitter_client.get_tweet_info "123456789"
                    (sample.adapter true ∅
                       (sample_process.lib_session_dead "not found")))))
    by (vm_compute; reflexivity).
  split; [exact Hrun|].
  exact (proj1 (get_tweet_info_outcomes _ _ _ _ Hrun)).
Defined.

(** X6 at an adapter without a cookie file: the login saves the session,
    and a new adapter object for the same file finds it. *)
Lemma saved_cookies_are_reused_witness :
  files (ext (sample.adapter false ∅ (sample.lib_ok sample.tweet)))
    !! twitter_client.cookies_file
         (loc (sample.adapter false ∅ (sample.lib_ok sample.tweet))) = None /\
  exists s2,
    twitter_client.authenticate
      {| loc := sample.service false;
         ext := ext (snd (twitter_client.authenticate
                            (sample.adapter false ∅
                               (sample.lib_ok sample.tweet)))) |}
    = (Return true, s2) /\
    twitter_client.client (loc s2) =
      twitter_client.client
        (loc (snd (twitter_client.authenticate
                     (sample.adapter false ∅ (sample.lib_ok sample.tweet))))).
Proof.
  assert (Hfile :
    files (ext (sample.adapter false ∅ (sample.lib_ok sample.tweet)))
      !! twitter_client.cookies_file
           (loc (sample.adapter false ∅ (sample.lib_ok sample.tweet))) = None)
    by (vm_compute; reflexivity).
  assert (Hrun : twitter_client.authenticate
            (sample.adapter false ∅ (sample.lib_ok sample.tweet))
          = (Return true,
             snd (twitter_client.authenticate
                    (sample.adapter false ∅ (sample.lib_ok sample.tweet)))))
    by (vm_compute; reflexivity).
  split; [exact Hfile|].
  destruct (saved_cookies_are_reused _ _ (sample.service false) Hfile Hrun
              eq_refl eq_refl eq_refl) as (s2 & Hauth & Hclient & _).
  exists s2. split; [exact Hauth | exact Hclient].
Defined.

(** X7 at three items of which the second is refused. *)
Lemma upload_media_stops_at_first_failure_witness :
  twitter_client._upload_media ["a"; "b"; "c"]
    (sample.adapter true ∅ (sample_process.lib_second_upload_fails "too large"))
  = (Raise (TwitterClientError "媒体上传失败: too large"),
     snd (twitter_client._upload_media ["a"; "b"; "c"]
            (sample.adapter true ∅
               (sample_process.lib_second_upload_fails "too large")))) /\
  exists k,
    (k <= 3)%nat /\
    trace (ext (snd (twitter_client._upload_media ["a"; "b"; "c"]
                       (sample.adapter true ∅
                          (sample_process.lib_second_upload_fails
                             "too large")))))
      = [] ++ map UploadMedia (seq 0 k).
Proof.
  assert (Hrun : twitter_client._upload_media ["a"; "b"; "c"]
            (sample.adapter true ∅
               (sample_process.lib_second_upload_fails "too large"))
          = (Raise (TwitterClientError "媒体上传失败: too large"),
             snd (twitter_client._upload_media ["a"; "b"; "c"]
                    (sample.adapter true ∅
                       (sample_process.lib_second_upload_fails
                          "too large")))))
    by (vm_compute; reflexivity).
  split; [exact Hrun|].
  destruct (upload_media_stops_at_first_failure _ _ _ _ Hrun)
    as (k & Hk & Htr & _).
  exists k. split; [exact Hk | exact Htr].
Defined.

(** X8 at a PNG whose payload holds a comma. *)
Lemma media_data_url_round_trip_witness :
  media_data.parse "data:image/png;base64,iVBOR,w0KGgo="
    = Return ("image/png", "iVBOR,w0KGgo=") /\
  media_data.parse "data:image/png,iVBOR,w0KGgo="
    = Return ("image/png", "iVBOR,w0KGgo=").
Proof.
  exact (media_data_url_round_trip "image/png" "base64" "iVBOR,w0KGgo="
           eq_refl eq_refl eq_refl eq_refl).
Defined.


(** X12 at a log with the ids 1 and 2. *)
Lemma log_ids_stay_unique_witness :
  unique_ids
    (main.db (loc (sample_process.app_with sample_process.two_rows None
                     (sample.lib_ok sample.tweet)))) /\
  unique_ids
    (main.db (loc (snd (main.log_tweet "third" None "processing" None
                          (sample_process.app_with sample_process.two_rows
                             None (sample.lib_ok sample.tweet)))))).
Proof.
  assert (Hunique : unique_ids
            (main.db (loc (sample_process.app_with sample_process.two_rows
                             None (sample.lib_ok sample.tweet))))).
  { unfold unique_ids. apply (bool_decide_unpack _). vm_compute. exact I. }
  split; [exact Hunique|].
  exact (proj1 (log_ids_stay_unique
                  (sample_process.app_with sample_process.two_rows None
                     (sample.lib_ok sample.tweet))
                  "third" "processing" None None None None None 1 None
                  Hunique)).
Defined.

(** X13 at a log with two rows: the ids 3 and 4, with an update between. *)
Lemma log_ids_increase_witness :
  fst (main.log_tweet "third" None "processing" None
         (sample_process.app_with sample_process.two_rows None
            (sample.lib_ok sample.tweet))) = Return 3 /\
  fst (main.log_tweet "fourth" None "processing" None
         (snd (main.update_tweet_log 3 None (Some "failed") None (Some "boom")
                 (snd (main.log_tweet "third" None "processing" None
                         (sample_process.app_with sample_process.two_rows None
                            (sample.lib_ok sample.tweet)))))))
    = Return 4 /\
  3 < 4.
Proof.
  assert (H1 : fst (main.log_tweet "third" None "processing" None
                      (sample_process.app_with sample_process.two_rows None
                         (sample.lib_ok sample.tweet))) = Return 3)
    by (vm_compute; reflexivity).
  assert (H2 : fst (main.log_tweet "fourth" None "processing" None
                      (snd (main.update_tweet_log 3 None (Some "failed") None
                              (Some "boom")
                              (snd (main.log_tweet "third" None "processing"
                                      None
                                      (sample_process.app_with
                                         sample_process.two_rows None
                                         (sample.lib_ok sample.tweet)))))))
               = Return 4)
    by (vm_compute; reflexivity).
  split; [exact H1|]. split; [exact H2|].
  exact (log_ids_increase _ _ _ _ _ _ _ _ _ _ _ _ H1 H2).
Defined.

(** X17 at a log with two rows and an adapter whose posts are refused. *)
Lemma post_api_tweet_appends_one_row_witness :
  models.TweetRequest.text_ok "hello" = true /\
  exists resp s' row,
    main.post_api_tweet "hello" None None
      (sample_process.app_with sample_process.two_rows
         (Some (sample.service true)) (sample.lib_post_fails "timeout"))
    = (Return resp, s') /\
    database.tweet_logs (main.db (loc s')) =
      database.tweet_logs sample_process.two_rows ++ [row] /\
    database.id row = 3 /\ database.retry_count row = 0.
Proof.
  split; [reflexivity|].
  destruct (post_api_tweet_appends_one_row "hello" None None
              (sample_process.app_with sample_process.two_rows
                 (Some (sample.service true)) (sample.lib_post_fails "timeout"))
              eq_refl)
    as (resp & s' & row & Hrun & Hrows & Hid & _ & _ & Hrc & _).
  exists resp, s', row. auto.
Defined.

(** X18 at an adapter that posts a tweet dated in the ISO form. *)
Lemma publish_success_witness :
  models.TweetRequest.text_ok "hello" = true /\
  parse_datetime (library (ext (sample.app 3 true (sample.lib_ok sample.tweet))))
    "2024-01-15T10:30:00Z" = Some 1705314600 /\
  exists s',
    main.post_api_tweet "hello" None None
      (sample.app 3 true (sample.lib_ok sample.tweet))
    = (Return {| main.status_code := 200;
                 main.body :=
                   main.TweetBody
                     {| models.TweetResponse.success := true;
                        models.TweetResponse.tweet_id := Some "123456789";
                        models.TweetResponse.message := "推文发布成功";
                        models.TweetResponse.created_at := Some 1705314600 |} |},
       s') /\
    logged s' 1 "hello" "success" None.
Proof.
  split; [reflexivity|]. split; [reflexivity|].
  assert (Hlog : main.log_tweet "hello" None "processing" None
                   (sample.app 3 true (sample.lib_ok sample.tweet))
                 = (Return 1,
                    snd (main.log_tweet "hello" None "processing" None
                           (sample.app 3 true (sample.lib_ok sample.tweet)))))
    by (vm_compute; reflexivity).
  assert (Hpost : main.get_twitter_service
                    (twitter_client.create_tweet "hello" None None)
                    (snd (main.log_tweet "hello" None "processing" None
                            (sample.app 3 true (sample.lib_ok sample.tweet))))
                  = (Return {| twitter_client.tweet_id := "123456789";
                               twitter_client.text := "hello";
                               twitter_client.created_at :=
                                 "2024-01-15T10:30:00Z";
                               twitter_client.user_id := "user123";
                               twitter_client.user_name := "Test User" |},
                     snd (main.get_twitter_service
                            (twitter_client.create_tweet "hello" None None)
                            (snd (main.log_tweet "hello" None "processing" None
                                    (sample.app 3 true
                                       (sample.lib_ok sample.tweet)))))))
    by (vm_compute; reflexivity).
  destruct (publish_success "hello" None None _ _ _ _ _ 1705314600 eq_refl
              Hlog Hpost eq_refl) as (s' & Hrun & _ & Hrow).
  exists s'. split; [exact Hrun | exact Hrow].
Defined.

(** X20 at a fresh process whose login is refused: the start-up returns. *)
Lemma startup_event_outcomes_witness :
  fst (main_lifecycle.startup_event
         (sample_process.fresh (sample.settings 3) sample.empty_db
            (sample.lib_login_fails "bad password"))) = Return tt /\
  main_lifecycle.app
    (loc (snd (main_lifecycle.startup_event
                 (sample_process.fresh (sample.settings 3) sample.empty_db
                    (sample.lib_login_fails "bad password")))))
    = main_lifecycle.app
        (loc (sample_process.fresh (sample.settings 3) sample.empty_db
                (sample.lib_login_fails "bad password"))) /\
  exists svc,
    main_lifecycle.main_twitter_service
      (loc (snd (main_lifecycle.startup_event
                   (sample_process.fresh (sample.settings 3) sample.empty_db
                      (sample.lib_login_fails "bad password")))))
      = Some svc /\
    twitter_client.username svc = "test_user" /\
    twitter_client.email svc = "test@example.com" /\
    twitter_client.password svc = "test_password" /\
    twitter_client.cookies_file svc = "data/cookies.json".
Proof.
  exact (startup_event_outcomes
           (sample_process.fresh (sample.settings 3) sample.empty_db
              (sample.lib_login_fails "bad password"))).
Defined.

(** X21 at a fresh process in a world where every library call succeeds. *)
Lemma no_service_after_startup_witness :
  main.twitter_service
    (main_lifecycle.app
       (loc (sample_process.fresh (sample.settings 3) sample.empty_db
               (sample.lib_ok sample.tweet)))) = None /\
  main_lifecycle.startup_event
    (sample_process.fresh (sample.settings 3) sample.empty_db
       (sample.lib_ok sample.tweet))
  = (Return tt,
     snd (main_lifecycle.startup_event
            (sample_process.fresh (sample.settings 3) sample.empty_db
               (sample.lib_ok sample.tweet)))) /\
  models.TweetRequest.text_ok "hello" = true /\
  exists detail s2,
    main_lifecycle.in_app (main.post_api_tweet "hello" None None)
      (snd (main_lifecycle.startup_event
              (sample_process.fresh (sample.settings 3) sample.empty_db
                 (sample.lib_ok sample.tweet))))
    = (Return {| main.status_code := 500; main.body := main.Detail detail |},
       s2) /\
    details detail = Some "Twitter服务未初始化".
Proof.
  assert (Hrun : main_lifecycle.startup_event
            (sample_process.fresh (sample.settings 3) sample.empty_db
               (sample.lib_ok sample.tweet))
          = (Return tt,
             snd (main_lifecycle.startup_event
                    (sample_process.fresh (sample.settings 3) sample.empty_db
                       (sample.lib_ok sample.tweet)))))
    by (vm_compute; reflexivity).
  split; [reflexivity|]. split; [exact Hrun|]. split; [reflexivity|].
  destruct (no_service_after_startup
              (sample_process.fresh (sample.settings 3) sample.empty_db
                 (sample.lib_ok sample.tweet))
              _ _ "hello" None None eq_refl Hrun eq_refl) as [(detail & log_id & s2 & Hpost & _ & Hdetails & _) _].
  exists detail, s2. split; [exact Hpost | exact Hdetails].
Defined.
